(** * Billing documents generator (silver/documents_generator.py)

    A shallow embedding of [DocumentsGenerator] and of the parts of Python's
    [datetime] it relies on, followed by the properties of the generation
    runs: which documents are created, which charges land on them, and in
    which order the collaborators are called. *)

From stdpp Require Import gmap strings list.
From Stdlib Require Import ZArith Lia.

(** The exceptions the generator can raise from its own arithmetic. *)
Inductive Exception := OverflowError.

(** ** Python's [datetime.date] and [datetime.timedelta] *)

Module Datetime.
Local Open Scope Z_scope.

Record date := mkdate { year : Z; month : Z; day : Z }.

Definition MINYEAR : Z := 1.
Definition MAXYEAR : Z := 9999.
Definition _MAXORDINAL : Z := 3652059.

Definition _is_leap (y : Z) : bool :=
  (y mod 4 =? 0) && (negb (y mod 100 =? 0) || (y mod 400 =? 0)).

Definition _DAYS_IN_MONTH (m : Z) : Z :=
  match m with
  | 1 => 31 | 2 => 28 | 3 => 31 | 4 => 30 | 5 => 31 | 6 => 30
  | 7 => 31 | 8 => 31 | 9 => 30 | 10 => 31 | 11 => 30 | 12 => 31
  | _ => -1
  end.

Definition _DAYS_BEFORE_MONTH (m : Z) : Z :=
  match m with
  | 1 => 0 | 2 => 31 | 3 => 59 | 4 => 90 | 5 => 120 | 6 => 151
  | 7 => 181 | 8 => 212 | 9 => 243 | 10 => 273 | 11 => 304 | 12 => 334
  | _ => -1
  end.

Definition _days_before_year (y : Z) : Z :=
  let y := y - 1 in y * 365 + y / 4 - y / 100 + y / 400.

Definition _days_in_month (y m : Z) : Z :=
  if (m =? 2) && _is_leap y then 29 else _DAYS_IN_MONTH m.

Definition _days_before_month (y m : Z) : Z :=
  _DAYS_BEFORE_MONTH m + (if (2 <? m) && _is_leap y then 1 else 0).

Definition _ymd2ord (y m d : Z) : Z :=
  _days_before_year y + _days_before_month y m + d.

Definition _DI400Y : Z := _days_before_year 401.
Definition _DI100Y : Z := _days_before_year 101.
Definition _DI4Y : Z := _days_before_year 5.

Definition _ord2ymd (n : Z) : date :=
  let n := n - 1 in
  let n400 := n / _DI400Y in
  let n := n mod _DI400Y in
  let y := n400 * 400 + 1 in
  let n100 := n / _DI100Y in
  let n := n mod _DI100Y in
  let n4 := n / _DI4Y in
  let n := n mod _DI4Y in
  let n1 := n / 365 in
  let n := n mod 365 in
  let y := y + n100 * 100 + n4 * 4 + n1 in
  if (n1 =? 4) || (n100 =? 4) then mkdate (y - 1) 12 31
  else
    let leapyear := (n1 =? 3) && (negb (n4 =? 24) || (n100 =? 3)) in
    let m := Z.shiftr (n + 50) 5 in
    let preceding :=
      _DAYS_BEFORE_MONTH m + (if (2 <? m) && leapyear then 1 else 0) in
    if n <? preceding then
      let m := m - 1 in
      let preceding :=
        preceding
        - (_DAYS_IN_MONTH m + (if (m =? 2) && leapyear then 1 else 0)) in
      mkdate y m (n - preceding + 1)
    else mkdate y m (n - preceding + 1).

Definition toordinal (d : date) : Z := _ymd2ord (year d) (month d) (day d).

Definition fromordinal (n : Z) : date := _ord2ymd n.

(** The field check of the [date] constructor. *)
Definition _check_date_fields (y m d : Z) : bool :=
  (MINYEAR <=? y) && (y <=? MAXYEAR) && (1 <=? m) && (m <=? 12)
  && (1 <=? d) && (d <=? _days_in_month y m).

Definition valid_date (d : date) : bool :=
  _check_date_fields (year d) (month d) (day d).

Record timedelta := mktimedelta { days : Z }.

(** [timedelta(days=n)]: the number of days is limited to nine digits. *)
Definition timedelta_of_days (n : Z) : Exception + timedelta :=
  if Z.abs n <=? 999999999 then inr (mktimedelta n) else inl OverflowError.

(** [date.__add__]: through the ordinal, which must stay in range. *)
Definition date_add (d : date) (t : timedelta) : Exception + date :=
  let o := toordinal d + days t in
  if (0 <? o) && (o <=? _MAXORDINAL) then inr (fromordinal o)
  else inl OverflowError.

(** The month and the day of the [n]-th day, from 0, of a year. *)
Definition month_and_day (y : Z) (leapyear : bool) (n : Z) : date :=
  let m := Z.shiftr (n + 50) 5 in
  let preceding :=
    _DAYS_BEFORE_MONTH m + (if (2 <? m) && leapyear then 1 else 0) in
  if n <? preceding then
    let m := m - 1 in
    let preceding :=
      preceding
      - (_DAYS_IN_MONTH m + (if (m =? 2) && leapyear then 1 else 0)) in
    mkdate y m (n - preceding + 1)
  else mkdate y m (n - preceding + 1).

Definition month_and_day_ok (leapyear : bool) (k : nat) : bool :=
  let d := month_and_day 0 leapyear (Z.of_nat k) in
  (_DAYS_BEFORE_MONTH (month d)
   + (if (2 <? month d) && leapyear then 1 else 0) + day d
   =? Z.of_nat k + 1).

End Datetime.
Import Datetime.

(** ** The objects the generator works with *)

Inductive Flow := invoice | proforma.

Record Provider := {
  provider_pk : nat;
  flow : Flow;
  default_document_state : string }.

Record Plan := { provider : Provider }.

Record Customer := {
  customer_pk : nat;
  consolidated_billing : bool;
  payment_due_days : Z }.

Record Subscription := {
  subscription_pk : nat;
  state : string;
  plan : Plan;
  customer : Customer }.

Inductive DocumentModel := Invoice | Proforma.

(** A row of the documents table; a document is referred to by its
    position in the table. *)
Record Document := {
  document_model : DocumentModel;
  document_provider : Provider;
  document_customer : Customer;
  due_date : date;
  document_state : string }.

(** A line item: the charge of one subscription on one document. *)
Record DocumentEntry := {
  entry_subscription : Subscription;
  entry_billing_date : date;
  entry_flow : Flow;
  entry_document : nat }.

(** The calls the generator makes to its collaborators, as logged. *)
Inductive Call :=
| TimezoneNow
| ShouldBeBilled (sub : Subscription) (billing_date : date)
| CreateDocument (pk : nat)
| AddTotalValueToDocument
    (sub : Subscription) (billing_date : date) (kw : Flow) (pk : nat)
| EndSubscription (sub : Subscription)
| SaveSubscription (sub : Subscription)
| IssueDocument (pk : nat)
| SaveDocument (pk : nat).

#[global] Instance date_eq_dec : EqDecision date.
Proof. solve_decision. Defined.
#[global] Instance Flow_eq_dec : EqDecision Flow.
Proof. solve_decision. Defined.
#[global] Instance Provider_eq_dec : EqDecision Provider.
Proof. solve_decision. Defined.
#[global] Instance Plan_eq_dec : EqDecision Plan.
Proof. solve_decision. Defined.
#[global] Instance Customer_eq_dec : EqDecision Customer.
Proof. solve_decision. Defined.
#[global] Instance Subscription_eq_dec : EqDecision Subscription.
Proof. solve_decision. Defined.
#[global] Instance Call_eq_dec : EqDecision Call.
Proof. solve_decision. Defined.

(** The database tables, the number of clock readings and the call log. *)
Record World := {
  clock_reads : nat;
  Customer_objects : list Customer;
  Subscription_objects : list Subscription;
  Document_objects : list Document;
  DocumentEntry_objects : list DocumentEntry;
  calls : list Call }.

(** ** State and exceptions *)

Inductive Outcome (A : Type) :=
| Returned (a : A)
| Raised (e : Exception).
Arguments Returned {A} a.
Arguments Raised {A} e.

Definition M (A : Type) : Type := World -> World * Outcome A.

Definition ret {A} (a : A) : M A := fun w => (w, Returned a).

Definition bind {A B} (m : M A) (k : A -> M B) : M B :=
  fun w =>
    match m w with
    | (w1, Returned a) => k a w1
    | (w1, Raised e) => (w1, Raised e)
    end.

Notation "x <- m ;; k" := (bind m (fun x => k))
  (at level 100, m at next level, right associativity).
Notation "m ;;; k" := (bind m (fun _ => k))
  (at level 100, right associativity).

(** A value computed by library code that may raise. *)
Definition lift {A} (r : Exception + A) : M A :=
  fun w => match r with inl e => (w, Raised e) | inr a => (w, Returned a) end.

Definition log (c : Call) : M unit :=
  fun w =>
    ({| clock_reads := clock_reads w;
        Customer_objects := Customer_objects w;
        Subscription_objects := Subscription_objects w;
        Document_objects := Document_objects w;
        DocumentEntry_objects := DocumentEntry_objects w;
        calls := calls w ++ [c] |}, Returned tt).

(** [for x in l: acc = body(x, acc)], the way a Python loop threads its
    local variables; an exception leaves the loop. *)
Fixpoint for_in {A S} (l : list A) (body : A -> S -> M S) (acc : S) : M S :=
  match l with
  | [] => ret acc
  | x :: l' => acc' <- body x acc ;; for_in l' body acc'
  end.

(** ** The collaborators

    The models, the clock and the subscription's billing methods live
    outside this file of the repository; they are modelled here by their
    effect on the tables and by an entry in the call log. *)

(** A model instance in memory: the row it was loaded from or created as,
    and the primary key it is saved under. *)
Record DocumentInstance := {
  document_pk : nat;
  document_fields : Document }.

Definition set_tables (w : World) (subs : list Subscription)
    (docs : list Document) (ents : list DocumentEntry) (c : Call) : World :=
  {| clock_reads := clock_reads w;
     Customer_objects := Customer_objects w;
     Subscription_objects := subs;
     Document_objects := docs;
     DocumentEntry_objects := ents;
     calls := calls w ++ [c] |}.

(** Modelled from the spec: [provider.model_corresponding_to_default_flow],
    the document kind resolved from the provider's flow. *)
Definition model_corresponding_to_default_flow (prov : Provider)
    : DocumentModel :=
  match flow prov with invoice => Invoice | proforma => Proforma end.

(** Modelled from the spec: [Customer.objects.all()]. *)
Definition Customer_objects_all : M (list Customer) :=
  fun w => (w, Returned (Customer_objects w)).

(** Modelled from the spec: [customer.subscriptions.filter(state__in=...)],
    the rows of the customer whose state is one of the listed ones. *)
Definition subscriptions_filter (cu : Customer) (state__in : list string)
    : M (list Subscription) :=
  fun w =>
    (w, Returned
          (List.filter
             (fun s => Nat.eqb (customer_pk (customer s)) (customer_pk cu)
                       && existsb (String.eqb (state s)) state__in)
             (Subscription_objects w))).

(** Modelled from the spec: [DocumentModel.objects.create(provider=...,
    customer=..., due_date=...)] inserts a draft and returns it. *)
Definition objects_create (model : DocumentModel) (prov : Provider)
    (cu : Customer) (due : date) : M DocumentInstance :=
  fun w =>
    let row := {| document_model := model; document_provider := prov;
                  document_customer := cu; due_date := due;
                  document_state := "draft" |} in
    let pk := length (Document_objects w) in
    (set_tables w (Subscription_objects w) (Document_objects w ++ [row])
       (DocumentEntry_objects w) (CreateDocument pk),
     Returned {| document_pk := pk; document_fields := row |}).

(** Modelled from the spec: [subscription.add_total_value_to_document(
    billing_date=..., invoice=document)] (or [proforma=document]) appends
    the subscription's charge to the document as a line item. *)
Definition add_total_value_to_document (sub : Subscription)
    (billing_date : date) (kw : Flow) (doc : DocumentInstance) : M unit :=
  fun w =>
    (set_tables w (Subscription_objects w) (Document_objects w)
       (DocumentEntry_objects w
        ++ [{| entry_subscription := sub; entry_billing_date := billing_date;
               entry_flow := kw; entry_document := document_pk doc |}])
       (AddTotalValueToDocument sub billing_date kw (document_pk doc)),
     Returned tt).

Definition ended (sub : Subscription) : Subscription :=
  {| subscription_pk := subscription_pk sub; state := "ended";
     plan := plan sub; customer := customer sub |}.

(** Modelled from the spec: [subscription.end()], the transition to
    [ended] of the instance in memory. *)
Definition subscription_end (sub : Subscription) : M Subscription :=
  sub' <- ret (ended sub) ;; log (EndSubscription sub) ;;; ret sub'.

(** Modelled from the spec: [subscription.save()] writes the instance to
    the row of its primary key. *)
Definition subscription_save (sub : Subscription) : M unit :=
  fun w =>
    (set_tables w
       (List.map
          (fun r => if Nat.eqb (subscription_pk r) (subscription_pk sub)
                    then sub else r)
          (Subscription_objects w))
       (Document_objects w) (DocumentEntry_objects w) (SaveSubscription sub),
     Returned tt).

Definition issued (doc : DocumentInstance) : DocumentInstance :=
  {| document_pk := document_pk doc;
     document_fields :=
       {| document_model := document_model (document_fields doc);
          document_provider := document_provider (document_fields doc);
          document_customer := document_customer (document_fields doc);
          due_date := due_date (document_fields doc);
          document_state := "issued" |} |}.

(** Modelled from the spec: [document.issue()], the transition from draft
    to [issued] of the instance in memory. *)
Definition document_issue (doc : DocumentInstance) : M DocumentInstance :=
  log (IssueDocument (document_pk doc)) ;;; ret (issued doc).

(** Modelled from the spec: [document.save()]. *)
Definition document_save (doc : DocumentInstance) : M unit :=
  fun w =>
    (set_tables w (Subscription_objects w)
       (<[document_pk doc := document_fields doc]> (Document_objects w))
       (DocumentEntry_objects w) (SaveDocument (document_pk doc)),
     Returned tt).

(** ** DocumentsGenerator *)

Section DocumentsGenerator.

(** [subscription.should_be_billed(date)], a predicate on the subscription
    and the billing date. *)
Variable should_be_billed : Subscription -> date -> bool.

(** [timezone.now().date()] at the n-th reading of the clock. *)
Variable now : nat -> date.

Definition should_be_billed_at (sub : Subscription) (billing_date : date)
    : M bool :=
  log (ShouldBeBilled sub billing_date) ;;;
  ret (should_be_billed sub billing_date).

Definition timezone_now_date : M date :=
  fun w =>
    ({| clock_reads := S (clock_reads w);
        Customer_objects := Customer_objects w;
        Subscription_objects := Subscription_objects w;
        Document_objects := Document_objects w;
        DocumentEntry_objects := DocumentEntry_objects w;
        calls := calls w ++ [TimezoneNow] |},
     Returned (now (clock_reads w))).

Definition _create_document (prov : Provider) (cu : Customer)
    (sub : Subscription) (billing_date : date) : M DocumentInstance :=
  let DocumentModel := model_corresponding_to_default_flow prov in
  delta <- lift (timedelta_of_days (payment_due_days cu)) ;;
  due <- lift (date_add billing_date delta) ;;
  document <- objects_create DocumentModel prov cu due ;;
  ret document.

(** The body of the loop of the consolidated path; [cached_documents] maps
    a provider, compared by primary key as model instances are, to the
    provider used as key and its document. *)
Definition consolidated_body (cu : Customer) (billing_date : date)
    (sub : Subscription)
    (cached_documents : gmap nat (Provider * DocumentInstance))
    : M (gmap nat (Provider * DocumentInstance)) :=
  billed <- should_be_billed_at sub billing_date ;;
  if negb billed then ret cached_documents
  else
    let prov := provider (plan sub) in
    hit <- match cached_documents !! provider_pk prov with
           | Some (_, document) => ret (document, cached_documents)
           | None =>
               document <- _create_document prov cu sub billing_date ;;
               ret (document,
                    <[provider_pk prov := (prov, document)]> cached_documents)
           end ;;
    let document := fst hit in
    let cached_documents := snd hit in
    add_total_value_to_document sub billing_date (flow prov) document ;;;
    (if String.eqb (state sub) "canceled"
     then sub' <- subscription_end sub ;; subscription_save sub'
     else ret tt) ;;;
    ret cached_documents.

Definition issue_body (item : nat * (Provider * DocumentInstance))
    (_ : unit) : M unit :=
  let prov := fst (snd item) in
  let document := snd (snd item) in
  if String.eqb (default_document_state prov) "issued"
  then document' <- document_issue document ;; document_save document'
  else ret tt.

(** [cached_documents.iteritems()] is gone through here in the order of
    [map_to_list], the order of the keys of the map, where Python goes
    through a dict in the order of its hash table: among the issuances of
    different documents the log may show another order than that of the
    program.  What is left in the tables does not depend on that order,
    as is proved below. *)
Definition _generate_for_user_with_consolidated_billing (cu : Customer)
    (billing_date : date) : M unit :=
  subs <- subscriptions_filter cu ["active"; "canceled"] ;;
  cached_documents <- for_in subs (consolidated_body cu billing_date) ∅ ;;
  for_in (map_to_list cached_documents) issue_body tt.

Definition separate_body (cu : Customer) (billing_date : date)
    (sub : Subscription) (_ : unit) : M unit :=
  billed <- should_be_billed_at sub billing_date ;;
  if negb billed then ret tt
  else
    let prov := provider (plan sub) in
    document <- _create_document prov cu sub billing_date ;;
    add_total_value_to_document sub billing_date (flow prov) document ;;;
    (if String.eqb (state sub) "canceled"
     then sub' <- subscription_end sub ;; subscription_save sub'
     else ret tt) ;;;
    if String.eqb (default_document_state prov) "issued"
    then document' <- document_issue document ;; document_save document'
    else ret tt.

Definition _generate_for_user_without_consolidated_billing (cu : Customer)
    (billing_date : date) : M unit :=
  subs <- subscriptions_filter cu ["active"; "canceled"] ;;
  for_in subs (separate_body cu billing_date) tt.

Definition customer_body (billing_date : date) (cu : Customer) (_ : unit)
    : M unit :=
  if consolidated_billing cu
  then _generate_for_user_with_consolidated_billing cu billing_date
  else _generate_for_user_without_consolidated_billing cu billing_date.

(** [dt.date(now.year, now.month, 1)]: year and month come from a date and
    every month has a first day, so the constructor's field check passes. *)
Definition first_of_month (today : date) : date :=
  mkdate (year today) (month today) 1.

Definition _generate_all : M unit :=
  today <- timezone_now_date ;;
  let billing_date := first_of_month today in
  customers <- Customer_objects_all ;;
  for_in customers (customer_body billing_date) tt.

Definition _generate_for_single_subscription_now (sub : Subscription)
    : M unit :=
  today <- timezone_now_date ;;
  let prov := provider (plan sub) in
  let cu := customer sub in
  document <- _create_document prov cu sub today ;;
  add_total_value_to_document sub today (flow prov) document ;;;
  (if String.eqb (state sub) "canceled"
   then sub' <- subscription_end sub ;; subscription_save sub'
   else ret tt) ;;;
  if String.eqb (default_document_state prov) "issued"
  then document' <- document_issue document ;; document_save document'
  else ret tt.

Definition generate (subscription : option Subscription) : M unit :=
  match subscription with
  | None => _generate_all
  | Some sub => _generate_for_single_subscription_now sub
  end.

End DocumentsGenerator.

(** ** Vocabulary of the properties *)

(** The due date [_create_document] computes, or the exception it raises. *)
Definition due_date_for (billing_date : date) (cu : Customer)
    : Exception + date :=
  match timedelta_of_days (payment_due_days cu) with
  | inl e => inl e
  | inr delta => date_add billing_date delta
  end.

Definition draft_row (prov : Provider) (cu : Customer) (due : date)
    : Document :=
  {| document_model := model_corresponding_to_default_flow prov;
     document_provider := prov; document_customer := cu; due_date := due;
     document_state := "draft" |}.

Definition charge_entry (billing_date : date) (sub : Subscription) (pk : nat)
    : DocumentEntry :=
  {| entry_subscription := sub; entry_billing_date := billing_date;
     entry_flow := flow (provider (plan sub)); entry_document := pk |}.

(** The calls made to charge a subscription on the document [pk]. *)
Definition charge_calls (billing_date : date) (sub : Subscription) (pk : nat)
    : list Call :=
  AddTotalValueToDocument sub billing_date (flow (provider (plan sub))) pk
  :: (if String.eqb (state sub) "canceled"
      then [EndSubscription sub; SaveSubscription (ended sub)] else []).

(** The calls made to finish the document [pk] of provider [prov]. *)
Definition issue_calls (prov : Provider) (pk : nat) : list Call :=
  if String.eqb (default_document_state prov) "issued"
  then [IssueDocument pk; SaveDocument pk] else [].

(** The subscription table after the instance [sub] has been processed. *)
Definition saved_subscriptions (sub : Subscription)
    (rows : list Subscription) : list Subscription :=
  if String.eqb (state sub) "canceled"
  then List.map
         (fun r => if Nat.eqb (subscription_pk r) (subscription_pk sub)
                   then ended sub else r) rows
  else rows.

(** The documents a call names. *)
Definition call_documents (c : Call) : list nat :=
  match c with
  | CreateDocument pk | AddTotalValueToDocument _ _ _ pk
  | IssueDocument pk | SaveDocument pk => [pk]
  | _ => []
  end.

(** What the log must show next, for the ending of subscriptions: nothing
    in particular, the end of a canceled subscription just charged, or the
    save of a subscription just ended. *)
Inductive Expect :=
| Anything
| ExpectEnd (sub : Subscription)
| ExpectSave (sub : Subscription).

Fixpoint follows (e : Expect) (l : list Call) : Prop :=
  match l with
  | [] => e = Anything
  | c :: l' =>
      match e, c with
      | ExpectEnd s, EndSubscription s' => s' = s /\ follows (ExpectSave s) l'
      | ExpectSave s, SaveSubscription s' =>
          s' = ended s /\ follows Anything l'
      | Anything, AddTotalValueToDocument s _ _ _ =>
          if String.eqb (state s) "canceled" then follows (ExpectEnd s) l'
          else follows Anything l'
      | Anything, EndSubscription _ => False
      | Anything, SaveSubscription _ => False
      | Anything, _ => follows Anything l'
      | _, _ => False
      end
  end.

(** The rows [customer.subscriptions.filter(state__in=['active',
    'canceled'])] returns. *)
Definition active_or_canceled (cu : Customer) (w : World)
    : list Subscription :=
  List.filter
    (fun s => Nat.eqb (customer_pk (customer s)) (customer_pk cu)
              && existsb (String.eqb (state s)) ["active"; "canceled"])
    (Subscription_objects w).

Definition state_listed (sub : Subscription) : Prop :=
  state sub = "active" \/ state sub = "canceled".

Definition provider_key (sub : Subscription) : nat :=
  provider_pk (provider (plan sub)).

(** The row of a document once the generator is done with it. *)
Definition finished_row (prov : Provider) (cu : Customer) (due : date)
    : Document :=
  if String.eqb (default_document_state prov) "issued"
  then document_fields
         (issued {| document_pk := 0; document_fields := draft_row prov cu due |})
  else draft_row prov cu due.

(** What a call may be while the customers are processed with billing date
    [d]: [Asked] holds of the subscriptions whose [should_be_billed] is
    consulted, [Billed] of those that are charged. *)
Definition call_ok (d : date) (Asked Billed : Subscription -> Prop)
    (c : Call) : Prop :=
  match c with
  | TimezoneNow => False
  | ShouldBeBilled s d' => d' = d /\ Asked s
  | AddTotalValueToDocument s d' kw _ =>
      d' = d /\ kw = flow (provider (plan s)) /\ Billed s
  | EndSubscription s => Billed s
  | _ => True
  end.

Definition entry_ok (d : date) (Billed : Subscription -> Prop)
    (e : DocumentEntry) : Prop :=
  entry_billing_date e = d /\
  entry_flow e = flow (provider (plan (entry_subscription e))) /\
  Billed (entry_subscription e).

(** What holds of the document [n] created by a piece of work that added
    the entries [E] and made the calls [L]. *)
Definition document_ok (d : date) (E : list DocumentEntry) (L : list Call)
    (n : nat) (doc : Document) : Prop :=
  due_date_for d (document_customer doc) = inr (due_date doc) /\
  doc = finished_row (document_provider doc) (document_customer doc)
          (due_date doc) /\
  filter (fun c => c = IssueDocument n) L =
    (if String.eqb (default_document_state (document_provider doc)) "issued"
     then [IssueDocument n] else []) /\
  exists e, e ∈ E /\ entry_document e = n.

Definition in_range (a b n : nat) : Prop := a <= n < b.

(** A subscription the full run bills: listed state and due for billing. *)
Definition eligible (should_be_billed : Subscription -> date -> bool)
    (d : date) (sub : Subscription) : Prop :=
  state_listed sub /\ should_be_billed sub d = true.

(** The subscriptions of a list that are due for billing. *)
Definition due_for_billing (should_be_billed : Subscription -> date -> bool)
    (d : date) (subs : list Subscription) : list Subscription :=
  List.filter (fun s => should_be_billed s d) subs.

(** The last call before an exception left the work started in [w]. *)
Definition stopped (d : date) (Billed : Subscription -> Prop)
    (w w' : World) : Prop :=
  exists L sub, calls w' = calls w ++ L ++ [ShouldBeBilled sub d] /\ Billed sub.

(** A piece of work that leaves the documents of [w] alone and whose
    entries, calls and documents are as above. *)
Definition advances (d : date) (Asked Billed : Subscription -> Prop)
    (w w' : World) : Prop :=
  clock_reads w' = clock_reads w /\
  Customer_objects w' = Customer_objects w /\
  length (Document_objects w) <= length (Document_objects w') /\
  (forall n, n < length (Document_objects w) ->
             Document_objects w' !! n = Document_objects w !! n) /\
  exists E L,
    DocumentEntry_objects w' = DocumentEntry_objects w ++ E /\
    calls w' = calls w ++ L /\
    Forall (fun e => in_range (length (Document_objects w))
                       (length (Document_objects w')) (entry_document e)
                     /\ entry_ok d Billed e) E /\
    Forall (fun c => Forall (in_range (length (Document_objects w))
                               (length (Document_objects w')))
                       (call_documents c)
                     /\ call_ok d Asked Billed c) L /\
    follows Anything L /\
    forall n doc, length (Document_objects w) <= n ->
                  Document_objects w' !! n = Some doc ->
                  document_ok d E L n doc.

(** The document the cache holds for the provider of a subscription. *)
Definition cached_pk (cache : gmap nat (Provider * DocumentInstance))
    (sub : Subscription) : nat :=
  match cache !! provider_key sub with
  | Some (_, document) => document_pk document
  | None => 0
  end.

(** The calls of the loop of the consolidated path: in the range of the
    documents created so far, well-formed, and none of them an issuance. *)
Definition loop_call_ok (d : date) (Asked Billed : Subscription -> Prop)
    (a b : nat) (c : Call) : Prop :=
  Forall (in_range a b) (call_documents c) /\ call_ok d Asked Billed c /\
  forall n, c <> IssueDocument n.

(** The invariant of the loop of the consolidated path, started in [w0],
    after the subscriptions [pre], when the due date is [due]. *)
Definition consolidated_inv
    (should_be_billed : Subscription -> date -> bool)
    (Asked Billed : Subscription -> Prop) (cu : Customer) (d due : date)
    (w0 : World) (pre : list Subscription)
    (cache : gmap nat (Provider * DocumentInstance)) (w : World) : Prop :=
  clock_reads w = clock_reads w0 /\
  Customer_objects w = Customer_objects w0 /\
  (exists D,
     Document_objects w = Document_objects w0 ++ D /\
     length D = size cache /\
     (forall k prov doc,
        cache !! k = Some (prov, doc) ->
        k = provider_pk prov /\
        document_fields doc = draft_row prov cu due /\
        length (Document_objects w0) <= document_pk doc /\
        D !! (document_pk doc - length (Document_objects w0))
        = Some (draft_row prov cu due)) /\
     (forall i row,
        D !! i = Some row ->
        exists prov doc,
          cache !! provider_pk (document_provider row) = Some (prov, doc) /\
          document_pk doc = length (Document_objects w0) + i)) /\
  dom cache
  = list_to_set (provider_key <$> due_for_billing should_be_billed d pre) /\
  DocumentEntry_objects w
  = DocumentEntry_objects w0
    ++ ((fun s => charge_entry d s (cached_pk cache s))
          <$> due_for_billing should_be_billed d pre) /\
  exists L,
    calls w = calls w0 ++ L /\
    Forall (loop_call_ok d Asked Billed (length (Document_objects w0))
              (length (Document_objects w))) L /\
    follows Anything L.

(** The document table after the loop that issues the cached documents. *)
Definition issue_rows (items : list (nat * (Provider * DocumentInstance)))
    (rows : list Document) : list Document :=
  foldl
    (fun rows item =>
       if String.eqb (default_document_state (fst (snd item))) "issued"
       then <[document_pk (snd (snd item))
              := document_fields (issued (snd (snd item)))]> rows
       else rows)
    rows items.

Definition item_provider (item : nat * (Provider * DocumentInstance))
    : Provider := fst (snd item).

Definition item_pk (item : nat * (Provider * DocumentInstance)) : nat :=
  document_pk (snd (snd item)).

(** The calls of the loop that issues the cached documents. *)
Definition issue_loop_calls
    (items : list (nat * (Provider * DocumentInstance))) : list Call :=
  items ≫= fun item => issue_calls (item_provider item) (item_pk item).

(** The line item a call leaves in the entries table. *)
Definition call_entry (c : Call) : list DocumentEntry :=
  match c with
  | AddTotalValueToDocument sub d kw pk =>
      [{| entry_subscription := sub; entry_billing_date := d;
          entry_flow := kw; entry_document := pk |}]
  | _ => []
  end.

(** A piece of work whose new entries are those of its calls, in order. *)
Definition in_step (w w' : World) : Prop :=
  exists E L,
    DocumentEntry_objects w' = DocumentEntry_objects w ++ E /\
    calls w' = calls w ++ L /\
    E = L ≫= call_entry.

(** The billing date of a run started in [w]. *)
Definition run_billing_date (now : nat -> date)
    (subscription : option Subscription) (w : World) : date :=
  match subscription with
  | None => first_of_month (now (clock_reads w))
  | Some _ => now (clock_reads w)
  end.

(** The subscriptions a run asks about, and those it charges. *)
Definition run_asked (subscription : option Subscription)
    (sub : Subscription) : Prop :=
  match subscription with
  | None => state_listed sub
  | Some _ => False
  end.

Definition run_billed (should_be_billed : Subscription -> date -> bool)
    (now : nat -> date) (subscription : option Subscription) (w : World)
    (sub : Subscription) : Prop :=
  match subscription with
  | None => eligible should_be_billed (first_of_month (now (clock_reads w))) sub
  | Some sub' => sub = sub'
  end.

(** The questions a customer's loop asks about the subscriptions [subs]. *)
Definition questions (d : date) (subs : list Subscription) : list Call :=
  (fun s => ShouldBeBilled s d) <$> subs.

(** The world [w] after the calls [L] have been logged and nothing else
    has happened. *)
Definition logged (w : World) (L : list Call) : World :=
  {| clock_reads := clock_reads w;
     Customer_objects := Customer_objects w;
     Subscription_objects := Subscription_objects w;
     Document_objects := Document_objects w;
     DocumentEntry_objects := DocumentEntry_objects w;
     calls := calls w ++ L |}.

(** The due date of customer [cu] for the billing date [d] is a date that
    [timedelta] and [date] can hold. *)
Definition representable (d : date) (cu : Customer) : Prop :=
  (- 999999999 <= payment_due_days cu <= 999999999 /\
   1 <= toordinal d + payment_due_days cu <= _MAXORDINAL)%Z.

(** What a run may do to a row of the subscriptions table: leave it, or
    overwrite it with the ended instance of a canceled subscription that
    has the primary key of the row. *)
Definition kept_or_ended (r r' : Subscription) : Prop :=
  r' = r \/
  exists s, state s = "canceled" /\
            subscription_pk s = subscription_pk r /\ r' = ended s.

(** A piece of work that does nothing else to the subscriptions table. *)
Definition rows_kept (w w' : World) : Prop :=
  Forall2 kept_or_ended (Subscription_objects w) (Subscription_objects w').

(** The row [r] once the subscriptions [billed] holds of have been through
    the loop of their customer with billing date [d]. *)
Definition end_due (should_be_billed : Subscription -> date -> bool)
    (d : date) (billed : Subscription -> bool) (r : Subscription)
    : Subscription :=
  if String.eqb (state r) "canceled" && should_be_billed r d && billed r
  then ended r else r.

Definition among (subs : list Subscription) (r : Subscription) : bool :=
  bool_decide (r ∈ subs).

Definition of_customer (cu : Customer) (r : Subscription) : bool :=
  Nat.eqb (customer_pk (customer r)) (customer_pk cu).

Definition of_customers (customers : list Customer) (r : Subscription)
    : bool :=
  bool_decide (customer_pk (customer r) ∈ customer_pk <$> customers).

(** The number of documents a full run with billing date [d] owes the
    customer [cu], going by the subscriptions table of [w]: one for each
    provider of a subscription that is due if the customer has
    consolidated billing, one for each subscription that is due if not. *)
Definition documents_due (should_be_billed : Subscription -> date -> bool)
    (d : date) (cu : Customer) (w : World) : nat :=
  if consolidated_billing cu
  then size (list_to_set
               (provider_key
                <$> due_for_billing should_be_billed d (active_or_canceled cu w))
             : gset nat)
  else length (due_for_billing should_be_billed d (active_or_canceled cu w)).

(** What the log must show next, for the saving of documents: nothing in
    particular, or the save of the document that has just been issued. *)
Fixpoint issue_then_save (pending : option nat) (l : list Call) : Prop :=
  match l with
  | [] => pending = None
  | c :: l' =>
      match pending, c with
      | Some n, SaveDocument m => m = n /\ issue_then_save None l'
      | Some _, _ => False
      | None, IssueDocument n => issue_then_save (Some n) l'
      | None, SaveDocument _ => False
      | None, _ => issue_then_save None l'
      end
  end.

(** A piece of work whose calls satisfy [P]. *)
Definition logs (P : list Call -> Prop) (w w' : World) : Prop :=
  exists L, calls w' = calls w ++ L /\ P L.

(** The subscriptions table after the instances [subs] have been
    processed one after the other. *)
Definition ended_in_turn (subs : list Subscription)
    (rows : list Subscription) : list Subscription :=
  foldl (fun rows s => saved_subscriptions s rows) rows subs.

(** An entry, a call, a document in memory and the cache of documents
    when the documents table has [k] more rows in front. *)
Definition shift_entry (k : nat) (e : DocumentEntry) : DocumentEntry :=
  {| entry_subscription := entry_subscription e;
     entry_billing_date := entry_billing_date e;
     entry_flow := entry_flow e;
     entry_document := k + entry_document e |}.

Definition shift_call (k : nat) (c : Call) : Call :=
  match c with
  | CreateDocument pk => CreateDocument (k + pk)
  | AddTotalValueToDocument sub d kw pk =>
      AddTotalValueToDocument sub d kw (k + pk)
  | IssueDocument pk => IssueDocument (k + pk)
  | SaveDocument pk => SaveDocument (k + pk)
  | _ => c
  end.

Definition shift_document (k : nat) (doc : DocumentInstance)
    : DocumentInstance :=
  {| document_pk := k + document_pk doc;
     document_fields := document_fields doc |}.

Definition shift_cache (k : nat)
    (cache : gmap nat (Provider * DocumentInstance))
    : gmap nat (Provider * DocumentInstance) :=
  prod_map id (shift_document k) <$> cache.

(** The world [w] is the world [u] with the documents [P], the entries
    [Q] and the calls [R] in front of its own. *)
Definition grafted (P : list Document) (Q : list DocumentEntry)
    (R : list Call) (u w : World) : Prop :=
  clock_reads w = clock_reads u /\
  Customer_objects w = Customer_objects u /\
  Subscription_objects w = Subscription_objects u /\
  Document_objects w = P ++ Document_objects u /\
  DocumentEntry_objects w
  = Q ++ (shift_entry (length P) <$> DocumentEntry_objects u) /\
  calls w = R ++ (shift_call (length P) <$> calls u).

Definition outcome_map {A B} (f : A -> B) (r : Outcome A) : Outcome B :=
  match r with
  | Returned a => Returned (f a)
  | Raised e => Raised e
  end.

(** The subscriptions a log asks about, and those it charges, in order. *)
Definition asked_subscriptions (L : list Call) : list Subscription :=
  L ≫= fun c => match c with ShouldBeBilled s _ => [s] | _ => [] end.

Definition charged_subscriptions (L : list Call) : list Subscription :=
  L ≫= fun c =>
         match c with AddTotalValueToDocument s _ _ _ => [s] | _ => [] end.

(** ** A small database to run the generator on *)

Module Example.

Definition provider_x : Provider :=
  {| provider_pk := 1; flow := invoice; default_document_state := "issued" |}.

Definition provider_y : Provider :=
  {| provider_pk := 2; flow := proforma; default_document_state := "draft" |}.

Definition customer_a : Customer :=
  {| customer_pk := 1; consolidated_billing := true;
     payment_due_days := 15 |}.

Definition customer_b : Customer :=
  {| customer_pk := 2; consolidated_billing := false;
     payment_due_days := 30 |}.

(** Two customers whose payment due days lead past the year 9999. *)
Definition customer_c : Customer :=
  {| customer_pk := 3; consolidated_billing := true;
     payment_due_days := 3000000 |}.

Definition customer_d : Customer :=
  {| customer_pk := 4; consolidated_billing := false;
     payment_due_days := 3000000 |}.

Definition subscription (pk : nat) (st : string) (prov : Provider)
    (cu : Customer) : Subscription :=
  {| subscription_pk := pk; state := st; plan := {| provider := prov |};
     customer := cu |}.

(** Every subscription is due for billing but the sixth. *)
Definition should_be_billed (sub : Subscription) (d : date) : bool :=
  negb (Nat.eqb (subscription_pk sub) 6).

(** The clock stands at 2023-06-17. *)
Definition now (n : nat) : date := mkdate 2023 6 17.

Definition world (customers : list Customer) (subs : list Subscription)
    : World :=
  {| clock_reads := 0; Customer_objects := customers;
     Subscription_objects := subs; Document_objects := [];
     DocumentEntry_objects := []; calls := [] |}.

Definition subscriptions : list Subscription :=
  [subscription 1 "active" provider_x customer_a;
   subscription 2 "canceled" provider_x customer_a;
   subscription 3 "active" provider_y customer_a;
   subscription 4 "ended" provider_y customer_a;
   subscription 5 "canceled" provider_y customer_b;
   subscription 6 "active" provider_x customer_b;
   subscription 7 "active" provider_x customer_c;
   subscription 8 "active" provider_x customer_d;
   subscription 9 "canceled" provider_x customer_d].

Definition two_customers : World :=
  world [customer_a; customer_b] subscriptions.

Definition overflowing_consolidated : World :=
  world [customer_c] subscriptions.

Definition overflowing_separate : World :=
  world [customer_d] subscriptions.

(** The first document of a full run over the two customers. *)
Definition first_document : Document :=
  {| document_model := Invoice; document_provider := provider_x;
     document_customer := customer_a; due_date := mkdate 2023 6 16;
     document_state := "issued" |}.

(** Customer C, whose due date cannot be represented, between A and B. *)
Definition three_customers : World :=
  world [customer_a; customer_c; customer_b] subscriptions.

(** A database in which nothing is due: an ended subscription, and the
    one that should not be billed. *)
Definition nothing_due : World :=
  world [customer_a; customer_b]
    [subscription 4 "ended" provider_y customer_a;
     subscription 6 "active" provider_x customer_b].

(** Customer A with two subscriptions that are due, of two providers. *)
Definition two_providers : World :=
  world [customer_a]
    [subscription 1 "active" provider_x customer_a;
     subscription 3 "canceled" provider_y customer_a].

(** The database of the two customers with a document and its entry
    from an earlier run. *)
Definition billed_before : World :=
  {| clock_reads := 0; Customer_objects := [customer_a; customer_b];
     Subscription_objects := subscriptions;
     Document_objects := [first_document];
     DocumentEntry_objects :=
       [charge_entry (mkdate 2023 5 1)
          (subscription 1 "active" provider_x customer_a) 0];
     calls := [] |}.

(** The documents of customer A as the loop of the consolidated path has
    cached them, and the same in the order in which they were created. *)
Definition invoice_of_a : DocumentInstance :=
  {| document_pk := 0;
     document_fields := draft_row provider_x customer_a (mkdate 2023 6 16) |}.

Definition proforma_of_a : DocumentInstance :=
  {| document_pk := 1;
     document_fields := draft_row provider_y customer_a (mkdate 2023 6 16) |}.

Definition cached_of_a : gmap nat (Provider * DocumentInstance) :=
  <[1 := (provider_x, invoice_of_a)]>
    (<[2 := (provider_y, proforma_of_a)]> ∅).

Definition cached_of_a_as_created
    : list (nat * (Provider * DocumentInstance)) :=
  [(1, (provider_x, invoice_of_a)); (2, (provider_y, proforma_of_a))].

End Example.

(** ** Dates and their ordinals *)

Module DatetimeFacts.
Local Open Scope Z_scope.

Lemma month_and_day_checked :
  forallb (fun k => month_and_day_ok true k && month_and_day_ok false k)
    (seq 0 366) = true.
Proof. vm_compute. reflexivity. Qed.

Lemma month_and_day_sum y leapyear n :
  0 <= n < 366 ->
  _DAYS_BEFORE_MONTH (month (month_and_day y leapyear n))
  + (if (2 <? month (month_and_day y leapyear n)) && leapyear then 1 else 0)
  + day (month_and_day y leapyear n) = n + 1.
Proof.
  intros Hn.
  pose proof month_and_day_checked as H.
  rewrite List.forallb_forall in H.
  specialize (H (Z.to_nat n)).
  assert (Hin : In (Z.to_nat n) (seq 0 366)).
  { apply in_seq. lia. }
  apply H in Hin. apply andb_prop in Hin as [Ht Hf].
  unfold month_and_day_ok in *. rewrite Z2Nat.id in Ht, Hf by lia.
  assert (Hy : forall l, month (month_and_day y l n) = month (month_and_day 0 l n)
                      /\ day (month_and_day y l n) = day (month_and_day 0 l n)).
  { intros l. unfold month_and_day. cbv zeta.
    split; destruct (n <? _); reflexivity. }
  destruct (Hy leapyear) as [-> ->].
  destruct leapyear; [apply Z.eqb_eq in Ht|apply Z.eqb_eq in Hf]; done.
Qed.

Lemma month_and_day_year y leapyear n :
  year (month_and_day y leapyear n) = y.
Proof. unfold month_and_day. cbv zeta. destruct (n <? _); reflexivity. Qed.

Lemma ord2ymd_eq n :
  _ord2ymd n =
  let n0 := n - 1 in
  let n400 := n0 / 146097 in
  let r1 := n0 mod 146097 in
  let n100 := r1 / 36524 in
  let r2 := r1 mod 36524 in
  let n4 := r2 / 1461 in
  let r3 := r2 mod 1461 in
  let n1 := r3 / 365 in
  let r4 := r3 mod 365 in
  let y := n400 * 400 + 1 + n100 * 100 + n4 * 4 + n1 in
  if (n1 =? 4) || (n100 =? 4) then mkdate (y - 1) 12 31
  else month_and_day y ((n1 =? 3) && (negb (n4 =? 24) || (n100 =? 3))) r4.
Proof. reflexivity. Qed.

Lemma toordinal_fromordinal n : 1 <= n -> toordinal (fromordinal n) = n.
Proof.
  intros Hn. unfold fromordinal. rewrite ord2ymd_eq. cbv zeta.
  set (n0 := n - 1).
  set (n400 := n0 / 146097). set (r1 := n0 mod 146097).
  set (n100 := r1 / 36524). set (r2 := r1 mod 36524).
  set (n4 := r2 / 1461). set (r3 := r2 mod 1461).
  set (n1 := r3 / 365). set (r4 := r3 mod 365).
  assert (H1 : n0 = 146097 * n400 + r1 /\ 0 <= r1 < 146097).
  { unfold n400, r1. split; [apply Z.div_mod; lia|apply Z.mod_pos_bound; lia]. }
  assert (H2 : r1 = 36524 * n100 + r2 /\ 0 <= r2 < 36524).
  { unfold n100, r2. split; [apply Z.div_mod; lia|apply Z.mod_pos_bound; lia]. }
  assert (H3 : r2 = 1461 * n4 + r3 /\ 0 <= r3 < 1461).
  { unfold n4, r3. split; [apply Z.div_mod; lia|apply Z.mod_pos_bound; lia]. }
  assert (H4 : r3 = 365 * n1 + r4 /\ 0 <= r4 < 365).
  { unfold n1, r4. split; [apply Z.div_mod; lia|apply Z.mod_pos_bound; lia]. }
  clearbody n400 r1 n100 r2 n4 r3 n1 r4.
  assert (H0 : 0 <= n400) by lia.
  assert (H100 : 0 <= n100 <= 4) by lia.
  assert (H4' : 0 <= n4 <= 24) by lia.
  assert (H1' : 0 <= n1 <= 4) by lia.
  unfold toordinal, _ymd2ord, _days_before_year, _days_before_month.
  destruct ((n1 =? 4) || (n100 =? 4)) eqn:Hedge.
  - simpl year. simpl month. simpl day.
    assert (Hleap : _is_leap (n400 * 400 + 1 + n100 * 100 + n4 * 4 + n1 - 1) = true).
    { unfold _is_leap. apply orb_prop in Hedge as [He|He]; apply Z.eqb_eq in He.
      - assert (n4 <= 23) by lia.
        replace (n400 * 400 + 1 + n100 * 100 + n4 * 4 + n1 - 1)
          with (4 * (n4 + 1) + 100 * (n100 + 4 * n400)) by lia.
        apply andb_true_intro. split.
        + apply Z.eqb_eq. Z.to_euclidean_division_equations. lia.
        + apply orb_true_intro. left. apply negb_true_iff, Z.eqb_neq.
          Z.to_euclidean_division_equations. lia.
      - assert (n4 = 0 /\ n1 = 0) as [-> ->] by lia. subst n100.
        apply andb_true_intro. split.
        + apply Z.eqb_eq. Z.to_euclidean_division_equations. lia.
        + apply orb_true_intro. right. apply Z.eqb_eq.
          Z.to_euclidean_division_equations. lia. }
    rewrite Hleap. simpl.
    apply orb_prop in Hedge as [He|He]; apply Z.eqb_eq in He;
      Z.to_euclidean_division_equations; lia.
  - apply orb_false_elim in Hedge as [He1 He2].
    apply Z.eqb_neq in He1, He2.
    set (y := n400 * 400 + 1 + n100 * 100 + n4 * 4 + n1).
    set (leap := (n1 =? 3) && (negb (n4 =? 24) || (n100 =? 3))).
    assert (Hleap : _is_leap y = leap).
    { unfold _is_leap, leap, y.
      destruct (n1 =? 3) eqn:E1; [apply Z.eqb_eq in E1|apply Z.eqb_neq in E1].
      2: { simpl. apply andb_false_intro1, Z.eqb_neq.
           Z.to_euclidean_division_equations. lia. }
      subst n1. simpl.
      replace ((n400 * 400 + 1 + n100 * 100 + n4 * 4 + 3) mod 4) with 0
        by (Z.to_euclidean_division_equations; lia).
      simpl.
      destruct (n4 =? 24) eqn:E4; [apply Z.eqb_eq in E4|apply Z.eqb_neq in E4].
      + subst n4. simpl.
        replace ((n400 * 400 + 1 + n100 * 100 + 24 * 4 + 3) mod 100) with 0
          by (Z.to_euclidean_division_equations; lia).
        simpl.
        destruct (n100 =? 3) eqn:E100;
          [apply Z.eqb_eq in E100|apply Z.eqb_neq in E100].
        * apply Z.eqb_eq. Z.to_euclidean_division_equations. lia.
        * apply Z.eqb_neq. Z.to_euclidean_division_equations. lia.
      + simpl. apply orb_true_intro. left. apply negb_true_iff, Z.eqb_neq.
        Z.to_euclidean_division_equations. lia. }
    rewrite month_and_day_year, Hleap.
    pose proof (month_and_day_sum y leap r4 ltac:(lia)) as Hsum.
    unfold y in *.
    Z.to_euclidean_division_equations. lia.
Qed.

(** Adding a [timedelta] moves the ordinal by its days. *)
Lemma date_add_toordinal d delta d' :
  date_add d delta = inr d' -> toordinal d' = toordinal d + days delta.
Proof.
  unfold date_add.
  destruct ((0 <? toordinal d + days delta)
            && (toordinal d + days delta <=? _MAXORDINAL)) eqn:Hrange; [|done].
  intros [= <-]. apply andb_prop in Hrange as [Hpos _].
  apply Z.ltb_lt in Hpos. apply toordinal_fromordinal. lia.
Qed.

(** The date built by [dt.date(now.year, now.month, 1)] passes the field
    check of the constructor whenever [now] is a date. *)
Lemma first_of_month_valid (today : date) :
  valid_date today = true ->
  valid_date (mkdate (year today) (month today) 1) = true.
Proof.
  unfold valid_date, _check_date_fields. simpl. intros H.
  repeat (apply andb_prop in H as [H ?]).
  repeat (apply andb_true_intro; split); try done.
  apply Z.leb_le. unfold _days_in_month.
  destruct ((month today =? 2) && _is_leap (year today)); [lia|].
  assert (1 <= month today <= 12) as Hm by lia.
  assert (month today = 1 \/ month today = 2 \/ month today = 3 \/
          month today = 4 \/ month today = 5 \/ month today = 6 \/
          month today = 7 \/ month today = 8 \/ month today = 9 \/
          month today = 10 \/ month today = 11 \/ month today = 12)
    as Hcases by lia.
  repeat (destruct Hcases as [->|Hcases]; [simpl; lia|]).
  rewrite Hcases. simpl. lia.
Qed.

End DatetimeFacts.

(** ** Loops and single steps *)

Lemma for_in_app {A S} (l1 l2 : list A) (body : A -> S -> M S) acc w :
  for_in (l1 ++ l2) body acc w =
  match for_in l1 body acc w with
  | (w1, Returned acc1) => for_in l2 body acc1 w1
  | (w1, Raised e) => (w1, Raised e)
  end.
Proof.
  revert acc w. induction l1 as [|x l1 IH]; intros acc w; simpl.
  - reflexivity.
  - unfold bind. destruct (body x acc w) as [w1 [acc1|e]]; [apply IH | reflexivity].
Qed.

(** The loop rule: an invariant indexed by the elements processed so far,
    and a condition that holds wherever the loop is left by an exception. *)
Lemma for_in_rule {A S} (Inv : list A -> S -> World -> Prop)
    (Exit : Exception -> World -> Prop) (l : list A) (body : A -> S -> M S)
    acc0 w0 :
  Inv [] acc0 w0 ->
  (forall pre x post acc w,
     l = pre ++ x :: post -> Inv pre acc w ->
     match body x acc w with
     | (w', Returned acc') => Inv (pre ++ [x]) acc' w'
     | (w', Raised e) => Exit e w'
     end) ->
  match for_in l body acc0 w0 with
  | (w', Returned acc') => Inv l acc' w'
  | (w', Raised e) => Exit e w'
  end.
Proof.
  intros H0 Hstep.
  assert (Hgen : forall done todo acc w,
             l = done ++ todo -> Inv done acc w ->
             match for_in todo body acc w with
             | (w', Returned acc') => Inv l acc' w'
             | (w', Raised e) => Exit e w'
             end).
  { intros done todo. revert done.
    induction todo as [|x todo IH]; intros done acc w Hl Hinv; simpl.
    - rewrite app_nil_r in Hl. by subst.
    - unfold bind. specialize (Hstep done x todo acc w Hl Hinv).
      destruct (body x acc w) as [w1 [acc1|e]]; [|done].
      apply (IH (done ++ [x])); [|done].
      by rewrite <- app_assoc. }
  by apply (Hgen [] l).
Qed.

Section Properties.

Variable should_be_billed : Subscription -> date -> bool.
Variable now : nat -> date.

Local Abbreviation separate_body := (separate_body should_be_billed).
Local Abbreviation consolidated_body := (consolidated_body should_be_billed).
Local Abbreviation due_for_billing := (due_for_billing should_be_billed).

Lemma create_document_eq prov cu sub d w :
  _create_document prov cu sub d w =
  match due_date_for d cu with
  | inl e => (w, Raised e)
  | inr due =>
      (set_tables w (Subscription_objects w)
         (Document_objects w ++ [draft_row prov cu due])
         (DocumentEntry_objects w)
         (CreateDocument (length (Document_objects w))),
       Returned {| document_pk := length (Document_objects w);
                   document_fields := draft_row prov cu due |})
  end.
Proof.
  unfold _create_document, due_date_for, bind, lift.
  destruct (timedelta_of_days (payment_due_days cu)) as [e|delta]; [done|].
  by destruct (date_add d delta).
Qed.

Lemma separate_body_skip cu d sub w :
  should_be_billed sub d = false ->
  separate_body cu d sub tt w = (fst (log (ShouldBeBilled sub d) w), Returned tt).
Proof.
  intros Hb. unfold separate_body, should_be_billed_at, bind, log, ret.
  simpl. by rewrite Hb.
Qed.

Lemma separate_body_raise cu d sub w e :
  should_be_billed sub d = true -> due_date_for d cu = inl e ->
  separate_body cu d sub tt w = (fst (log (ShouldBeBilled sub d) w), Raised e).
Proof.
  intros Hb Hd. unfold separate_body, should_be_billed_at, bind, log, ret.
  simpl. rewrite Hb. simpl. rewrite create_document_eq, Hd. done.
Qed.

Lemma separate_body_bill cu d sub w due :
  should_be_billed sub d = true -> due_date_for d cu = inr due ->
  exists w',
    separate_body cu d sub tt w = (w', Returned tt) /\
    clock_reads w' = clock_reads w /\
    Customer_objects w' = Customer_objects w /\
    Subscription_objects w' = saved_subscriptions sub (Subscription_objects w) /\
    Document_objects w' =
      Document_objects w ++ [finished_row (provider (plan sub)) cu due] /\
    DocumentEntry_objects w' =
      DocumentEntry_objects w
      ++ [charge_entry d sub (length (Document_objects w))] /\
    calls w' =
      calls w
      ++ ShouldBeBilled sub d :: CreateDocument (length (Document_objects w))
         :: charge_calls d sub (length (Document_objects w))
         ++ issue_calls (provider (plan sub)) (length (Document_objects w)).
Proof.
  intros Hb Hd. unfold separate_body, should_be_billed_at, bind, log, ret.
  simpl. rewrite Hb. simpl. rewrite create_document_eq, Hd. simpl.
  unfold saved_subscriptions, finished_row, charge_calls, issue_calls,
    subscription_end, subscription_save, document_issue, document_save,
    add_total_value_to_document, bind, log, ret.
  simpl.
  destruct (String.eqb (state sub) "canceled");
    destruct (String.eqb (default_document_state (provider (plan sub))) "issued");
    simpl; eexists; (split; [reflexivity|]); simpl;
    rewrite <- ?app_assoc; simpl;
    repeat split; try reflexivity.
  all: rewrite insert_app_r_alt by lia; rewrite Nat.sub_diag; reflexivity.
Qed.

Lemma follows_app e l1 l2 :
  follows e l1 -> follows Anything l2 -> follows e (l1 ++ l2).
Proof.
  revert e. induction l1 as [|c l1 IH]; intros e H1 H2; simpl in *.
  - by subst.
  - destruct e, c; try done; try (by apply IH).
    + destruct (String.eqb (state sub) "canceled"); by apply IH.
    + destruct H1 as [-> H1]. split; [done|]. by apply IH.
    + destruct H1 as [-> H1]. split; [done|]. by apply IH.
Qed.

Lemma charge_calls_follows d sub pk : follows Anything (charge_calls d sub pk).
Proof.
  unfold charge_calls. simpl.
  destruct (String.eqb (state sub) "canceled") eqn:E; simpl; rewrite ?E; done.
Qed.

Lemma issue_calls_follows prov pk : follows Anything (issue_calls prov pk).
Proof. unfold issue_calls. by destruct (String.eqb _ _). Qed.

Lemma filter_issue_out_of_range (P : Call -> Prop) a b n (L : list Call) :
  Forall (fun c => Forall (in_range a b) (call_documents c) /\ P c) L ->
  ~ in_range a b n ->
  filter (fun c => c = IssueDocument n) L = [].
Proof.
  intros HL Hn. induction HL as [|c L [Hc _] _ IH]; [done|].
  rewrite filter_cons, IH. case_decide as Heq; [|done].
  subst c. simpl in Hc. by inversion Hc.
Qed.

Lemma advances_refl d Asked Billed w : advances d Asked Billed w w.
Proof.
  do 4 (split; [done|]). exists [], []. rewrite !app_nil_r.
  do 5 (split; [done|]).
  intros n doc Hn Hdoc. apply lookup_lt_Some in Hdoc. lia.
Qed.

Lemma advances_trans d Asked Billed w1 w2 w3 :
  advances d Asked Billed w1 w2 -> advances d Asked Billed w2 w3 ->
  advances d Asked Billed w1 w3.
Proof.
  intros (Hc1 & Hcu1 & Hlen1 & Hpre1 & E1 & L1 & HE1 & HL1 & FE1 & FL1 & Hf1 & Hd1)
         (Hc2 & Hcu2 & Hlen2 & Hpre2 & E2 & L2 & HE2 & HL2 & FE2 & FL2 & Hf2 & Hd2).
  split; [congruence|]. split; [congruence|]. split; [lia|].
  split. { intros n Hn. rewrite Hpre2 by lia. by apply Hpre1. }
  exists (E1 ++ E2), (L1 ++ L2).
  split; [by rewrite HE2, HE1, app_assoc|].
  split; [by rewrite HL2, HL1, app_assoc|].
  split.
  { apply Forall_app. split.
    - eapply Forall_impl; [exact FE1|]. unfold in_range. intros e [? ?]. split; [lia|done].
    - eapply Forall_impl; [exact FE2|]. unfold in_range. intros e [? ?]. split; [lia|done]. }
  split.
  { apply Forall_app. split.
    - eapply Forall_impl; [exact FL1|]. intros c [Hr ?]. split; [|done].
      eapply Forall_impl; [exact Hr|]. unfold in_range. intros; lia.
    - eapply Forall_impl; [exact FL2|]. intros c [Hr ?]. split; [|done].
      eapply Forall_impl; [exact Hr|]. unfold in_range. intros; lia. }
  split; [by apply follows_app|].
  intros n doc Hn Hdoc.
  destruct (decide (n < length (Document_objects w2))) as [Hlt|Hge].
  - rewrite Hpre2 in Hdoc by done.
    destruct (Hd1 n doc Hn Hdoc) as (Hdue & Hrow & Hiss & e & He & Hen).
    repeat split; try done.
    + rewrite filter_app, Hiss.
      rewrite (filter_issue_out_of_range _ _ _ _ _ FL2), app_nil_r; [done|].
      unfold in_range. lia.
    + exists e. split; [|done]. apply elem_of_app. by left.
  - destruct (Hd2 n doc ltac:(lia) Hdoc) as (Hdue & Hrow & Hiss & e & He & Hen).
    repeat split; try done.
    + rewrite filter_app, Hiss.
      rewrite (filter_issue_out_of_range _ _ _ _ _ FL1); [done|].
      unfold in_range. lia.
    + exists e. split; [|done]. apply elem_of_app. by right.
Qed.

(** *** Facts about the calls of one charge and of one issuance *)

Lemma filter_issue_charge_calls n d sub pk :
  filter (fun c => c = IssueDocument n) (charge_calls d sub pk) = [].
Proof.
  unfold charge_calls. destruct (String.eqb (state sub) "canceled");
    repeat (rewrite filter_cons; case_decide; [done|]); done.
Qed.

Lemma filter_issue_issue_calls n prov pk :
  filter (fun c => c = IssueDocument n) (issue_calls prov pk) =
  if decide (pk = n) then issue_calls prov n ≫= (fun c =>
       match c with IssueDocument _ => [c] | _ => [] end)
  else [].
Proof.
  unfold issue_calls.
  destruct (String.eqb (default_document_state prov) "issued"); simpl.
  - rewrite filter_cons. case_decide as H1.
    + inversion H1; subst. rewrite decide_True by done.
      rewrite filter_cons. case_decide; done.
    + rewrite decide_False by congruence.
      rewrite filter_cons. case_decide; done.
  - by case_decide.
Qed.

Lemma filter_issue_issue_calls_same prov n :
  filter (fun c => c = IssueDocument n) (issue_calls prov n) =
  if String.eqb (default_document_state prov) "issued"
  then [IssueDocument n] else [].
Proof.
  rewrite filter_issue_issue_calls, decide_True by done.
  unfold issue_calls. by destruct (String.eqb _ _).
Qed.

Lemma charge_calls_ok d Asked Billed a b sub pk :
  in_range a b pk -> Billed sub ->
  Forall (fun c => Forall (in_range a b) (call_documents c)
                   /\ call_ok d Asked Billed c) (charge_calls d sub pk).
Proof.
  intros Hr Hb. unfold charge_calls.
  destruct (String.eqb (state sub) "canceled");
    repeat (apply Forall_cons; split; [simpl; by auto|]); constructor.
Qed.

Lemma issue_calls_ok d Asked Billed a b prov pk :
  in_range a b pk ->
  Forall (fun c => Forall (in_range a b) (call_documents c)
                   /\ call_ok d Asked Billed c) (issue_calls prov pk).
Proof.
  intros Hr. unfold issue_calls.
  destruct (String.eqb (default_document_state prov) "issued");
    repeat (apply Forall_cons; split; [simpl; by auto|]); constructor.
Qed.

Lemma finished_row_provider prov cu due :
  document_provider (finished_row prov cu due) = prov.
Proof. unfold finished_row. by destruct (String.eqb _ _). Qed.

Lemma finished_row_customer prov cu due :
  document_customer (finished_row prov cu due) = cu.
Proof. unfold finished_row. by destruct (String.eqb _ _). Qed.

Lemma finished_row_due_date prov cu due :
  due_date (finished_row prov cu due) = due.
Proof. unfold finished_row. by destruct (String.eqb _ _). Qed.

Lemma finished_row_state prov cu due :
  document_state (finished_row prov cu due) =
  if String.eqb (default_document_state prov) "issued"
  then "issued" else "draft".
Proof. unfold finished_row. by destruct (String.eqb _ _). Qed.

(** *** Steps that only talk *)

Lemma log_advances d Asked Billed c w :
  call_documents c = [] -> call_ok d Asked Billed c -> follows Anything [c] ->
  advances d Asked Billed w (fst (log c w)).
Proof.
  intros Hdocs Hok Hf. simpl.
  do 4 (split; [done|]). exists [], [c]. rewrite app_nil_r.
  do 3 (split; [done|]).
  split. { repeat constructor; [by rewrite Hdocs|done]. }
  split; [done|].
  intros n doc Hn Hdoc. apply lookup_lt_Some in Hdoc. simpl in *. lia.
Qed.

Lemma asked_advances d (Asked Billed : Subscription -> Prop) sub w :
  Asked sub ->
  advances d Asked Billed w (fst (log (ShouldBeBilled sub d) w)).
Proof. intros. by apply log_advances. Qed.

(** *** The path without consolidated billing *)

Lemma separate_body_advances (Asked Billed : Subscription -> Prop) cu d sub w :
  Asked sub -> (should_be_billed sub d = true -> Billed sub) ->
  advances d Asked Billed w (fst (separate_body cu d sub tt w)).
Proof.
  intros Ha Hb.
  destruct (should_be_billed sub d) eqn:Hsbb.
  2: { rewrite separate_body_skip by done. by apply asked_advances. }
  destruct (due_date_for d cu) as [e|due] eqn:Hdue.
  { rewrite (separate_body_raise _ _ _ _ e) by done. by apply asked_advances. }
  destruct (separate_body_bill cu d sub w due Hsbb Hdue)
    as (w' & -> & Hclock & Hcu & _ & Hdocs & Hents & Hcalls).
  simpl. set (n := length (Document_objects w)) in *.
  assert (Hr : in_range n (length (Document_objects w')) n).
  { rewrite Hdocs, length_app. unfold in_range. simpl. lia. }
  do 2 (split; [done|]).
  split. { rewrite Hdocs, length_app. lia. }
  split. { intros k Hk. rewrite Hdocs. by apply lookup_app_l. }
  eexists _, _. split; [exact Hents|]. split; [exact Hcalls|].
  split.
  { apply Forall_cons. split; [|constructor]. split; [exact Hr|].
    split; [done|]. split; [done|]. by apply Hb. }
  split.
  { apply Forall_cons. split; [by split|].
    apply Forall_cons. split; [split; [|done]; simpl; by auto|].
    apply Forall_app. split; [apply charge_calls_ok; auto|by apply issue_calls_ok]. }
  split.
  { change (follows Anything
              (charge_calls d sub n ++ issue_calls (provider (plan sub)) n)).
    apply follows_app; [apply charge_calls_follows|apply issue_calls_follows]. }
  intros k doc Hk Hdoc. rewrite Hdocs in Hdoc.
  assert (k = n) as ->.
  { apply lookup_lt_Some in Hdoc. rewrite length_app in Hdoc. simpl in Hdoc.
    unfold n. lia. }
  rewrite lookup_app_r in Hdoc by done. rewrite Nat.sub_diag in Hdoc.
  simpl in Hdoc. injection Hdoc as <-.
  unfold document_ok.
  rewrite finished_row_provider, finished_row_customer, finished_row_due_date.
  split; [done|]. split; [done|]. split.
  - rewrite filter_cons. case_decide; [done|].
    rewrite filter_cons. case_decide; [done|].
    by rewrite filter_app, filter_issue_charge_calls, filter_issue_issue_calls_same.
  - eexists. split; [apply list_elem_of_singleton; reflexivity|done].
Qed.

Lemma active_or_canceled_listed cu w sub :
  sub ∈ active_or_canceled cu w ->
  state_listed sub /\ customer_pk (customer sub) = customer_pk cu.
Proof.
  unfold active_or_canceled. rewrite list_elem_of_In, filter_In.
  intros [_ H]. apply andb_prop in H as [H1 H2].
  apply Nat.eqb_eq in H1. split; [|done].
  simpl in H2. rewrite orb_false_r in H2. apply orb_prop in H2.
  unfold state_listed. destruct H2 as [H2|H2]; apply String.eqb_eq in H2; auto.
Qed.

Lemma separate_loop_advances (Asked Billed : Subscription -> Prop) cu d subs w :
  (forall sub, sub ∈ subs -> Asked sub) ->
  (forall sub, sub ∈ subs -> should_be_billed sub d = true -> Billed sub) ->
  match for_in subs (separate_body cu d) tt w with
  | (w', Returned _) => advances d Asked Billed w w'
  | (w', Raised _) => advances d Asked Billed w w' /\ stopped d Billed w w'
  end.
Proof.
  intros Ha Hb.
  apply (for_in_rule (fun _ _ w1 => advances d Asked Billed w w1)
           (fun _ w1 => advances d Asked Billed w w1 /\ stopped d Billed w w1)).
  { apply advances_refl. }
  intros pre sub post [] w1 Hsubs Hinv.
  assert (Hin : sub ∈ subs).
  { rewrite Hsubs, elem_of_app, elem_of_cons. auto. }
  pose proof (separate_body_advances Asked Billed cu d sub w1 (Ha _ Hin)
                (Hb _ Hin)) as Hstep.
  destruct (separate_body cu d sub tt w1) as [w2 [[]|e]] eqn:Hbody; simpl in Hstep.
  { by eapply advances_trans. }
  split; [by eapply advances_trans|].
  destruct (should_be_billed sub d) eqn:Hsbb.
  2: { by rewrite separate_body_skip in Hbody. }
  destruct (due_date_for d cu) as [e'|due] eqn:Hdue.
  2: { destruct (separate_body_bill cu d sub w1 due Hsbb Hdue) as (? & Heq & _).
       congruence. }
  rewrite (separate_body_raise _ _ _ _ e') in Hbody by done.
  simplify_eq.
  destruct Hinv as (_ & _ & _ & _ & E & L & _ & HL & _).
  exists L, sub. simpl. rewrite HL, <- app_assoc. split; [done|]. by apply Hb.
Qed.

Lemma due_for_billing_snoc d pre sub :
  due_for_billing d (pre ++ [sub]) =
  due_for_billing d pre ++ (if should_be_billed sub d then [sub] else []).
Proof.
  unfold due_for_billing. rewrite List.filter_app. simpl.
  by destruct (should_be_billed sub d).
Qed.

Lemma elem_of_due_for_billing d subs sub :
  sub ∈ due_for_billing d subs <-> sub ∈ subs /\ should_be_billed sub d = true.
Proof.
  unfold due_for_billing. by rewrite list_elem_of_In, filter_In, list_elem_of_In.
Qed.

Lemma separate_loop_exact cu d due subs w :
  due_date_for d cu = inr due ->
  exists w',
    for_in subs (separate_body cu d) tt w = (w', Returned tt) /\
    Document_objects w' =
      Document_objects w
      ++ List.map (fun s => finished_row (provider (plan s)) cu due)
           (due_for_billing d subs) /\
    DocumentEntry_objects w' =
      DocumentEntry_objects w
      ++ imap (fun i s => charge_entry d s (length (Document_objects w) + i))
           (due_for_billing d subs).
Proof.
  intros Hdue.
  assert (Hrun :
    match for_in subs (separate_body cu d) tt w with
    | (w', Returned _) =>
        Document_objects w' =
          Document_objects w
          ++ List.map (fun s => finished_row (provider (plan s)) cu due)
               (due_for_billing d subs) /\
        DocumentEntry_objects w' =
          DocumentEntry_objects w
          ++ imap (fun i s => charge_entry d s (length (Document_objects w) + i))
               (due_for_billing d subs)
    | (_, Raised _) => False
    end).
  { apply (for_in_rule
      (fun pre (_ : unit) w' =>
         Document_objects w' =
           Document_objects w
           ++ List.map (fun s => finished_row (provider (plan s)) cu due)
                (due_for_billing d pre) /\
         DocumentEntry_objects w' =
           DocumentEntry_objects w
           ++ imap (fun i s => charge_entry d s (length (Document_objects w) + i))
                (due_for_billing d pre))
      (fun _ _ => False)).
    { simpl. by rewrite !app_nil_r. }
    intros pre sub post [] w1 _ [Hd He].
    rewrite due_for_billing_snoc.
    destruct (should_be_billed sub d) eqn:Hsbb.
    - destruct (separate_body_bill cu d sub w1 due Hsbb Hdue)
        as (w2 & -> & _ & _ & _ & Hd2 & He2 & _).
      rewrite Hd2, He2, Hd, He, List.map_app, imap_app, !length_app,
        length_map, <- !app_assoc.
      simpl. rewrite Nat.add_0_r. done.
    - rewrite separate_body_skip by done. simpl. by rewrite !app_nil_r. }
  destruct (for_in subs (separate_body cu d) tt w) as [w' [[]|e]]; [|done].
  by exists w'.
Qed.

(** *** The path with consolidated billing: one step of the loop *)

Lemma consolidated_body_skip cu d sub cache w :
  should_be_billed sub d = false ->
  consolidated_body cu d sub cache w
  = (fst (log (ShouldBeBilled sub d) w), Returned cache).
Proof.
  intros Hb. unfold consolidated_body, should_be_billed_at, bind, log, ret.
  simpl. by rewrite Hb.
Qed.

Lemma consolidated_body_raise cu d sub cache w e :
  should_be_billed sub d = true -> cache !! provider_key sub = None ->
  due_date_for d cu = inl e ->
  consolidated_body cu d sub cache w
  = (fst (log (ShouldBeBilled sub d) w), Raised e).
Proof.
  intros Hb Hc Hd. unfold consolidated_body, should_be_billed_at, bind, log, ret.
  simpl. rewrite Hb. simpl. unfold provider_key in Hc. rewrite Hc.
  unfold bind. rewrite create_document_eq, Hd. done.
Qed.

Lemma consolidated_body_hit cu d sub cache w prov doc :
  should_be_billed sub d = true ->
  cache !! provider_key sub = Some (prov, doc) ->
  exists w',
    consolidated_body cu d sub cache w = (w', Returned cache) /\
    clock_reads w' = clock_reads w /\
    Customer_objects w' = Customer_objects w /\
    Subscription_objects w' = saved_subscriptions sub (Subscription_objects w) /\
    Document_objects w' = Document_objects w /\
    DocumentEntry_objects w' =
      DocumentEntry_objects w ++ [charge_entry d sub (document_pk doc)] /\
    calls w' =
      calls w ++ ShouldBeBilled sub d :: charge_calls d sub (document_pk doc).
Proof.
  intros Hb Hc. unfold consolidated_body, should_be_billed_at, bind, log, ret.
  simpl. rewrite Hb. simpl. unfold provider_key in Hc. rewrite Hc.
  unfold saved_subscriptions, charge_calls, subscription_end,
    subscription_save, add_total_value_to_document, bind, log, ret.
  simpl.
  destruct (String.eqb (state sub) "canceled");
    simpl; eexists; (split; [reflexivity|]); simpl;
    rewrite <- ?app_assoc; simpl; repeat split; reflexivity.
Qed.

Lemma consolidated_body_miss cu d sub cache w due :
  should_be_billed sub d = true ->
  cache !! provider_key sub = None ->
  due_date_for d cu = inr due ->
  exists w',
    consolidated_body cu d sub cache w
    = (w', Returned
             (<[provider_key sub :=
                  (provider (plan sub),
                   {| document_pk := length (Document_objects w);
                      document_fields :=
                        draft_row (provider (plan sub)) cu due |})]> cache)) /\
    clock_reads w' = clock_reads w /\
    Customer_objects w' = Customer_objects w /\
    Subscription_objects w' = saved_subscriptions sub (Subscription_objects w) /\
    Document_objects w' =
      Document_objects w ++ [draft_row (provider (plan sub)) cu due] /\
    DocumentEntry_objects w' =
      DocumentEntry_objects w
      ++ [charge_entry d sub (length (Document_objects w))] /\
    calls w' =
      calls w
      ++ ShouldBeBilled sub d :: CreateDocument (length (Document_objects w))
         :: charge_calls d sub (length (Document_objects w)).
Proof.
  intros Hb Hc Hd. unfold consolidated_body, should_be_billed_at, bind, log, ret.
  simpl. rewrite Hb. simpl. unfold provider_key in Hc. rewrite Hc.
  unfold bind. rewrite create_document_eq, Hd.
  unfold saved_subscriptions, charge_calls, subscription_end,
    subscription_save, add_total_value_to_document, bind, log, ret, provider_key.
  simpl.
  destruct (String.eqb (state sub) "canceled");
    simpl; eexists; (split; [reflexivity|]); simpl;
    rewrite <- ?app_assoc; simpl; repeat split; reflexivity.
Qed.

Lemma loop_calls_weaken d Asked Billed a b b' (L : list Call) :
  b <= b' ->
  Forall (loop_call_ok d Asked Billed a b) L ->
  Forall (loop_call_ok d Asked Billed a b') L.
Proof.
  intros Hb HL. eapply Forall_impl; [exact HL|].
  intros c (Hr & ? & ?). split; [|done].
  eapply Forall_impl; [exact Hr|]. unfold in_range. intros; lia.
Qed.

Lemma charge_calls_loop_ok d Asked Billed a b sub pk :
  in_range a b pk -> Billed sub ->
  Forall (loop_call_ok d Asked Billed a b) (charge_calls d sub pk).
Proof.
  intros Hr Hb. unfold charge_calls, loop_call_ok.
  destruct (String.eqb (state sub) "canceled");
    repeat (apply Forall_cons; split; [simpl; by auto|]); constructor.
Qed.

Lemma consolidated_step Asked Billed cu d due w0 pre sub cache w :
  due_date_for d cu = inr due ->
  Asked sub -> (should_be_billed sub d = true -> Billed sub) ->
  consolidated_inv should_be_billed Asked Billed cu d due w0 pre cache w ->
  exists w' cache',
    consolidated_body cu d sub cache w = (w', Returned cache') /\
    consolidated_inv should_be_billed Asked Billed cu d due w0 (pre ++ [sub])
      cache' w'.
Proof.
  intros Hdue Ha Hb
    (Hclock & Hcu & (D & HD & Hlen & Hcache & Hrows) & Hdom & Hents
     & L & HL & FL & Hf).
  pose proof (due_for_billing_snoc d pre sub) as Hsnoc.
  unfold consolidated_inv.
  destruct (should_be_billed sub d) eqn:Hsbb.
  2: { (* not due for billing: only the question is logged *)
    rewrite consolidated_body_skip by done.
    eexists _, _. split; [reflexivity|]. rewrite Hsnoc. simpl.
    rewrite app_nil_r.
    do 2 (split; [done|]). split; [by exists D|]. do 2 (split; [done|]).
    exists (L ++ [ShouldBeBilled sub d]).
    split; [by rewrite HL, app_assoc|]. split.
    - apply Forall_app. split; [done|].
      repeat constructor; done.
    - apply follows_app; done. }
  specialize (Hb eq_refl).
  destruct (cache !! provider_key sub) as [[prov doc]|] eqn:Hlook.
  - (* the provider already has its document *)
    destruct (consolidated_body_hit cu d sub cache w prov doc Hsbb Hlook)
      as (w' & -> & Hclock' & Hcu' & _ & Hdocs' & Hents' & Hcalls').
    destruct (Hcache _ _ _ Hlook) as (Hk & Hfields & Hge & HDlook).
    exists w', cache. split; [done|]. rewrite Hsnoc.
    split; [congruence|]. split; [congruence|].
    split. { exists D. by rewrite Hdocs'. }
    split.
    { rewrite fmap_app, list_to_set_app_L, <- Hdom. simpl.
      rewrite union_empty_r_L, (comm_L (∪)).
      symmetry. apply subseteq_union_1_L, singleton_subseteq_l, elem_of_dom.
      eauto. }
    split.
    { rewrite Hents', Hents, fmap_app, <- app_assoc. simpl.
      unfold cached_pk at 3. by rewrite Hlook. }
    exists (L ++ ShouldBeBilled sub d :: charge_calls d sub (document_pk doc)).
    split; [by rewrite Hcalls', HL, app_assoc|].
    rewrite Hdocs'. split.
    + apply Forall_app. split; [done|].
      apply Forall_cons. split; [repeat split; done|].
      apply charge_calls_loop_ok; [|done].
      apply lookup_lt_Some in HDlook. rewrite HD, length_app.
      unfold in_range. lia.
    + apply follows_app; [done|]. apply charge_calls_follows.
  - (* a document is created for the provider *)
    destruct (consolidated_body_miss cu d sub cache w due Hsbb Hlook Hdue)
      as (w' & -> & Hclock' & Hcu' & _ & Hdocs' & Hents' & Hcalls').
    set (n := length (Document_objects w)) in *.
    set (prov := provider (plan sub)) in *.
    assert (Hn : n = length (Document_objects w0) + length D).
    { unfold n. by rewrite HD, length_app. }
    eexists w', _. split; [done|]. rewrite Hsnoc.
    split; [congruence|]. split; [congruence|].
    split.
    { exists (D ++ [draft_row prov cu due]).
      split; [by rewrite Hdocs', HD, app_assoc|].
      split. { rewrite length_app, map_size_insert_None by done. simpl. lia. }
      split.
      - intros k prov' doc' Hk.
        destruct (decide (k = provider_key sub)) as [->|Hne].
        + rewrite lookup_insert_eq in Hk. simplify_eq. simpl.
          split; [done|]. split; [done|]. split; [lia|].
          rewrite Hn, Nat.add_comm, Nat.add_sub.
          rewrite lookup_app_r by done. by rewrite Nat.sub_diag.
        + rewrite lookup_insert_ne in Hk by done.
          destruct (Hcache _ _ _ Hk) as (? & ? & ? & HDl).
          do 3 (split; [done|]).
          rewrite lookup_app_l; [done|]. by apply lookup_lt_Some in HDl.
      - intros i row Hi.
        destruct (decide (i < length D)) as [Hlt|Hge].
        + rewrite lookup_app_l in Hi by done.
          destruct (Hrows _ _ Hi) as (prov' & doc' & Hl' & Hpk').
          exists prov', doc'. split; [|done].
          rewrite lookup_insert_ne; [done|]. intros Heq.
          rewrite <- Heq in Hl'. congruence.
        + assert (i = length D) as ->.
          { apply lookup_lt_Some in Hi. rewrite length_app in Hi.
            simpl in Hi. lia. }
          rewrite lookup_app_r, Nat.sub_diag in Hi by done.
          simpl in Hi. simplify_eq. simpl.
          eexists _, _. split; [apply lookup_insert_eq|]. simpl. done. }
    split.
    { rewrite dom_insert_L, fmap_app, list_to_set_app_L, <- Hdom. simpl.
      rewrite union_empty_r_L. apply (comm_L (∪)). }
    split.
    { rewrite Hents', Hents, fmap_app, <- app_assoc. simpl.
      f_equal. f_equal.
      - apply list_fmap_ext. intros i s Hs.
        unfold cached_pk.
        rewrite lookup_insert_ne; [done|]. intros Heq.
        assert (provider_key s ∈ dom cache) as Hin.
        { rewrite Hdom. apply elem_of_list_to_set, list_elem_of_fmap.
          exists s. split; [done|]. by eapply list_elem_of_lookup_2. }
        apply elem_of_dom in Hin as [? Hin]. congruence.
      - unfold cached_pk. by rewrite lookup_insert_eq. }
    exists (L ++ ShouldBeBilled sub d :: CreateDocument n :: charge_calls d sub n).
    split; [by rewrite Hcalls', HL, app_assoc|].
    assert (Hr : in_range (length (Document_objects w0))
                   (length (Document_objects w')) n).
    { rewrite Hdocs', length_app. unfold in_range. simpl. fold n. lia. }
    split.
    + apply Forall_app. split.
      { eapply loop_calls_weaken; [|exact FL]. rewrite Hdocs', length_app. lia. }
      apply Forall_cons. split; [repeat split; done|].
      apply Forall_cons. split.
      { split; [simpl; by auto|]. split; done. }
      by apply charge_calls_loop_ok.
    + apply follows_app; [done|]. apply charge_calls_follows.
Qed.

Lemma consolidated_loop_ok Asked Billed cu d due subs w0 :
  due_date_for d cu = inr due ->
  (forall sub, sub ∈ subs -> Asked sub) ->
  (forall sub, sub ∈ subs -> should_be_billed sub d = true -> Billed sub) ->
  exists w1 cache,
    for_in subs (consolidated_body cu d) ∅ w0 = (w1, Returned cache) /\
    consolidated_inv should_be_billed Asked Billed cu d due w0 subs cache w1.
Proof.
  intros Hdue Ha Hb.
  pose proof (for_in_rule
    (consolidated_inv should_be_billed Asked Billed cu d due w0)
    (fun _ _ => False) subs (consolidated_body cu d) ∅ w0) as Hrule.
  assert (Hrun :
    match for_in subs (consolidated_body cu d) ∅ w0 with
    | (w', Returned cache) =>
        consolidated_inv should_be_billed Asked Billed cu d due w0 subs cache w'
    | (_, Raised _) => False
    end).
  { apply Hrule; clear Hrule.
    - do 2 (split; [done|]). split.
      + exists []. rewrite app_nil_r. split; [done|]. split; [done|].
        split; [intros k prov doc Hk; by rewrite lookup_empty in Hk|].
        intros i row Hi. by rewrite lookup_nil in Hi.
      + split; [by rewrite dom_empty_L|]. split; [by rewrite app_nil_r|].
        exists []. rewrite app_nil_r. split; [done|]. split; [constructor|done].
    - intros pre sub post cache w Hsubs Hinv.
      assert (Hin : sub ∈ subs).
      { rewrite Hsubs, elem_of_app, elem_of_cons. auto. }
      destruct (consolidated_step Asked Billed cu d due w0 pre sub cache w
                  Hdue (Ha _ Hin) (Hb _ Hin) Hinv) as (w' & cache' & -> & H').
      done. }
  destruct (for_in subs (consolidated_body cu d) ∅ w0) as [w1 [cache|e]]; [|done].
  by exists w1, cache.
Qed.

(** *** The path with consolidated billing: issuing the cached documents *)

Lemma issue_loop_eq items w :
  exists w',
    for_in items issue_body tt w = (w', Returned tt) /\
    clock_reads w' = clock_reads w /\
    Customer_objects w' = Customer_objects w /\
    Subscription_objects w' = Subscription_objects w /\
    DocumentEntry_objects w' = DocumentEntry_objects w /\
    Document_objects w' = issue_rows items (Document_objects w) /\
    calls w' = calls w ++ issue_loop_calls items.
Proof.
  revert w. induction items as [|[k [prov doc]] items IH]; intros w.
  - exists w. simpl. by rewrite app_nil_r.
  - change (issue_loop_calls ((k, (prov, doc)) :: items)) with
      (issue_calls prov (document_pk doc) ++ issue_loop_calls items).
    unfold issue_rows, issue_calls. simpl. unfold bind, issue_body at 1. simpl.
    destruct (String.eqb (default_document_state prov) "issued") eqn:Hi.
    + unfold document_issue, document_save, bind, log, ret. simpl.
      match goal with |- context [for_in items issue_body tt ?w1] =>
        destruct (IH w1) as (w' & -> & ? & ? & ? & ? & Hd & Hc) end.
      exists w'. split; [done|]. simpl in *.
      do 5 (split; [done|]). by rewrite Hc, <- !app_assoc.
    + unfold ret.
      destruct (IH w) as (w' & -> & ? & ? & ? & ? & Hd & Hc).
      exists w'. split; [done|]. do 5 (split; [done|]). done.
Qed.

Lemma issue_rows_length items rows :
  length (issue_rows items rows) = length rows.
Proof.
  revert rows. induction items as [|item items IH]; intros rows; [done|].
  unfold issue_rows in *. simpl. rewrite IH.
  destruct (String.eqb _ _); [apply length_insert|done].
Qed.

Lemma issue_rows_other items rows n :
  (forall item, item ∈ items ->
     String.eqb (default_document_state (item_provider item)) "issued" = true ->
     item_pk item <> n) ->
  issue_rows items rows !! n = rows !! n.
Proof.
  revert rows. induction items as [|item items IH]; intros rows Hne; [done|].
  unfold issue_rows in *. simpl. rewrite IH.
  - destruct (String.eqb _ _) eqn:Hi; [|done].
    apply list_lookup_insert_ne. apply Hne; [apply elem_of_cons; auto|done].
  - intros it Hit. apply Hne. apply elem_of_cons. auto.
Qed.

Lemma issue_rows_hit items rows item :
  NoDup (item_pk <$> items) -> item ∈ items ->
  String.eqb (default_document_state (item_provider item)) "issued" = true ->
  item_pk item < length rows ->
  issue_rows items rows !! item_pk item
  = Some (document_fields (issued (snd (snd item)))).
Proof.
  revert rows. induction items as [|a items IH]; intros rows Hnd Hin Hi Hlt.
  { by apply elem_of_nil in Hin. }
  rewrite fmap_cons in Hnd. apply NoDup_cons in Hnd as [Hna Hnd].
  apply elem_of_cons in Hin as [->|Hin].
  - change (issue_rows (a :: items) rows) with
      (issue_rows items
         (if String.eqb (default_document_state (item_provider a)) "issued"
          then <[item_pk a := document_fields (issued (snd (snd a)))]> rows
          else rows)).
    rewrite Hi, issue_rows_other.
    + by apply list_lookup_insert_eq.
    + intros it Hit _ Heq. apply Hna. rewrite <- Heq.
      apply list_elem_of_fmap. by exists it.
  - change (issue_rows (a :: items) rows) with
      (issue_rows items
         (if String.eqb (default_document_state (item_provider a)) "issued"
          then <[item_pk a := document_fields (issued (snd (snd a)))]> rows
          else rows)).
    apply IH; try done.
    destruct (String.eqb (default_document_state (item_provider a)) "issued");
      [by rewrite length_insert|done].
Qed.

Lemma filter_issue_loop_none items n :
  (forall item, item ∈ items -> item_pk item = n ->
     String.eqb (default_document_state (item_provider item)) "issued" = false) ->
  filter (fun c => c = IssueDocument n) (issue_loop_calls items) = [].
Proof.
  induction items as [|a items IH]; intros Hno; [done|].
  change (issue_loop_calls (a :: items)) with
    (issue_calls (item_provider a) (item_pk a) ++ issue_loop_calls items).
  rewrite filter_app, IH, app_nil_r.
  - rewrite filter_issue_issue_calls. case_decide as Hpk; [|done].
    unfold issue_calls. rewrite <- Hpk at 1.
    rewrite (Hno a); [done|apply elem_of_cons; auto|done].
  - intros it Hit. apply Hno. apply elem_of_cons. auto.
Qed.

Lemma filter_issue_loop_one items item :
  NoDup (item_pk <$> items) -> item ∈ items ->
  String.eqb (default_document_state (item_provider item)) "issued" = true ->
  filter (fun c => c = IssueDocument (item_pk item)) (issue_loop_calls items)
  = [IssueDocument (item_pk item)].
Proof.
  induction items as [|a items IH]; intros Hnd Hin Hi.
  { by apply elem_of_nil in Hin. }
  rewrite fmap_cons in Hnd. apply NoDup_cons in Hnd as [Hna Hnd].
  change (issue_loop_calls (a :: items)) with
    (issue_calls (item_provider a) (item_pk a) ++ issue_loop_calls items).
  rewrite filter_app.
  destruct (decide (item_pk a = item_pk item)) as [Heq|Hne].
  - assert (item ∉ items) as Hni.
    { intros Hit. apply Hna. rewrite Heq. apply list_elem_of_fmap. by exists item. }
    apply elem_of_cons in Hin as [->|Hin]; [|done].
    rewrite filter_issue_issue_calls_same, Hi.
    rewrite filter_issue_loop_none; [done|].
    intros it Hit Hpk. exfalso. apply Hna. rewrite <- Hpk.
    apply list_elem_of_fmap. by exists it.
  - apply elem_of_cons in Hin as [->|Hin]; [done|].
    rewrite filter_issue_issue_calls, decide_False by done.
    by apply IH.
Qed.

Lemma issue_loop_follows items : follows Anything (issue_loop_calls items).
Proof.
  induction items as [|a items IH]; [done|].
  change (issue_loop_calls (a :: items)) with
    (issue_calls (item_provider a) (item_pk a) ++ issue_loop_calls items).
  apply follows_app; [apply issue_calls_follows|done].
Qed.

Lemma issue_loop_ok d Asked Billed a b items :
  (forall item, item ∈ items -> in_range a b (item_pk item)) ->
  Forall (fun c => Forall (in_range a b) (call_documents c)
                   /\ call_ok d Asked Billed c) (issue_loop_calls items).
Proof.
  induction items as [|it items IH]; intros Hr; [constructor|].
  change (issue_loop_calls (it :: items)) with
    (issue_calls (item_provider it) (item_pk it) ++ issue_loop_calls items).
  apply Forall_app. split.
  - apply issue_calls_ok, Hr, elem_of_cons. auto.
  - apply IH. intros it' Hit. apply Hr, elem_of_cons. auto.
Qed.

(** *** The path with consolidated billing as a whole *)

Lemma consolidated_path_eq cu d w0 :
  _generate_for_user_with_consolidated_billing should_be_billed cu d w0 =
  match for_in (active_or_canceled cu w0) (consolidated_body cu d) ∅ w0 with
  | (w1, Returned cache) => for_in (map_to_list cache) issue_body tt w1
  | (w1, Raised e) => (w1, Raised e)
  end.
Proof. reflexivity. Qed.

Lemma cache_items Asked Billed cu d due w0 subs cache w1 :
  consolidated_inv should_be_billed Asked Billed cu d due w0 subs cache w1 ->
  NoDup (item_pk <$> map_to_list cache) /\
  (forall item, item ∈ map_to_list cache ->
     in_range (length (Document_objects w0)) (length (Document_objects w1))
       (item_pk item) /\
     document_fields (snd (snd item)) = draft_row (item_provider item) cu due /\
     Document_objects w1 !! item_pk item
     = Some (draft_row (item_provider item) cu due)) /\
  (forall n row, length (Document_objects w0) <= n ->
     Document_objects w1 !! n = Some row ->
     exists item, item ∈ map_to_list cache /\ item_pk item = n /\
                  fst item = provider_pk (item_provider item) /\
                  row = draft_row (item_provider item) cu due).
Proof.
  intros (_ & _ & (D & HD & Hlen & Hcache & Hrows) & _).
  assert (Hitem : forall item, item ∈ map_to_list cache ->
            fst item = provider_pk (item_provider item) /\
            document_fields (snd (snd item))
            = draft_row (item_provider item) cu due /\
            length (Document_objects w0) <= item_pk item /\
            D !! (item_pk item - length (Document_objects w0))
            = Some (draft_row (item_provider item) cu due)).
  { intros [k [prov doc]] Hin. apply elem_of_map_to_list in Hin.
    by apply Hcache. }
  split; [|split].
  - apply NoDup_fmap_2_strong; [|apply NoDup_map_to_list].
    intros [k1 [p1 d1]] [k2 [p2 d2]] H1 H2 Heq.
    destruct (Hitem _ H1) as (Hk1 & _ & Hge1 & Hl1).
    destruct (Hitem _ H2) as (Hk2 & _ & _ & Hl2).
    unfold item_pk, item_provider in *. simpl in *.
    rewrite Heq in Hl1. rewrite Hl1 in Hl2.
    assert (p1 = p2) by (unfold draft_row in Hl2; congruence). subst p2.
    assert (k1 = k2) by congruence. subst k2.
    apply elem_of_map_to_list in H1, H2. congruence.
  - intros item Hin. destruct (Hitem _ Hin) as (_ & Hf & Hge & Hl).
    pose proof (lookup_lt_Some _ _ _ Hl) as Hlt.
    split; [|split; [done|]].
    + rewrite HD, length_app. unfold in_range. lia.
    + rewrite HD, lookup_app_r by done. done.
  - intros n row Hn Hrow. rewrite HD, lookup_app_r in Hrow by done.
    destruct (Hrows _ _ Hrow) as (prov & doc & Hl & Hpk).
    exists (provider_pk (document_provider row), (prov, doc)).
    pose proof Hl as Hin. apply elem_of_map_to_list in Hin.
    split; [done|].
    destruct (Hitem _ Hin) as (Hk & _ & _ & HDl).
    unfold item_pk, item_provider in *. simpl in *.
    split; [lia|]. split; [done|].
    rewrite Hpk, Nat.add_comm, Nat.add_sub in HDl. congruence.
Qed.

Lemma consolidated_path_ok Asked Billed cu d due w0 :
  due_date_for d cu = inr due ->
  (forall sub, sub ∈ active_or_canceled cu w0 -> Asked sub) ->
  (forall sub, sub ∈ active_or_canceled cu w0 ->
               should_be_billed sub d = true -> Billed sub) ->
  exists w1 cache w',
    for_in (active_or_canceled cu w0) (consolidated_body cu d) ∅ w0
    = (w1, Returned cache) /\
    consolidated_inv should_be_billed Asked Billed cu d due w0
      (active_or_canceled cu w0) cache w1 /\
    _generate_for_user_with_consolidated_billing should_be_billed cu d w0
    = (w', Returned tt) /\
    clock_reads w' = clock_reads w1 /\
    Customer_objects w' = Customer_objects w1 /\
    DocumentEntry_objects w' = DocumentEntry_objects w1 /\
    Document_objects w'
    = issue_rows (map_to_list cache) (Document_objects w1) /\
    calls w' = calls w1 ++ issue_loop_calls (map_to_list cache).
Proof.
  intros Hdue Ha Hb.
  destruct (consolidated_loop_ok Asked Billed cu d due _ w0 Hdue Ha Hb)
    as (w1 & cache & Hloop & Hinv).
  destruct (issue_loop_eq (map_to_list cache) w1)
    as (w' & Hpost & ? & ? & _ & ? & ? & ?).
  exists w1, cache, w'. rewrite consolidated_path_eq, Hloop. done.
Qed.

Lemma NoDup_fmap_elem_eq {A B} (f : A -> B) (l : list A) x y :
  NoDup (f <$> l) -> x ∈ l -> y ∈ l -> f x = f y -> x = y.
Proof.
  induction l as [|a l IH]; intros Hnd Hx Hy Heq.
  { by apply elem_of_nil in Hx. }
  rewrite fmap_cons in Hnd. apply NoDup_cons in Hnd as [Hna Hnd].
  apply elem_of_cons in Hx as [->|Hx]; apply elem_of_cons in Hy as [->|Hy].
  - done.
  - exfalso. apply Hna. rewrite Heq. apply list_elem_of_fmap. by exists y.
  - exfalso. apply Hna. rewrite <- Heq. apply list_elem_of_fmap. by exists x.
  - by apply IH.
Qed.

Lemma filter_issue_loop_calls_nil d Asked Billed a b n (L : list Call) :
  Forall (loop_call_ok d Asked Billed a b) L ->
  filter (fun c => c = IssueDocument n) L = [].
Proof.
  intros HL. induction HL as [|c L (_ & _ & Hc) _ IH]; [done|].
  rewrite filter_cons, IH. case_decide as Heq; [|done]. by apply Hc in Heq.
Qed.

(** The row of a cached document, once the path has run. *)
Lemma consolidated_final_row Asked Billed cu d due w0 subs cache w1 item :
  consolidated_inv should_be_billed Asked Billed cu d due w0 subs cache w1 ->
  item ∈ map_to_list cache ->
  issue_rows (map_to_list cache) (Document_objects w1) !! item_pk item
  = Some (finished_row (item_provider item) cu due).
Proof.
  intros Hinv Hin.
  destruct (cache_items _ _ _ _ _ _ _ _ _ Hinv) as (Hnd & Hitems & _).
  destruct (Hitems _ Hin) as ([_ Hlt] & Hfields & Hrow).
  unfold finished_row.
  destruct (String.eqb (default_document_state (item_provider item)) "issued")
    eqn:Hi.
  - rewrite issue_rows_hit by done. unfold issued. simpl. by rewrite Hfields.
  - rewrite issue_rows_other; [done|].
    intros it Hit Hwants Heq.
    assert (it = item) by by eapply (NoDup_fmap_elem_eq item_pk).
    congruence.
Qed.

Lemma consolidated_path_advances_ok Asked Billed cu d due w0 :
  due_date_for d cu = inr due ->
  (forall sub, sub ∈ active_or_canceled cu w0 -> Asked sub) ->
  (forall sub, sub ∈ active_or_canceled cu w0 ->
               should_be_billed sub d = true -> Billed sub) ->
  exists w',
    _generate_for_user_with_consolidated_billing should_be_billed cu d w0
    = (w', Returned tt) /\
    advances d Asked Billed w0 w'.
Proof.
  intros Hdue Ha Hb.
  destruct (consolidated_path_ok Asked Billed cu d due w0 Hdue Ha Hb)
    as (w1 & cache & w' & _ & Hinv & Hrun & Hclock & Hcu & Hents & Hdocs & Hcalls).
  exists w'. split; [done|].
  destruct (cache_items _ _ _ _ _ _ _ _ _ Hinv) as (Hnd & Hitems & Hnew).
  pose proof Hinv as
    (Hclock1 & Hcu1 & (D & HD & Hlen & Hcache & Hrows) & Hdom & Hents1
     & L & HL & FL & Hf).
  assert (Hlen' : length (Document_objects w') = length (Document_objects w1)).
  { by rewrite Hdocs, issue_rows_length. }
  split; [congruence|]. split; [congruence|].
  split. { rewrite Hlen', HD, length_app. lia. }
  split.
  { intros n Hn. rewrite Hdocs, issue_rows_other.
    - rewrite HD. by apply lookup_app_l.
    - intros it Hit _. destruct (Hitems _ Hit) as ([? _] & _). lia. }
  eexists _, (L ++ issue_loop_calls (map_to_list cache)).
  split; [by rewrite Hents, Hents1|].
  split; [by rewrite Hcalls, HL, app_assoc|].
  rewrite Hlen'. split.
  { (* the entries *)
    apply Forall_fmap, Forall_forall. intros s Hs. simpl.
    assert (Hs' : s ∈ active_or_canceled cu w0 /\ should_be_billed s d = true).
    { by apply elem_of_due_for_billing. }
    destruct Hs' as [Hs1 Hs2].
    assert (Hk : provider_key s ∈ dom cache).
    { rewrite Hdom. apply elem_of_list_to_set, list_elem_of_fmap. by exists s. }
    apply elem_of_dom in Hk as [[prov doc] Hk].
    pose proof Hk as Hin. apply elem_of_map_to_list in Hin.
    destruct (Hitems _ Hin) as (Hr & _).
    unfold cached_pk. rewrite Hk. split; [exact Hr|].
    split; [done|]. split; [done|]. by apply Hb. }
  split.
  { apply Forall_app. split.
    - eapply Forall_impl; [exact FL|]. by intros c (? & ? & _).
    - apply issue_loop_ok. intros it Hit. by destruct (Hitems _ Hit) as (? & _). }
  split; [apply follows_app; [done|apply issue_loop_follows]|].
  intros n doc Hn Hdoc.
  assert (Hlt : n < length (Document_objects w1)).
  { apply lookup_lt_Some in Hdoc. lia. }
  destruct (lookup_lt_is_Some_2 _ _ Hlt) as [row Hrow].
  destruct (Hnew _ _ Hn Hrow) as (item & Hin & Hpk & Hkey & ->).
  pose proof (consolidated_final_row _ _ _ _ _ _ _ _ _ item Hinv Hin) as Hfin.
  rewrite Hpk, <- Hdocs, Hdoc in Hfin. injection Hfin as ->.
  unfold document_ok.
  rewrite finished_row_provider, finished_row_customer, finished_row_due_date.
  split; [done|]. split; [done|]. split.
  - rewrite filter_app, (filter_issue_loop_calls_nil _ _ _ _ _ _ _ FL).
    simpl.
    destruct (String.eqb (default_document_state (item_provider item)) "issued")
      eqn:Hi.
    + rewrite <- Hpk. by apply filter_issue_loop_one.
    + apply filter_issue_loop_none. intros it Hit Heq.
      assert (it = item) by (eapply (NoDup_fmap_elem_eq item_pk); eauto; congruence).
      congruence.
  - destruct item as [k [prov dc]]. unfold item_pk, item_provider in *.
    simpl in *. apply elem_of_map_to_list in Hin.
    assert (Hk : k ∈ dom cache) by (apply elem_of_dom; eauto).
    rewrite Hdom in Hk.
    apply elem_of_list_to_set, list_elem_of_fmap in Hk as (s & Hks & Hs).
    exists (charge_entry d s (cached_pk cache s)). split.
    + apply list_elem_of_fmap. by exists s.
    + simpl. unfold cached_pk. rewrite <- Hks, Hin. done.
Qed.

Lemma stopped_trans d Asked Billed w1 w2 w3 :
  advances d Asked Billed w1 w2 -> stopped d Billed w2 w3 ->
  stopped d Billed w1 w3.
Proof.
  intros (_ & _ & _ & _ & E & L & _ & HL & _) (L' & sub & HL' & Hb).
  exists (L ++ L'), sub. by rewrite HL', HL, <- !app_assoc.
Qed.

Lemma consolidated_path_advances_overflow Asked Billed cu d e w0 :
  due_date_for d cu = inl e ->
  (forall sub, sub ∈ active_or_canceled cu w0 -> Asked sub) ->
  (forall sub, sub ∈ active_or_canceled cu w0 ->
               should_be_billed sub d = true -> Billed sub) ->
  match _generate_for_user_with_consolidated_billing should_be_billed cu d w0
  with
  | (w', Returned _) => advances d Asked Billed w0 w'
  | (w', Raised _) => advances d Asked Billed w0 w' /\ stopped d Billed w0 w'
  end.
Proof.
  intros Hdue Ha Hb. rewrite consolidated_path_eq.
  assert (Hrun :
    match for_in (active_or_canceled cu w0) (consolidated_body cu d) ∅ w0 with
    | (w1, Returned cache) => cache = ∅ /\ advances d Asked Billed w0 w1
    | (w1, Raised _) =>
        advances d Asked Billed w0 w1 /\ stopped d Billed w0 w1
    end).
  { apply (for_in_rule
      (fun _ cache w => cache = ∅ /\ advances d Asked Billed w0 w)
      (fun _ w => advances d Asked Billed w0 w /\ stopped d Billed w0 w)).
    { split; [done|apply advances_refl]. }
    intros pre sub post cache w Hsubs [-> Hinv].
    assert (Hin : sub ∈ active_or_canceled cu w0).
    { rewrite Hsubs, elem_of_app, elem_of_cons. auto. }
    destruct (should_be_billed sub d) eqn:Hsbb.
    - rewrite (consolidated_body_raise _ _ _ _ _ e) by done.
      split.
      + eapply advances_trans; [done|]. by apply asked_advances, Ha.
      + eapply stopped_trans; [done|]. exists [], sub. simpl.
        split; [done|]. by apply Hb.
    - rewrite consolidated_body_skip by done. split; [done|].
      eapply advances_trans; [done|]. by apply asked_advances, Ha. }
  destruct (for_in (active_or_canceled cu w0) (consolidated_body cu d) ∅ w0)
    as [w1 [cache|e']]; [|done].
  destruct Hrun as [-> Hadv]. by rewrite map_to_list_empty.
Qed.

(** *** One customer, and all of them *)

Local Abbreviation customer_body := (customer_body should_be_billed).

Lemma customer_body_advances d cu w :
  match customer_body d cu tt w with
  | (w', Returned _) =>
      advances d state_listed (eligible should_be_billed d) w w'
  | (w', Raised _) =>
      advances d state_listed (eligible should_be_billed d) w w' /\
      stopped d (eligible should_be_billed d) w w'
  end.
Proof.
  assert (Ha : forall sub, sub ∈ active_or_canceled cu w -> state_listed sub).
  { intros sub Hin. by apply active_or_canceled_listed in Hin as [? _]. }
  assert (Hb : forall sub, sub ∈ active_or_canceled cu w ->
                 should_be_billed sub d = true -> eligible should_be_billed d sub).
  { intros sub Hin Hsbb. split; [by apply Ha|done]. }
  unfold customer_body.
  destruct (consolidated_billing cu).
  - destruct (due_date_for d cu) as [e|due] eqn:Hdue.
    + by apply (consolidated_path_advances_overflow _ _ _ _ e).
    + destruct (consolidated_path_advances_ok _ _ cu d due w Hdue Ha Hb)
        as (w' & -> & Hadv). done.
  - apply separate_loop_advances; done.
Qed.

Lemma customers_loop_advances d customers w :
  match for_in customers (customer_body d) tt w with
  | (w', Returned _) =>
      advances d state_listed (eligible should_be_billed d) w w'
  | (w', Raised _) =>
      advances d state_listed (eligible should_be_billed d) w w' /\
      stopped d (eligible should_be_billed d) w w'
  end.
Proof.
  apply (for_in_rule
    (fun _ _ w1 => advances d state_listed (eligible should_be_billed d) w w1)
    (fun _ w1 => advances d state_listed (eligible should_be_billed d) w w1 /\
                 stopped d (eligible should_be_billed d) w w1)).
  { apply advances_refl. }
  intros pre cu post [] w1 _ Hinv.
  pose proof (customer_body_advances d cu w1) as Hstep.
  destruct (customer_body d cu tt w1) as [w2 [[]|e]].
  - by eapply advances_trans.
  - destruct Hstep as [Hadv Hstop]. split.
    + by eapply advances_trans.
    + by eapply stopped_trans.
Qed.

(** *** What the protocol of endings says about positions in the log *)






(** *** The run for a single subscription, and any run *)

Lemma single_raise sub w e :
  due_date_for (now (clock_reads w)) (customer sub) = inl e ->
  _generate_for_single_subscription_now now sub w
  = (fst (timezone_now_date now w), Raised e).
Proof.
  intros Hd. unfold _generate_for_single_subscription_now, bind. simpl.
  by rewrite create_document_eq, Hd.
Qed.

Lemma single_bill sub w due :
  due_date_for (now (clock_reads w)) (customer sub) = inr due ->
  exists w',
    _generate_for_single_subscription_now now sub w = (w', Returned tt) /\
    clock_reads w' = S (clock_reads w) /\
    Customer_objects w' = Customer_objects w /\
    Subscription_objects w' = saved_subscriptions sub (Subscription_objects w) /\
    Document_objects w' =
      Document_objects w
      ++ [finished_row (provider (plan sub)) (customer sub) due] /\
    DocumentEntry_objects w' =
      DocumentEntry_objects w
      ++ [charge_entry (now (clock_reads w)) sub (length (Document_objects w))] /\
    calls w' =
      calls w
      ++ TimezoneNow :: CreateDocument (length (Document_objects w))
         :: charge_calls (now (clock_reads w)) sub (length (Document_objects w))
         ++ issue_calls (provider (plan sub)) (length (Document_objects w)).
Proof.
  intros Hd. unfold _generate_for_single_subscription_now, bind. simpl.
  rewrite create_document_eq, Hd. simpl.
  unfold saved_subscriptions, finished_row, charge_calls, issue_calls,
    subscription_end, subscription_save, document_issue, document_save,
    add_total_value_to_document, bind, log, ret.
  simpl.
  destruct (String.eqb (state sub) "canceled");
    destruct (String.eqb (default_document_state (provider (plan sub))) "issued");
    simpl; eexists; (split; [reflexivity|]); simpl;
    rewrite <- ?app_assoc; simpl;
    repeat split; try reflexivity.
  all: rewrite insert_app_r_alt by lia; rewrite Nat.sub_diag; reflexivity.
Qed.

Lemma single_advances sub w :
  advances (now (clock_reads w)) (fun _ => False) (fun s => s = sub)
    (fst (timezone_now_date now w))
    (fst (_generate_for_single_subscription_now now sub w)).
Proof.
  destruct (due_date_for (now (clock_reads w)) (customer sub)) as [e|due] eqn:Hdue.
  { rewrite (single_raise _ _ e) by done. apply advances_refl. }
  destruct (single_bill sub w due Hdue)
    as (w' & -> & Hclock & Hcu & _ & Hdocs & Hents & Hcalls).
  unfold advances. simpl. set (n := length (Document_objects w)) in *.
  set (d := now (clock_reads w)) in *.
  assert (Hr : in_range n (length (Document_objects w')) n).
  { rewrite Hdocs, length_app. unfold in_range. simpl. lia. }
  do 2 (split; [done|]).
  split. { rewrite Hdocs, length_app. lia. }
  split. { intros k Hk. rewrite Hdocs. by apply lookup_app_l. }
  exists [charge_entry d sub n],
    (CreateDocument n :: charge_calls d sub n
       ++ issue_calls (provider (plan sub)) n).
  split; [exact Hents|]. split; [by rewrite Hcalls, <- app_assoc|].
  split. { apply Forall_cons. split; [|constructor]. by split. }
  split.
  { apply Forall_cons. split; [split; [|done]; simpl; by auto|].
    apply Forall_app. split; [apply charge_calls_ok; auto|by apply issue_calls_ok]. }
  split.
  { change (follows Anything
              (charge_calls d sub n ++ issue_calls (provider (plan sub)) n)).
    apply follows_app; [apply charge_calls_follows|apply issue_calls_follows]. }
  intros k doc Hk Hdoc. rewrite Hdocs in Hdoc.
  assert (k = n) as ->.
  { apply lookup_lt_Some in Hdoc. rewrite length_app in Hdoc. simpl in Hdoc.
    unfold n. lia. }
  rewrite lookup_app_r in Hdoc by done. rewrite Nat.sub_diag in Hdoc.
  simpl in Hdoc. injection Hdoc as <-.
  unfold document_ok.
  rewrite finished_row_provider, finished_row_customer, finished_row_due_date.
  split; [done|]. split; [done|]. split.
  - rewrite filter_cons. case_decide; [done|].
    by rewrite filter_app, filter_issue_charge_calls, filter_issue_issue_calls_same.
  - eexists. split; [apply list_elem_of_singleton; reflexivity|done].
Qed.

Lemma generate_all_eq w :
  _generate_all should_be_billed now w
  = for_in (Customer_objects w)
      (customer_body (first_of_month (now (clock_reads w)))) tt
      (fst (timezone_now_date now w)).
Proof. reflexivity. Qed.

(** Every run reads the clock once and then advances with its billing date. *)
Lemma generate_advances subscription w :
  advances (run_billing_date now subscription w) (run_asked subscription)
    (run_billed should_be_billed now subscription w)
    (fst (timezone_now_date now w))
    (fst (generate should_be_billed now subscription w)).
Proof.
  destruct subscription as [sub|]; simpl.
  - apply single_advances.
  - rewrite generate_all_eq.
    pose proof (customers_loop_advances (first_of_month (now (clock_reads w)))
      (Customer_objects w) (fst (timezone_now_date now w))) as H.
    destruct (for_in _ _ _ _) as [w' [[]|e]]; [done|by destruct H].
Qed.

(** The calls of a run: the reading of the clock, then the work. *)
Lemma generate_calls subscription w :
  exists E L,
    DocumentEntry_objects (fst (generate should_be_billed now subscription w))
    = DocumentEntry_objects w ++ E /\
    calls (fst (generate should_be_billed now subscription w))
    = calls w ++ TimezoneNow :: L /\
    Forall (fun e =>
              in_range (length (Document_objects w))
                (length (Document_objects
                           (fst (generate should_be_billed now subscription w))))
                (entry_document e)
              /\ entry_ok (run_billing_date now subscription w)
                   (run_billed should_be_billed now subscription w) e) E /\
    Forall (fun c =>
              Forall (in_range (length (Document_objects w))
                        (length (Document_objects
                           (fst (generate should_be_billed now subscription w)))))
                (call_documents c)
              /\ call_ok (run_billing_date now subscription w)
                   (run_asked subscription)
                   (run_billed should_be_billed now subscription w) c) L /\
    follows Anything L /\
    forall n doc,
      length (Document_objects w) <= n ->
      Document_objects (fst (generate should_be_billed now subscription w)) !! n
      = Some doc ->
      document_ok (run_billing_date now subscription w) E L n doc.
Proof.
  destruct (generate_advances subscription w)
    as (_ & _ & _ & _ & E & L & HE & HL & FE & FL & Hf & Hdocs).
  exists E, L. simpl in *. rewrite HE, HL, <- app_assoc. done.
Qed.

Lemma separate_path_eq cu d w :
  _generate_for_user_without_consolidated_billing should_be_billed cu d w
  = for_in (active_or_canceled cu w) (separate_body cu d) tt w.
Proof. reflexivity. Qed.

(** *** Entries and calls go together *)

Lemma in_step_refl w : in_step w w.
Proof. exists [], []. by rewrite !app_nil_r. Qed.

Lemma in_step_trans w1 w2 w3 : in_step w1 w2 -> in_step w2 w3 -> in_step w1 w3.
Proof.
  intros (E1 & L1 & HE1 & HL1 & ->) (E2 & L2 & HE2 & HL2 & ->).
  exists ((L1 ≫= call_entry) ++ (L2 ≫= call_entry)), (L1 ++ L2).
  rewrite HE2, HE1, HL2, HL1, <- !app_assoc. by rewrite bind_app.
Qed.

Lemma in_step_intro w w' E L :
  DocumentEntry_objects w' = DocumentEntry_objects w ++ E ->
  calls w' = calls w ++ L -> E = L ≫= call_entry -> in_step w w'.
Proof. intros. by exists E, L. Qed.

Lemma charge_calls_entries d sub pk :
  charge_calls d sub pk ≫= call_entry = [charge_entry d sub pk].
Proof. unfold charge_calls. by destruct (String.eqb _ _). Qed.

Lemma issue_calls_entries prov pk : issue_calls prov pk ≫= call_entry = [].
Proof. unfold issue_calls. by destruct (String.eqb _ _). Qed.

Lemma issue_loop_calls_entries items : issue_loop_calls items ≫= call_entry = [].
Proof.
  induction items as [|it items IH]; [done|].
  change (issue_loop_calls (it :: items)) with
    (issue_calls (item_provider it) (item_pk it) ++ issue_loop_calls items).
  by rewrite bind_app, issue_calls_entries, IH.
Qed.

Lemma asked_in_step sub d w : in_step w (fst (log (ShouldBeBilled sub d) w)).
Proof. exists [], [ShouldBeBilled sub d]. simpl. by rewrite app_nil_r. Qed.

Lemma for_in_in_step {A S} (l : list A) (body : A -> S -> M S) acc w :
  (forall x acc1 w1, in_step w1 (fst (body x acc1 w1))) ->
  in_step w (fst (for_in l body acc w)).
Proof.
  intros Hbody.
  pose proof (for_in_rule (fun _ _ w1 => in_step w w1) (fun _ w1 => in_step w w1)
                l body acc w (in_step_refl w)) as Hrule.
  destruct (for_in l body acc w) as [w' [acc'|e]]; simpl; apply Hrule.
  all: intros pre x post acc1 w1 _ Hinv; specialize (Hbody x acc1 w1).
  all: destruct (body x acc1 w1) as [w2 [acc2|e2]]; by eapply in_step_trans.
Qed.

Lemma separate_body_in_step cu d sub w :
  in_step w (fst (separate_body cu d sub tt w)).
Proof.
  destruct (should_be_billed sub d) eqn:Hsbb.
  2: { rewrite separate_body_skip by done. apply asked_in_step. }
  destruct (due_date_for d cu) as [e|due] eqn:Hdue.
  { rewrite (separate_body_raise _ _ _ _ e) by done. apply asked_in_step. }
  destruct (separate_body_bill cu d sub w due Hsbb Hdue)
    as (w' & -> & _ & _ & _ & _ & Hents & Hcalls).
  eapply in_step_intro; [exact Hents|exact Hcalls|].
  by rewrite !bind_cons, bind_app, charge_calls_entries, issue_calls_entries.
Qed.

Lemma consolidated_body_in_step cu d sub cache w :
  in_step w (fst (consolidated_body cu d sub cache w)).
Proof.
  destruct (should_be_billed sub d) eqn:Hsbb.
  2: { rewrite consolidated_body_skip by done. apply asked_in_step. }
  destruct (cache !! provider_key sub) as [[prov doc]|] eqn:Hlook.
  { destruct (consolidated_body_hit cu d sub cache w prov doc Hsbb Hlook)
      as (w' & -> & _ & _ & _ & _ & Hents & Hcalls).
    eapply in_step_intro; [exact Hents|exact Hcalls|].
    by rewrite bind_cons, charge_calls_entries. }
  destruct (due_date_for d cu) as [e|due] eqn:Hdue.
  { rewrite (consolidated_body_raise _ _ _ _ _ e) by done. apply asked_in_step. }
  destruct (consolidated_body_miss cu d sub cache w due Hsbb Hlook Hdue)
    as (w' & -> & _ & _ & _ & _ & Hents & Hcalls).
  eapply in_step_intro; [exact Hents|exact Hcalls|].
  by rewrite !bind_cons, charge_calls_entries.
Qed.

Lemma customer_body_in_step d cu w :
  in_step w (fst (customer_body d cu tt w)).
Proof.
  unfold customer_body. destruct (consolidated_billing cu).
  - rewrite consolidated_path_eq.
    pose proof (for_in_in_step (active_or_canceled cu w)
                  (consolidated_body cu d) ∅ w
                  (consolidated_body_in_step cu d)) as Hloop.
    destruct (for_in (active_or_canceled cu w) (consolidated_body cu d) ∅ w)
      as [w1 [cache|e]]; [|done].
    destruct (issue_loop_eq (map_to_list cache) w1)
      as (w' & -> & _ & _ & _ & Hents & _ & Hcalls).
    eapply in_step_trans; [exact Hloop|]. simpl.
    eapply in_step_intro; [by rewrite Hents, app_nil_r|exact Hcalls|].
    by rewrite issue_loop_calls_entries.
  - rewrite separate_path_eq. apply for_in_in_step.
    intros sub [] w1. apply separate_body_in_step.
Qed.

(** The entries a run adds are those of its calls. *)
Lemma generate_in_step subscription w :
  in_step w (fst (generate should_be_billed now subscription w)).
Proof.
  apply (in_step_trans _ (fst (timezone_now_date now w))).
  { exists [], [TimezoneNow]. simpl. by rewrite app_nil_r. }
  destruct subscription as [sub|].
  - simpl.
    destruct (due_date_for (now (clock_reads w)) (customer sub))
      as [e|due] eqn:Hdue.
    { rewrite (single_raise _ _ e) by done. apply in_step_refl. }
    destruct (single_bill sub w due Hdue)
      as (w' & -> & _ & _ & _ & _ & Hents & Hcalls).
    eapply in_step_intro; [exact Hents| |].
    + simpl. rewrite Hcalls, <- app_assoc. reflexivity.
    + by rewrite bind_cons, bind_app, charge_calls_entries, issue_calls_entries.
  - simpl. rewrite generate_all_eq. apply for_in_in_step.
    intros cu [] w1. apply customer_body_in_step.
Qed.

(** ** The claims *)


(** C5: a document created during a run, on any of the three paths, is
    issued at most once, and it is issued exactly when the default document
    state of its provider is 'issued'; otherwise no issuance is called and
    the document stays in the draft state it was created in. *)
Theorem issued_once_iff_provider_says_so
    (subscription : option Subscription) (w : World) (n : nat)
    (doc : Document) :
  length (Document_objects w) <= n ->
  Document_objects (fst (generate should_be_billed now subscription w)) !! n
  = Some doc ->
  exists L,
    calls (fst (generate should_be_billed now subscription w)) = calls w ++ L /\
    length (filter (fun c => c = IssueDocument n) L) <= 1 /\
    (IssueDocument n ∈ L <->
     default_document_state (document_provider doc) = "issued") /\
    (default_document_state (document_provider doc) = "issued" ->
     document_state doc = "issued") /\
    (default_document_state (document_provider doc) <> "issued" ->
     document_state doc = "draft").
Proof.
  intros Hn Hdoc.
  destruct (generate_calls subscription w)
    as (E & L & _ & HL & _ & _ & _ & Hdocs).
  destruct (Hdocs n doc Hn Hdoc) as (_ & Hrow & Hiss & _).
  exists (TimezoneNow :: L). split; [done|].
  assert (Hfilter : filter (fun c => c = IssueDocument n) (TimezoneNow :: L)
                    = filter (fun c => c = IssueDocument n) L).
  { rewrite filter_cons. by case_decide. }
  assert (Hst : document_state doc
                = if String.eqb (default_document_state (document_provider doc))
                       "issued"
                  then "issued" else "draft").
  { rewrite Hrow at 1. apply finished_row_state. }
  destruct (String.eqb (default_document_state (document_provider doc)) "issued")
    eqn:Hi.
  - apply String.eqb_eq in Hi. rewrite Hfilter, Hiss. simpl.
    split; [lia|]. split; [|done]. split; [done|]. intros _.
    assert (Hin : IssueDocument n ∈ filter (fun c => c = IssueDocument n) L).
    { rewrite Hiss. apply list_elem_of_singleton. reflexivity. }
    apply list_elem_of_filter in Hin as [_ Hin]. apply elem_of_cons. auto.
  - apply String.eqb_neq in Hi. rewrite Hfilter, Hiss. simpl.
    split; [lia|]. split; [|done]. split; [|done]. intros Hin.
    assert (Hin' : IssueDocument n ∈ filter (fun c => c = IssueDocument n) L).
    { apply list_elem_of_filter. split; [done|].
      by apply elem_of_cons in Hin as [?|?]. }
    rewrite Hiss in Hin'. by apply elem_of_nil in Hin'.
Qed.

(** C7: a full run reads the clock once, takes the first day of the
    month of that date as its billing date and uses it for every
    customer: in every question and every charge of the run, and for the
    due date of every document; a run for a single subscription uses the
    date read from the clock as it is. *)
Theorem billing_date_resolved_once
    (subscription : option Subscription) (w : World) :
  let w' := fst (generate should_be_billed now subscription w) in
  let today := now (clock_reads w) in
  let billing_date :=
    match subscription with
    | None => mkdate (year today) (month today) 1
    | Some _ => today
    end in
  clock_reads w' = S (clock_reads w) /\
  exists E L,
    DocumentEntry_objects w' = DocumentEntry_objects w ++ E /\
    calls w' = calls w ++ TimezoneNow :: L /\
    (TimezoneNow ∉ L) /\
    (forall s d, ShouldBeBilled s d ∈ L -> d = billing_date) /\
    (forall s d kw n,
       AddTotalValueToDocument s d kw n ∈ L -> d = billing_date) /\
    (forall e, e ∈ E -> entry_billing_date e = billing_date) /\
    (forall n doc,
       length (Document_objects w) <= n ->
       Document_objects w' !! n = Some doc ->
       exists delta,
         timedelta_of_days (payment_due_days (document_customer doc))
         = inr delta /\
         date_add billing_date delta = inr (due_date doc)).
Proof.
  intros w' today billing_date.
  assert (Hbd : billing_date = run_billing_date now subscription w).
  { by destruct subscription. }
  destruct (generate_advances subscription w) as (Hclock & _).
  split; [exact Hclock|].
  destruct (generate_calls subscription w)
    as (E & L & HE & HL & FE & FL & _ & Hdocs).
  rewrite Forall_forall in FE. rewrite Forall_forall in FL.
  exists E, L. do 2 (split; [done|]).
  split. { intros Hin. by destruct (FL _ Hin) as [_ ?]. }
  split. { intros s d Hin. destruct (FL _ Hin) as [_ [? _]]. congruence. }
  split. { intros s d kw n Hin. destruct (FL _ Hin) as [_ [? _]]. congruence. }
  split. { intros e Hin. destruct (FE _ Hin) as [_ [? _]]. congruence. }
  intros n doc Hn Hdoc. destruct (Hdocs n doc Hn Hdoc) as (Hdue & _).
  rewrite <- Hbd in Hdue. unfold due_date_for in Hdue.
  destruct (timedelta_of_days (payment_due_days (document_customer doc)))
    as [e|delta]; [done|].
  by exists delta.
Qed.

Lemma generate_all_stopped w e :
  snd (generate should_be_billed now None w) = Raised e ->
  stopped (first_of_month (now (clock_reads w)))
    (eligible should_be_billed (first_of_month (now (clock_reads w))))
    (fst (timezone_now_date now w))
    (fst (generate should_be_billed now None w)).
Proof.
  simpl. rewrite generate_all_eq.
  pose proof (customers_loop_advances (first_of_month (now (clock_reads w)))
    (Customer_objects w) (fst (timezone_now_date now w))) as H.
  destruct (for_in _ _ _ _) as [w' [[]|e']]; [done|]. by destruct H.
Qed.

(** C6: in a full run a subscription that is not eligible, because its
    state is neither active nor canceled or because it is not due for
    billing at the billing date, is passed over in silence: a subscription
    in another state is never even asked whether it should be billed, and
    for a skipped subscription no charge is added, no line item is made,
    no end is called, every document created carries the charge of some
    other subscription, and an exception can only come from the billing of
    another subscription. *)
Theorem skipped_subscription_leaves_no_trace (w : World) (s : Subscription) :
  let run := generate should_be_billed now None w in
  let billing_date := first_of_month (now (clock_reads w)) in
  ~ ((state s = "active" \/ state s = "canceled") /\
     should_be_billed s billing_date = true) ->
  exists E L,
    DocumentEntry_objects (fst run) = DocumentEntry_objects w ++ E /\
    calls (fst run) = calls w ++ L /\
    (~ (state s = "active" \/ state s = "canceled") ->
     forall d, ShouldBeBilled s d ∉ L) /\
    (forall d kw n, AddTotalValueToDocument s d kw n ∉ L) /\
    (EndSubscription s ∉ L) /\
    (forall e, e ∈ E -> entry_subscription e <> s) /\
    (forall n doc,
       length (Document_objects w) <= n ->
       Document_objects (fst run) !! n = Some doc ->
       exists e, e ∈ E /\ entry_document e = n /\ entry_subscription e <> s) /\
    (forall exn,
       snd run = Raised exn ->
       exists L0 s',
         L = L0 ++ [ShouldBeBilled s' billing_date] /\
         (state s' = "active" \/ state s' = "canceled") /\
         should_be_billed s' billing_date = true /\
         s' <> s).
Proof.
  intros run billing_date Hskip. subst run.
  destruct (generate_calls None w) as (E & L & HE & HL & FE & FL & _ & Hdocs).
  rewrite Forall_forall in FE. rewrite Forall_forall in FL.
  simpl in FE, FL.
  exists E, (TimezoneNow :: L). do 2 (split; [done|]).
  assert (HE' : forall e, e ∈ E -> entry_subscription e <> s).
  { intros e Hin Heq. destruct (FE _ Hin) as (_ & _ & _ & Hb).
    rewrite Heq in Hb. exact (Hskip Hb). }
  split.
  { intros Hst d Hin. apply elem_of_cons in Hin as [?|Hin]; [done|].
    destruct (FL _ Hin) as [_ [_ Hb]]. exact (Hst Hb). }
  split.
  { intros d kw n Hin. apply elem_of_cons in Hin as [?|Hin]; [done|].
    destruct (FL _ Hin) as [_ (_ & _ & Hb)]. exact (Hskip Hb). }
  split.
  { intros Hin. apply elem_of_cons in Hin as [?|Hin]; [done|].
    destruct (FL _ Hin) as [_ Hb]. exact (Hskip Hb). }
  split; [exact HE'|]. split.
  { intros n doc Hn Hdoc.
    destruct (Hdocs n doc Hn Hdoc) as (_ & _ & _ & e & Hin & Hen).
    exists e. split; [done|]. split; [done|]. by apply HE'. }
  intros exn Hexn.
  destruct (generate_all_stopped w exn Hexn) as (L0 & s' & HL0 & Hel).
  rewrite HL in HL0. simpl in HL0.
  rewrite <- app_assoc in HL0. apply app_inv_head in HL0.
  exists (TimezoneNow :: L0), s'. split.
  - simpl in *. by rewrite HL0.
  - destruct Hel as [Hst Hsbb]. do 2 (split; [done|]).
    intros Heq. rewrite Heq in Hst, Hsbb. exact (Hskip (conj Hst Hsbb)).
Qed.

(** C8: the due date of every document a run creates is the billing date
    of the run plus the payment due days of the document's customer, as
    Python adds a [timedelta] of that many days to a date, so that the
    ordinal of the due date is that of the billing date plus the payment
    due days; with 15 payment due days and the billing date 2023-06-01 the
    document created is due on 2023-06-16. *)
Theorem due_date_is_billing_date_plus_payment_due_days
    (subscription : option Subscription) (w : World) (n : nat)
    (doc : Document) :
  let billing_date :=
    match subscription with
    | None => first_of_month (now (clock_reads w))
    | Some _ => now (clock_reads w)
    end in
  length (Document_objects w) <= n ->
  Document_objects (fst (generate should_be_billed now subscription w)) !! n
  = Some doc ->
  (exists delta,
     timedelta_of_days (payment_due_days (document_customer doc)) = inr delta /\
     days delta = payment_due_days (document_customer doc) /\
     date_add billing_date delta = inr (due_date doc)) /\
  (toordinal (due_date doc)
   = toordinal billing_date + payment_due_days (document_customer doc))%Z /\
  (forall prov cu sub w0,
     payment_due_days cu = 15%Z ->
     exists w1 document,
       _create_document prov cu sub (mkdate 2023 6 1) w0
       = (w1, Returned document) /\
       Document_objects w1 = Document_objects w0 ++ [document_fields document] /\
       due_date (document_fields document) = mkdate 2023 6 16).
Proof.
  intros billing_date Hn Hdoc.
  assert (Hplus : exists delta,
            timedelta_of_days (payment_due_days (document_customer doc))
            = inr delta /\
            days delta = payment_due_days (document_customer doc) /\
            date_add billing_date delta = inr (due_date doc)).
  { destruct (generate_calls subscription w) as (E & L & _ & _ & _ & _ & _ & Hdocs).
    destruct (Hdocs n doc Hn Hdoc) as (Hdue & _).
    unfold due_date_for in Hdue.
    destruct (timedelta_of_days (payment_due_days (document_customer doc)))
      as [e|delta] eqn:Hdelta; [done|].
    exists delta. split; [done|]. split; [|done].
    unfold timedelta_of_days in Hdelta.
    destruct (Z.abs _ <=? _)%Z; [|done]. by injection Hdelta as <-. }
  split; [exact Hplus|]. split.
  - destruct Hplus as (delta & _ & Hdays & Hadd).
    rewrite <- Hdays. by apply DatetimeFacts.date_add_toordinal.
  - intros prov cu sub w0 Hpdd.
    rewrite create_document_eq. unfold due_date_for. rewrite Hpdd. simpl.
    eexists _, _. split; [reflexivity|]. split; reflexivity.
Qed.

Lemma elem_of_charge_calls c d sub pk :
  c ∈ charge_calls d sub pk <->
  c = AddTotalValueToDocument sub d (flow (provider (plan sub))) pk \/
  (state sub = "canceled" /\
   (c = EndSubscription sub \/ c = SaveSubscription (ended sub))).
Proof.
  unfold charge_calls. destruct (String.eqb (state sub) "canceled") eqn:Hc.
  - apply String.eqb_eq in Hc.
    rewrite !elem_of_cons, elem_of_nil. tauto.
  - apply String.eqb_neq in Hc.
    rewrite elem_of_cons, elem_of_nil. tauto.
Qed.

Lemma elem_of_issue_calls c prov pk :
  c ∈ issue_calls prov pk <->
  default_document_state prov = "issued" /\
  (c = IssueDocument pk \/ c = SaveDocument pk).
Proof.
  unfold issue_calls.
  destruct (String.eqb (default_document_state prov) "issued") eqn:Hi.
  - apply String.eqb_eq in Hi.
    rewrite !elem_of_cons, elem_of_nil. tauto.
  - apply String.eqb_neq in Hi. rewrite elem_of_nil. tauto.
Qed.

(** C9, amended: a canceled subscription passed to [generate] gets one
    fresh document, provided the clock's date plus the customer's payment
    due days is a date Python can represent: the document is due that many
    days after the date read from the clock, which is also the billing date
    of the charge appended to it; the subscription is ended and saved; and
    the document is issued and saved exactly when the provider's default
    document state is 'issued'. Nothing depends on the customer's
    consolidated billing flag, and no other subscription is involved. *)
Theorem single_run_bills_canceled_subscription
    (sub : Subscription) (w : World) (delta : timedelta) (due : date) :
  let today := now (clock_reads w) in
  let prov := provider (plan sub) in
  let n := length (Document_objects w) in
  let issue := String.eqb (default_document_state prov) "issued" in
  state sub = "canceled" ->
  timedelta_of_days (payment_due_days (customer sub)) = inr delta ->
  date_add today delta = inr due ->
  exists w',
    generate should_be_billed now (Some sub) w = (w', Returned tt) /\
    clock_reads w' = S (clock_reads w) /\
    Document_objects w' =
      Document_objects w
      ++ [{| document_model := model_corresponding_to_default_flow prov;
             document_provider := prov;
             document_customer := customer sub;
             due_date := due;
             document_state := if issue then "issued" else "draft" |}] /\
    DocumentEntry_objects w' =
      DocumentEntry_objects w
      ++ [{| entry_subscription := sub; entry_billing_date := today;
             entry_flow := flow prov; entry_document := n |}] /\
    Subscription_objects w' =
      List.map
        (fun r => if Nat.eqb (subscription_pk r) (subscription_pk sub)
                  then ended sub else r)
        (Subscription_objects w) /\
    calls w' =
      calls w
      ++ [TimezoneNow; CreateDocument n;
          AddTotalValueToDocument sub today (flow prov) n;
          EndSubscription sub; SaveSubscription (ended sub)]
      ++ (if issue then [IssueDocument n; SaveDocument n] else []).
Proof.
  intros today prov n issue Hst Hdelta Hdue.
  assert (Hd : due_date_for today (customer sub) = inr due).
  { unfold due_date_for. by rewrite Hdelta. }
  destruct (single_bill sub w due Hd)
    as (w' & Hrun & Hclock & _ & Hsubs & Hdocs & Hents & Hcalls).
  exists w'. split; [exact Hrun|]. split; [exact Hclock|].
  split.
  { rewrite Hdocs. unfold finished_row. fold prov issue. by destruct issue. }
  split; [exact Hents|].
  split.
  { rewrite Hsubs. unfold saved_subscriptions. by rewrite Hst. }
  rewrite Hcalls. unfold charge_calls, issue_calls. rewrite Hst. done.
Qed.

(** C10, amended: the run for a single subscription looks neither at the
    state filter nor at [should_be_billed].  Whatever the subscription,
    its state and the due date: the run is the same whatever
    [should_be_billed] would answer and never asks it; a subscription is
    ended, and saved, in it only if it is the one passed and is canceled;
    and whether the run returns and what the documents table holds after
    it are the same for every subscription with this plan and customer,
    so the state plays no part in them.  Provided the due date, the date
    of the run plus the customer's payment due days, is a date Python can
    represent, the run returns, creates a document and appends the charge
    of the subscription to it, and ends and saves the subscription exactly
    when its state is canceled. *)
Theorem single_run_ignores_state_and_eligibility
    (sub : Subscription) (w : World) :
  let today := now (clock_reads w) in
  let n := length (Document_objects w) in
  (forall other_should_be_billed,
     generate other_should_be_billed now (Some sub) w
     = generate should_be_billed now (Some sub) w) /\
  (exists L,
     calls (fst (generate should_be_billed now (Some sub) w)) = calls w ++ L /\
     (forall s d, ShouldBeBilled s d ∉ L) /\
     (forall s, EndSubscription s ∈ L -> s = sub /\ state sub = "canceled") /\
     (forall s, SaveSubscription s ∈ L ->
                s = ended sub /\ state sub = "canceled")) /\
  (forall sub',
     plan sub' = plan sub -> customer sub' = customer sub ->
     snd (generate should_be_billed now (Some sub') w)
     = snd (generate should_be_billed now (Some sub) w) /\
     Document_objects (fst (generate should_be_billed now (Some sub') w))
     = Document_objects (fst (generate should_be_billed now (Some sub) w))) /\
  (forall delta due,
     timedelta_of_days (payment_due_days (customer sub)) = inr delta ->
     date_add today delta = inr due ->
     exists w' L,
       generate should_be_billed now (Some sub) w = (w', Returned tt) /\
       calls w' = calls w ++ L /\
       length (Document_objects w') = S n /\
       CreateDocument n ∈ L /\
       DocumentEntry_objects w' =
         DocumentEntry_objects w
         ++ [{| entry_subscription := sub; entry_billing_date := today;
                entry_flow := flow (provider (plan sub));
                entry_document := n |}] /\
       AddTotalValueToDocument sub today (flow (provider (plan sub))) n ∈ L /\
       (EndSubscription sub ∈ L <-> state sub = "canceled") /\
       (SaveSubscription (ended sub) ∈ L <-> state sub = "canceled")).
Proof.
  intros today n.
  assert (Hmem : forall c,
            c ∈ TimezoneNow :: CreateDocument n
                :: charge_calls today sub n
                   ++ issue_calls (provider (plan sub)) n <->
            c = TimezoneNow \/ c = CreateDocument n \/
            c ∈ charge_calls today sub n \/
            c ∈ issue_calls (provider (plan sub)) n).
  { intros c. by rewrite !elem_of_cons, elem_of_app. }
  split; [done|]. split; [|split].
  - simpl. destruct (due_date_for today (customer sub)) as [e|due] eqn:Hd.
    + rewrite (single_raise sub w e Hd). exists [TimezoneNow].
      split; [done|]. split; [|split].
      * intros s d Hin. by apply list_elem_of_singleton in Hin.
      * intros s Hin. by apply list_elem_of_singleton in Hin.
      * intros s Hin. by apply list_elem_of_singleton in Hin.
    + destruct (single_bill sub w due Hd)
        as (w' & -> & _ & _ & _ & _ & _ & Hcalls).
      eexists. split; [exact Hcalls|]. fold today n. split; [|split].
      * intros s d Hin. apply Hmem in Hin.
        rewrite elem_of_charge_calls, elem_of_issue_calls in Hin.
        destruct Hin as [?|[?|[[?|[_ [?|?]]]|[_ [?|?]]]]]; done.
      * intros s Hin. apply Hmem in Hin.
        rewrite elem_of_charge_calls, elem_of_issue_calls in Hin.
        destruct Hin as [?|[?|[[?|[? [?|?]]]|[_ [?|?]]]]]; try done.
        by simplify_eq.
      * intros s Hin. apply Hmem in Hin.
        rewrite elem_of_charge_calls, elem_of_issue_calls in Hin.
        destruct Hin as [?|[?|[[?|[? [?|?]]]|[_ [?|?]]]]]; try done.
        by simplify_eq.
  - intros sub' Hplan Hcu. simpl.
    destruct (due_date_for today (customer sub)) as [e|due] eqn:Hd.
    + rewrite (single_raise sub w e Hd), (single_raise sub' w e); [done|].
      by rewrite Hcu.
    + destruct (single_bill sub w due Hd)
        as (w1 & -> & _ & _ & _ & Hdocs1 & _).
      destruct (single_bill sub' w due) as (w2 & -> & _ & _ & _ & Hdocs2 & _).
      { by rewrite Hcu. }
      simpl. by rewrite Hdocs1, Hdocs2, Hplan, Hcu.
  - intros delta due Hdelta Hdue.
    assert (Hd : due_date_for today (customer sub) = inr due).
    { unfold due_date_for. by rewrite Hdelta. }
    destruct (single_bill sub w due Hd)
      as (w' & Hrun & _ & _ & _ & Hdocs & Hents & Hcalls).
    eexists w', _. split; [exact Hrun|]. split; [exact Hcalls|].
    fold today n.
    split. { rewrite Hdocs, length_app. simpl. lia. }
    split. { apply Hmem. auto. }
    split; [exact Hents|].
    split. { apply Hmem. rewrite elem_of_charge_calls. auto. }
    split.
    + rewrite Hmem, elem_of_charge_calls, elem_of_issue_calls. split.
      * intros [?|[?|[[?|[? _]]|[_ [?|?]]]]]; done.
      * intros Hc. auto 10.
    + rewrite Hmem, elem_of_charge_calls, elem_of_issue_calls. split.
      * intros [?|[?|[[?|[? _]]|[_ [?|?]]]]]; done.
      * intros Hc. auto 10.
Qed.

Lemma consolidated_loop_overflow cu d e subs w0 :
  due_date_for d cu = inl e ->
  exists L,
    calls (fst (for_in subs (consolidated_body cu d) ∅ w0)) = calls w0 ++ L /\
    Forall (fun c => exists s, c = ShouldBeBilled s d) L /\
    Document_objects (fst (for_in subs (consolidated_body cu d) ∅ w0))
    = Document_objects w0 /\
    forall cache,
      snd (for_in subs (consolidated_body cu d) ∅ w0) = Returned cache ->
      cache = ∅.
Proof.
  intros Hdue.
  pose (Q := fun w1 : World =>
          (exists L, calls w1 = calls w0 ++ L /\
                     Forall (fun c => exists s, c = ShouldBeBilled s d) L) /\
          Document_objects w1 = Document_objects w0).
  assert (Hrun :
    match for_in subs (consolidated_body cu d) ∅ w0 with
    | (w1, Returned cache) => cache = ∅ /\ Q w1
    | (w1, Raised _) => Q w1
    end).
  { assert (Hask : forall w1 sub, Q w1 -> Q (fst (log (ShouldBeBilled sub d) w1))).
    { intros w1 sub [(L & HL & FL) Hd]. split; [|done].
      exists (L ++ [ShouldBeBilled sub d]). simpl.
      split; [by rewrite HL, app_assoc|].
      apply Forall_app. split; [done|]. repeat constructor. by exists sub. }
    apply (for_in_rule (fun _ cache w1 => cache = ∅ /\ Q w1) (fun _ w1 => Q w1)).
    { split; [done|]. split; [|done]. exists []. by rewrite app_nil_r. }
    intros pre sub post cache w1 _ [-> HQ].
    destruct (should_be_billed sub d) eqn:Hsbb.
    - rewrite (consolidated_body_raise _ _ _ _ _ e) by done. by apply Hask.
    - rewrite consolidated_body_skip by done. split; [done|]. by apply Hask. }
  destruct (for_in subs (consolidated_body cu d) ∅ w0) as [w1 [cache|e']]; simpl.
  - destruct Hrun as [-> [(L & HL & FL) Hd]]. exists L.
    do 3 (split; [done|]). by intros ? [= <-].
  - destruct Hrun as [(L & HL & FL) Hd]. exists L. by do 3 (split; [done|]).
Qed.

Lemma issue_loop_calls_app items1 items2 :
  issue_loop_calls (items1 ++ items2)
  = issue_loop_calls items1 ++ issue_loop_calls items2.
Proof. unfold issue_loop_calls. apply bind_app. Qed.

Lemma elem_of_issue_loop_calls c items :
  c ∈ issue_loop_calls items -> exists n, c = IssueDocument n \/ c = SaveDocument n.
Proof.
  unfold issue_loop_calls. rewrite list_elem_of_bind.
  intros (item & Hc & _). apply elem_of_issue_calls in Hc as [_ Hc]. eauto.
Qed.

(** C3: on the consolidated path no document is issued while the
    customer's subscriptions are looped over: the calls of the path are
    those of the loop, none of which is an issuance, followed by those of
    the pass over the cache, which are issuances and saves only, so that
    every charge precedes every issuance; in that pass each cached document
    whose provider has the default document state 'issued' is issued and
    saved, and no other is. *)
Theorem issuance_deferred_until_loop_is_over
    (cu : Customer) (d : date) (w : World) :
  let run :=
    _generate_for_user_with_consolidated_billing should_be_billed cu d w in
  let loop := for_in (active_or_canceled cu w) (consolidated_body cu d) ∅ w in
  exists L_loop L_issue,
    calls (fst loop) = calls w ++ L_loop /\
    calls (fst run) = calls w ++ L_loop ++ L_issue /\
    (forall n, IssueDocument n ∉ L_loop) /\
    (forall c, c ∈ L_issue ->
               exists n, c = IssueDocument n \/ c = SaveDocument n) /\
    (forall i j s d' kw n m,
       (L_loop ++ L_issue) !! i = Some (AddTotalValueToDocument s d' kw n) ->
       (L_loop ++ L_issue) !! j = Some (IssueDocument m) ->
       i < j) /\
    match snd loop with
    | Returned cached_documents =>
        snd run = Returned tt /\
        forall k prov document,
          cached_documents !! k = Some (prov, document) ->
          if String.eqb (default_document_state prov) "issued"
          then (exists l1 l2,
                  L_issue = l1 ++ IssueDocument (document_pk document)
                                  :: SaveDocument (document_pk document) :: l2) /\
               Document_objects (fst run) !! document_pk document
               = Some (document_fields (issued document))
          else IssueDocument (document_pk document) ∉ L_issue
    | Raised e =>
        snd run = Raised e /\ L_issue = [] /\
        Document_objects (fst run) = Document_objects w
    end.
Proof.
  intros run loop.
  assert (Horder : forall L_loop L_issue : list Call,
    (forall n, IssueDocument n ∉ L_loop) ->
    (forall c, c ∈ L_issue ->
               exists n, c = IssueDocument n \/ c = SaveDocument n) ->
    forall i j s d' kw n m,
      (L_loop ++ L_issue) !! i = Some (AddTotalValueToDocument s d' kw n) ->
      (L_loop ++ L_issue) !! j = Some (IssueDocument m) ->
      i < j).
  { intros L1 L2 H1 H2 i j s d' kw n m Hi Hj.
    apply lookup_app_Some in Hi as [Hi|[_ Hi]].
    2: { apply list_elem_of_lookup_2, H2 in Hi as [? [?|?]]; done. }
    apply lookup_app_Some in Hj as [Hj|[Hj _]].
    { apply list_elem_of_lookup_2 in Hj. by apply H1 in Hj. }
    apply lookup_lt_Some in Hi. lia. }
  destruct (due_date_for d cu) as [e|due] eqn:Hdue.
  - (* the due date overflows: nothing is cached, nothing is issued *)
    destruct (consolidated_loop_overflow cu d e (active_or_canceled cu w) w Hdue)
      as (L & HL & FL & Hdocs & Hcache).
    fold loop in HL, Hdocs, Hcache.
    assert (Hno : forall n, IssueDocument n ∉ L).
    { intros n Hin. rewrite Forall_forall in FL. by destruct (FL _ Hin). }
    exists L, [].
    assert (Hrun : run = match loop with
                         | (w1, Returned cache) =>
                             for_in (map_to_list cache) issue_body tt w1
                         | (w1, Raised e) => (w1, Raised e)
                         end) by apply consolidated_path_eq.
    destruct loop as [w1 [cache|e']] eqn:Hloop; simpl in *.
    + rewrite (Hcache cache eq_refl), map_to_list_empty in Hrun. rewrite Hrun.
      simpl. split; [done|]. split; [by rewrite app_nil_r|]. split; [done|].
      split; [intros c Hc; by apply elem_of_nil in Hc|].
      split; [apply Horder; [done|intros c Hc; by apply elem_of_nil in Hc]|].
      split; [done|]. intros k prov document Hk.
      by rewrite (Hcache cache eq_refl), lookup_empty in Hk.
    + rewrite Hrun. simpl.
      split; [done|]. split; [by rewrite app_nil_r|]. split; [done|].
      split; [intros c Hc; by apply elem_of_nil in Hc|].
      split; [apply Horder; [done|intros c Hc; by apply elem_of_nil in Hc]|].
      done.
  - destruct (consolidated_path_ok (fun _ => True) (fun _ => True) cu d due w Hdue)
      as (w1 & cache & w' & Hloop & Hinv & Hrun & _ & _ & _ & Hdocs & Hcalls);
      [done|done|].
    fold loop in Hloop. fold run in Hrun. rewrite Hloop, Hrun. simpl.
    destruct (cache_items _ _ _ _ _ _ _ _ _ Hinv) as (Hnd & Hitems & _).
    pose proof Hinv as (_ & _ & _ & _ & _ & L & HL & FL & _).
    assert (Hno : forall n, IssueDocument n ∉ L).
    { intros n Hin. rewrite Forall_forall in FL.
      destruct (FL _ Hin) as (_ & _ & Hne). by apply (Hne n). }
    exists L, (issue_loop_calls (map_to_list cache)).
    split; [done|]. split; [by rewrite Hcalls, HL, app_assoc|].
    split; [done|]. split; [intros c; apply elem_of_issue_loop_calls|].
    split; [apply Horder; [done|intros c; apply elem_of_issue_loop_calls]|].
    split; [done|]. intros k prov document Hk.
    apply elem_of_map_to_list in Hk.
    destruct (Hitems _ Hk) as ([_ Hlt] & _ & _).
    destruct (String.eqb (default_document_state prov) "issued") eqn:Hi.
    + split.
      * apply list_elem_of_split in Hk as (i1 & i2 & Hsplit).
        rewrite Hsplit, issue_loop_calls_app.
        change (issue_loop_calls ((k, (prov, document)) :: i2)) with
          (issue_calls prov (document_pk document) ++ issue_loop_calls i2).
        unfold issue_calls at 1. rewrite Hi. eauto.
      * rewrite Hdocs.
        by apply (issue_rows_hit _ _ (k, (prov, document))).
    + intros Hin.
      assert (Hin' : IssueDocument (document_pk document)
                     ∈ filter (fun c => c = IssueDocument (document_pk document))
                         (issue_loop_calls (map_to_list cache))).
      { by apply list_elem_of_filter. }
      rewrite filter_issue_loop_none in Hin'; [by apply elem_of_nil in Hin'|].
      intros it Hit Heq.
      assert (it = (k, (prov, document)))
        by by eapply (NoDup_fmap_elem_eq item_pk).
      by subst it.
Qed.

(** *** A customer within a full run *)

Lemma due_date_for_explicit d cu :
  (exists delta due,
     timedelta_of_days (payment_due_days cu) = inr delta /\
     date_add d delta = inr due) <->
  exists due, due_date_for d cu = inr due.
Proof.
  unfold due_date_for. split.
  - intros (delta & due & -> & ->). by exists due.
  - intros [due H].
    destruct (timedelta_of_days (payment_due_days cu)) as [|delta]; [done|].
    by exists delta, due.
Qed.

Lemma customer_body_returns d cu w :
  (exists due, due_date_for d cu = inr due) ->
  exists w', customer_body d cu tt w = (w', Returned tt).
Proof.
  intros [due Hdue]. unfold customer_body.
  destruct (consolidated_billing cu).
  - destruct (consolidated_path_ok (fun _ => True) (fun _ => True) cu d due w Hdue)
      as (_ & _ & w' & _ & _ & Hrun & _); [done|done|]. by exists w'.
  - destruct (separate_loop_exact cu d due (active_or_canceled cu w) w Hdue)
      as (w' & Hrun & _). by exists w'.
Qed.

Lemma customers_loop_returns d customers w :
  (forall c, c ∈ customers -> exists due, due_date_for d c = inr due) ->
  exists w', for_in customers (customer_body d) tt w = (w', Returned tt).
Proof.
  revert w. induction customers as [|cu customers IH]; intros w Hdue.
  { by exists w. }
  destruct (customer_body_returns d cu w) as [w1 H1].
  { apply Hdue, elem_of_cons. auto. }
  destruct (IH w1) as [w' H']. { intros c Hc. apply Hdue, elem_of_cons. auto. }
  exists w'. simpl. unfold bind. by rewrite H1.
Qed.

(** A full run returns when every due date can be represented. *)
Lemma generate_all_returns w :
  (forall c, c ∈ Customer_objects w ->
     exists delta due,
       timedelta_of_days (payment_due_days c) = inr delta /\
       date_add (first_of_month (now (clock_reads w))) delta = inr due) ->
  snd (generate should_be_billed now None w) = Returned tt.
Proof.
  intros Hdue. simpl. rewrite generate_all_eq.
  destruct (customers_loop_returns (first_of_month (now (clock_reads w)))
              (Customer_objects w) (fst (timezone_now_date now w)))
    as [w' ->]; [|done].
  intros c Hc. apply due_date_for_explicit. by apply Hdue.
Qed.

(** The run up to a customer, the customer, and the rest of the run. *)
Lemma generate_all_split w pre cu post w' :
  Customer_objects w = pre ++ cu :: post ->
  generate should_be_billed now None w = (w', Returned tt) ->
  exists w1 w2,
    for_in pre (customer_body (first_of_month (now (clock_reads w)))) tt
      (fst (timezone_now_date now w)) = (w1, Returned tt) /\
    customer_body (first_of_month (now (clock_reads w))) cu tt w1
    = (w2, Returned tt) /\
    for_in post (customer_body (first_of_month (now (clock_reads w)))) tt w2
    = (w', Returned tt) /\
    advances (first_of_month (now (clock_reads w))) state_listed
      (eligible should_be_billed (first_of_month (now (clock_reads w))))
      (fst (timezone_now_date now w)) w1 /\
    advances (first_of_month (now (clock_reads w))) state_listed
      (eligible should_be_billed (first_of_month (now (clock_reads w))))
      w2 w'.
Proof.
  intros Hcs Hrun. set (d := first_of_month (now (clock_reads w))) in *.
  set (wn := fst (timezone_now_date now w)).
  simpl in Hrun. rewrite generate_all_eq, Hcs, for_in_app in Hrun.
  fold d wn in Hrun.
  pose proof (customers_loop_advances d pre wn) as Hadv1.
  destruct (for_in pre (customer_body d) tt wn) as [w1 [[]|e]] eqn:H1; [|done].
  simpl in Hrun. unfold bind in Hrun.
  destruct (customer_body d cu tt w1) as [w2 [[]|e]] eqn:H2; [|done].
  pose proof (customers_loop_advances d post w2) as Hadv2.
  rewrite Hrun in Hadv2. exists w1, w2.
  split; [reflexivity|]. split; [exact H2|]. split; [exact Hrun|].
  split; [exact Hadv1|exact Hadv2].
Qed.

Lemma filter_entries_out_of_range (P : DocumentEntry -> Prop) a b n
    (E : list DocumentEntry) :
  Forall (fun e => in_range a b (entry_document e) /\ P e) E ->
  ~ in_range a b n ->
  filter (fun e => entry_document e = n) E = [].
Proof.
  intros HE Hn. induction HE as [|e E [He _] _ IH]; [done|].
  rewrite filter_cons, IH. case_decide as Heq; [|done]. by rewrite Heq in He.
Qed.

(** The documents a customer gets keep their rows and their entries up to
    the end of the run, and nothing else is entered on them. *)
Lemma framed d Asked Billed w0 w1 w2 w' Ecu :
  advances d Asked Billed w0 w1 ->
  DocumentEntry_objects w2 = DocumentEntry_objects w1 ++ Ecu ->
  advances d Asked Billed w2 w' ->
  exists E,
    DocumentEntry_objects w' = DocumentEntry_objects w0 ++ E /\
    forall n,
      length (Document_objects w1) <= n < length (Document_objects w2) ->
      filter (fun e => entry_document e = n) E
      = filter (fun e => entry_document e = n) Ecu /\
      Document_objects w' !! n = Document_objects w2 !! n.
Proof.
  intros (_ & _ & _ & _ & E1 & L1 & HE1 & _ & FE1 & _) Hcu
         (_ & _ & _ & Hpre & E2 & L2 & HE2 & _ & FE2 & _).
  exists (E1 ++ Ecu ++ E2).
  split.
  - by rewrite HE2, Hcu, HE1, <- !app_assoc.
  - intros n [Hn1 Hn2]. split; [|by apply Hpre].
    rewrite !filter_app.
    rewrite (filter_entries_out_of_range _ _ _ _ _ FE1) by (unfold in_range; lia).
    rewrite (filter_entries_out_of_range _ _ _ _ _ FE2) by (unfold in_range; lia).
    by rewrite app_nil_r.
Qed.

Lemma filter_imap_entries_below d a t (l : list Subscription) :
  t < a ->
  filter (fun e => entry_document e = t)
    (imap (fun j s => charge_entry d s (a + j)) l) = [].
Proof.
  revert a. induction l as [|x l IH]; intros a Hlt; [done|].
  rewrite imap_cons, filter_cons. simpl. case_decide; [lia|].
  rewrite <- (IH (S a)) by lia. f_equal. apply imap_ext. intros j s _. simpl.
  f_equal. lia.
Qed.

Lemma filter_imap_entries d a i sub (l : list Subscription) :
  l !! i = Some sub ->
  filter (fun e => entry_document e = a + i)
    (imap (fun j s => charge_entry d s (a + j)) l)
  = [charge_entry d sub (a + i)].
Proof.
  revert a i. induction l as [|x l IH]; intros a i Hi; [done|].
  rewrite imap_cons, filter_cons. simpl. destruct i as [|i].
  - simpl in Hi. injection Hi as ->. rewrite decide_True by done. f_equal.
    rewrite <- (filter_imap_entries_below d (S a) (a + 0) l) by lia.
    f_equal. apply imap_ext. intros j s _. simpl. f_equal. lia.
  - simpl in Hi. rewrite decide_False by lia.
    replace (a + S i) with (S a + i) by lia.
    rewrite <- (IH (S a) i Hi). f_equal. apply imap_ext. intros j s _. simpl.
    f_equal. lia.
Qed.

(** Where the due date overflows, a loop that returns has billed nobody. *)
Lemma separate_loop_overflow cu d e subs w w' :
  due_date_for d cu = inl e ->
  for_in subs (separate_body cu d) tt w = (w', Returned tt) ->
  due_for_billing d subs = [] /\
  Document_objects w' = Document_objects w /\
  DocumentEntry_objects w' = DocumentEntry_objects w.
Proof.
  intros Hdue Hrun.
  pose proof (for_in_rule
    (fun pre (_ : unit) w1 =>
       due_for_billing d pre = [] /\
       Document_objects w1 = Document_objects w /\
       DocumentEntry_objects w1 = DocumentEntry_objects w)
    (fun _ _ => True) subs (separate_body cu d) tt w) as Hrule.
  rewrite Hrun in Hrule. apply Hrule; [done|].
  intros pre sub post [] w1 _ (Hnone & Hd & He).
  rewrite due_for_billing_snoc, Hnone.
  destruct (should_be_billed sub d) eqn:Hsbb.
  - by rewrite (separate_body_raise _ _ _ _ e).
  - by rewrite separate_body_skip.
Qed.

Lemma consolidated_loop_overflow_returned cu d e subs w w' cache :
  due_date_for d cu = inl e ->
  for_in subs (consolidated_body cu d) ∅ w = (w', Returned cache) ->
  cache = ∅ /\ due_for_billing d subs = [] /\
  Document_objects w' = Document_objects w /\
  DocumentEntry_objects w' = DocumentEntry_objects w.
Proof.
  intros Hdue Hrun.
  pose proof (for_in_rule
    (fun pre cache1 w1 =>
       cache1 = ∅ /\ due_for_billing d pre = [] /\
       Document_objects w1 = Document_objects w /\
       DocumentEntry_objects w1 = DocumentEntry_objects w)
    (fun _ _ => True) subs (consolidated_body cu d) ∅ w) as Hrule.
  rewrite Hrun in Hrule. apply Hrule; [done|].
  intros pre sub post cache1 w1 _ (-> & Hnone & Hd & He).
  rewrite due_for_billing_snoc, Hnone.
  destruct (should_be_billed sub d) eqn:Hsbb.
  - by rewrite (consolidated_body_raise _ _ _ _ _ e).
  - by rewrite consolidated_body_skip.
Qed.

(** What the path without consolidated billing has done when it returns. *)
Lemma separate_path_exact cu d w1 w2 :
  _generate_for_user_without_consolidated_billing should_be_billed cu d w1
  = (w2, Returned tt) ->
  length (Document_objects w2)
  = length (Document_objects w1)
    + length (due_for_billing d (active_or_canceled cu w1)) /\
  exists Ecu,
    DocumentEntry_objects w2 = DocumentEntry_objects w1 ++ Ecu /\
    forall i sub,
      due_for_billing d (active_or_canceled cu w1) !! i = Some sub ->
      exists doc,
        Document_objects w2 !! (length (Document_objects w1) + i) = Some doc /\
        document_provider doc = provider (plan sub) /\
        document_customer doc = cu /\
        filter (fun e => entry_document e = length (Document_objects w1) + i)
          Ecu
        = [charge_entry d sub (length (Document_objects w1) + i)].
Proof.
  rewrite separate_path_eq. intros Hrun.
  destruct (due_date_for d cu) as [e|due] eqn:Hdue.
  { destruct (separate_loop_overflow _ _ _ _ _ _ Hdue Hrun) as (-> & -> & ->).
    split; [simpl; lia|]. exists []. by rewrite app_nil_r. }
  destruct (separate_loop_exact cu d due (active_or_canceled cu w1) w1 Hdue)
    as (w2' & Hloop & Hdocs & Hents).
  assert (w2' = w2) as -> by congruence.
  split. { by rewrite Hdocs, length_app, length_map. }
  eexists. split; [exact Hents|].
  intros i sub Hi.
  exists (finished_row (provider (plan sub)) cu due).
  split.
  { rewrite Hdocs, lookup_app_r by lia.
    rewrite Nat.add_comm, Nat.add_sub.
    change (List.map ?f ?l) with (f <$> l).
    by rewrite list_lookup_fmap, Hi. }
  split; [apply finished_row_provider|]. split; [apply finished_row_customer|].
  by apply filter_imap_entries.
Qed.

Lemma filter_cached_entries d cache n k (l : list Subscription) :
  (forall s, s ∈ l -> cached_pk cache s = n <-> provider_key s = k) ->
  filter (fun e => entry_document e = n)
    ((fun s => charge_entry d s (cached_pk cache s)) <$> l)
  = (fun s => charge_entry d s n) <$> filter (fun s => provider_key s = k) l.
Proof.
  induction l as [|x l IH]; intros Hl; [done|].
  rewrite fmap_cons, !filter_cons. simpl.
  assert (Hx := Hl x ltac:(apply elem_of_cons; auto)).
  rewrite IH by (intros s Hs; apply Hl, elem_of_cons; auto).
  destruct (decide (provider_key x = k)) as [Hk|Hk].
  - apply Hx in Hk as Hn. rewrite decide_True by done.
    rewrite fmap_cons. by rewrite Hn.
  - rewrite decide_False; [done|]. intros Hn. by apply Hk, Hx.
Qed.

(** What the path with consolidated billing has done when it returns. *)
Lemma consolidated_path_exact cu d w1 w2 :
  _generate_for_user_with_consolidated_billing should_be_billed cu d w1
  = (w2, Returned tt) ->
  let providers : gset nat :=
    list_to_set (provider_key <$> due_for_billing d (active_or_canceled cu w1)) in
  length (Document_objects w2)
  = length (Document_objects w1) + size providers /\
  exists Ecu,
    DocumentEntry_objects w2 = DocumentEntry_objects w1 ++ Ecu /\
    (forall n,
       length (Document_objects w1) <= n
       < length (Document_objects w1) + size providers ->
       exists doc,
         Document_objects w2 !! n = Some doc /\
         document_customer doc = cu /\
         provider_pk (document_provider doc) ∈ providers /\
         filter (fun e => entry_document e = n) Ecu
         = (fun s => charge_entry d s n)
           <$> filter (fun s => provider_key s
                                = provider_pk (document_provider doc))
                 (due_for_billing d (active_or_canceled cu w1))) /\
    (forall n m doc doc',
       Document_objects w2 !! n = Some doc ->
       Document_objects w2 !! m = Some doc' ->
       length (Document_objects w1) <= n -> length (Document_objects w1) <= m ->
       provider_pk (document_provider doc)
       = provider_pk (document_provider doc') ->
       n = m).
Proof.
  intros Hrun providers.
  destruct (due_date_for d cu) as [e|due] eqn:Hdue.
  { rewrite consolidated_path_eq in Hrun.
    destruct (for_in (active_or_canceled cu w1) (consolidated_body cu d) ∅ w1)
      as [wl [cache|e']] eqn:Hloop; [|done].
    destruct (consolidated_loop_overflow_returned _ _ _ _ _ _ _ Hdue Hloop)
      as (-> & Hnone & Hd & He).
    rewrite map_to_list_empty in Hrun. simpl in Hrun. injection Hrun as <-.
    subst providers. rewrite Hnone, fmap_nil, list_to_set_nil, size_empty, Hd.
    split; [lia|]. exists []. rewrite app_nil_r. split; [done|].
    split; [intros n Hn; lia|].
    intros n m doc doc' Hn _ Hge _ _. apply lookup_lt_Some in Hn. lia. }
  destruct (consolidated_path_ok (fun _ => True) (fun _ => True) cu d due w1 Hdue)
    as (wl & cache & w2' & _ & Hinv & Hpath & _ & _ & Hents & Hdocs & _);
    [done|done|].
  assert (w2' = w2) as -> by congruence.
  destruct (cache_items _ _ _ _ _ _ _ _ _ Hinv) as (Hnd & Hitems & Hnew).
  pose proof Hinv as (_ & _ & (D & HD & Hlen & _ & _) & Hdom & Hents1 & _).
  rewrite Hents1 in Hents.
  subst providers. rewrite <- Hdom, size_dom.
  assert (Hlen2 : length (Document_objects w2)
                  = length (Document_objects w1) + size cache).
  { by rewrite Hdocs, issue_rows_length, HD, length_app, Hlen. }
  split; [exact Hlen2|].
  assert (Hrow : forall n doc,
            length (Document_objects w1) <= n ->
            Document_objects w2 !! n = Some doc ->
            exists item,
              item ∈ map_to_list cache /\ item_pk item = n /\
              fst item = provider_pk (item_provider item) /\
              doc = finished_row (item_provider item) cu due).
  { intros n doc Hn Hdoc.
    assert (Hlt : n < length (Document_objects wl)).
    { apply lookup_lt_Some in Hdoc. rewrite Hlen2 in Hdoc.
      rewrite HD, length_app, Hlen. lia. }
    destruct (lookup_lt_is_Some_2 _ _ Hlt) as [row Hrow1].
    destruct (Hnew n row Hn Hrow1) as (item & Hin & Hpk & Hkey & _).
    exists item. do 3 (split; [done|]).
    pose proof (consolidated_final_row _ _ _ _ _ _ _ _ _ item Hinv Hin) as Hfin.
    rewrite Hpk, <- Hdocs, Hdoc in Hfin. by injection Hfin. }
  eexists. split; [exact Hents|]. split.
  - intros n Hn.
    assert (Hlt : n < length (Document_objects w2)) by lia.
    destruct (lookup_lt_is_Some_2 _ _ Hlt) as [doc Hdoc].
    destruct (Hrow n doc ltac:(lia) Hdoc) as (item & Hin & Hpk & Hkey & ->).
    exists (finished_row (item_provider item) cu due).
    split; [done|]. rewrite finished_row_customer, finished_row_provider.
    split; [done|].
    destruct item as [k [prov dc]]. unfold item_pk, item_provider in *.
    simpl in *. subst k. pose proof Hin as Hk. apply elem_of_map_to_list in Hk.
    split. { apply elem_of_dom. eauto. }
    apply (filter_cached_entries d cache n (provider_pk prov)).
    intros s Hs.
    assert (Hs' : provider_key s ∈ dom cache).
    { rewrite Hdom. apply elem_of_list_to_set, list_elem_of_fmap. by exists s. }
    apply elem_of_dom in Hs' as [[p' dc'] Hs'].
    unfold cached_pk. rewrite Hs'. split.
    + intros Heq. apply elem_of_map_to_list in Hs'.
      assert ((provider_key s, (p', dc')) = (provider_pk prov, (prov, dc))) as Hsame.
      { eapply (NoDup_fmap_elem_eq item_pk); eauto. unfold item_pk. simpl.
        congruence. }
      congruence.
    + intros Heq. rewrite Heq, Hk in Hs'. congruence.
  - intros n m doc doc' Hdn Hdm Hn Hm Hprov.
    destruct (Hrow n doc Hn Hdn) as (itn & Hinn & Hpkn & Hkeyn & ->).
    destruct (Hrow m doc' Hm Hdm) as (itm & Hinm & Hpkm & Hkeym & ->).
    rewrite !finished_row_provider in Hprov.
    destruct itn as [kn vn], itm as [km vm]. simpl in *.
    apply elem_of_map_to_list in Hinn, Hinm.
    assert (kn = km) by congruence. subst km.
    assert (vn = vm) by congruence. subst vm.
    unfold item_pk in *. simpl in *. congruence.
Qed.

(** C2, amended: a full run returns when the due date of every customer,
    the billing date plus the payment due days, is a date Python can
    represent; and in a full run that returns, a customer without
    consolidated billing gets one document for each of their eligible
    subscriptions, the active or canceled ones that are due for billing
    when the run reaches the customer: the documents created for the
    customer are as many as those subscriptions, the i-th of them belongs
    to the provider of the i-th subscription, and at the end of the run it
    carries the charge of that subscription and of no other, the entries
    of the run being those of its calls to add_total_value_to_document. *)
Theorem one_document_per_eligible_subscription
    (w : World) (pre : list Customer) (cu : Customer) (post : list Customer) :
  let billing_date := first_of_month (now (clock_reads w)) in
  Customer_objects w = pre ++ cu :: post ->
  consolidated_billing cu = false ->
  ((forall c, c ∈ Customer_objects w ->
      exists delta due,
        timedelta_of_days (payment_due_days c) = inr delta /\
        date_add billing_date delta = inr due) ->
   snd (generate should_be_billed now None w) = Returned tt) /\
  forall w',
    generate should_be_billed now None w = (w', Returned tt) ->
    exists w1 w2 E,
      for_in pre (customer_body billing_date) tt (fst (timezone_now_date now w))
      = (w1, Returned tt) /\
      _generate_for_user_without_consolidated_billing should_be_billed cu
        billing_date w1 = (w2, Returned tt) /\
      for_in post (customer_body billing_date) tt w2 = (w', Returned tt) /\
      DocumentEntry_objects w' = DocumentEntry_objects w ++ E /\
      (exists L, calls w' = calls w ++ L /\ E = L ≫= call_entry) /\
      let eligible_subscriptions :=
        List.filter (fun s => should_be_billed s billing_date)
          (active_or_canceled cu w1) in
      let n1 := length (Document_objects w1) in
      length (Document_objects w2) = n1 + length eligible_subscriptions /\
      forall i sub,
        eligible_subscriptions !! i = Some sub ->
        exists doc,
          Document_objects w' !! (n1 + i) = Some doc /\
          document_provider doc = provider (plan sub) /\
          document_customer doc = cu /\
          filter (fun e => entry_document e = n1 + i) E
          = [{| entry_subscription := sub; entry_billing_date := billing_date;
                entry_flow := flow (provider (plan sub));
                entry_document := n1 + i |}].
Proof.
  intros d Hcs Hflag. split; [apply generate_all_returns|].
  intros w' Hrun.
  destruct (generate_all_split w pre cu post w' Hcs Hrun)
    as (w1 & w2 & H1 & H2 & H3 & Hadv1 & Hadv2).
  fold d in H1, H2, H3, Hadv1, Hadv2.
  unfold customer_body in H2 at 1. rewrite Hflag in H2.
  destruct (separate_path_exact cu d w1 w2 H2) as (Hlen & Ecu & Hents & Hdocs).
  destruct (framed _ _ _ _ _ _ _ _ Hadv1 Hents Hadv2) as (E & HE & Hframe).
  exists w1, w2, E. do 3 (split; [done|]).
  split; [exact HE|].
  split.
  { destruct (generate_in_step None w) as (E' & L & HE' & HL & HEL).
    rewrite Hrun in HE', HL. simpl in HE', HL.
    rewrite HE in HE'. apply app_inv_head in HE'. exists L. by subst E'. }
  simpl. split; [exact Hlen|].
  intros i sub Hi.
  destruct (Hdocs i sub Hi) as (doc & Hdoc & Hprov & Hcust & Hfilter).
  destruct (Hframe (length (Document_objects w1) + i)) as [HfE Hrow].
  { apply lookup_lt_Some in Hdoc. lia. }
  exists doc. rewrite Hrow, HfE. done.
Qed.

(** C1, amended: a full run returns when the due date of every customer,
    the billing date plus the payment due days, is a date Python can
    represent; and in a full run that returns, a customer with consolidated
    billing gets one document for each provider of their eligible
    subscriptions, the active or canceled ones that are due for billing
    when the run reaches the customer: the documents created for the
    customer are as many as the distinct providers of those subscriptions,
    no two of them belong to the same provider, and at the end of the run
    each of them carries exactly the charges of the eligible subscriptions
    of its provider, the entries of the run being those of its calls to
    add_total_value_to_document. *)
Theorem one_document_per_provider
    (w : World) (pre : list Customer) (cu : Customer) (post : list Customer) :
  let billing_date := first_of_month (now (clock_reads w)) in
  Customer_objects w = pre ++ cu :: post ->
  consolidated_billing cu = true ->
  ((forall c, c ∈ Customer_objects w ->
      exists delta due,
        timedelta_of_days (payment_due_days c) = inr delta /\
        date_add billing_date delta = inr due) ->
   snd (generate should_be_billed now None w) = Returned tt) /\
  forall w',
    generate should_be_billed now None w = (w', Returned tt) ->
    exists w1 w2 E,
      for_in pre (customer_body billing_date) tt (fst (timezone_now_date now w))
      = (w1, Returned tt) /\
      _generate_for_user_with_consolidated_billing should_be_billed cu
        billing_date w1 = (w2, Returned tt) /\
      for_in post (customer_body billing_date) tt w2 = (w', Returned tt) /\
      DocumentEntry_objects w' = DocumentEntry_objects w ++ E /\
      (exists L, calls w' = calls w ++ L /\ E = L ≫= call_entry) /\
      let eligible_subscriptions :=
        List.filter (fun s => should_be_billed s billing_date)
          (active_or_canceled cu w1) in
      let providers : gset nat :=
        list_to_set
          ((fun s => provider_pk (provider (plan s)))
             <$> eligible_subscriptions) in
      let n1 := length (Document_objects w1) in
      length (Document_objects w2) = n1 + size providers /\
      (forall n,
         n1 <= n < n1 + size providers ->
         exists doc,
           Document_objects w' !! n = Some doc /\
           document_customer doc = cu /\
           provider_pk (document_provider doc) ∈ providers /\
           filter (fun e => entry_document e = n) E
           = (fun s => {| entry_subscription := s;
                          entry_billing_date := billing_date;
                          entry_flow := flow (provider (plan s));
                          entry_document := n |})
             <$> filter (fun s => provider_pk (provider (plan s))
                                  = provider_pk (document_provider doc))
                   eligible_subscriptions) /\
      (forall n m doc doc',
         n1 <= n < n1 + size providers -> n1 <= m < n1 + size providers ->
         Document_objects w' !! n = Some doc ->
         Document_objects w' !! m = Some doc' ->
         provider_pk (document_provider doc)
         = provider_pk (document_provider doc') ->
         n = m).
Proof.
  intros d Hcs Hflag. split; [apply generate_all_returns|].
  intros w' Hrun.
  destruct (generate_all_split w pre cu post w' Hcs Hrun)
    as (w1 & w2 & H1 & H2 & H3 & Hadv1 & Hadv2).
  fold d in H1, H2, H3, Hadv1, Hadv2.
  unfold customer_body in H2 at 1. rewrite Hflag in H2.
  destruct (consolidated_path_exact cu d w1 w2 H2)
    as (Hlen & Ecu & Hents & Hdocs & Hdistinct).
  destruct (framed _ _ _ _ _ _ _ _ Hadv1 Hents Hadv2) as (E & HE & Hframe).
  exists w1, w2, E. do 3 (split; [done|]).
  split; [exact HE|].
  split.
  { destruct (generate_in_step None w) as (E' & L & HE' & HL & HEL).
    rewrite Hrun in HE', HL. simpl in HE', HL.
    rewrite HE in HE'. apply app_inv_head in HE'. exists L. by subst E'. }
  simpl. split; [exact Hlen|]. split.
  - intros n Hn. destruct (Hdocs n Hn) as (doc & Hdoc & Hcust & Hprov & Hfilter).
    destruct (Hframe n) as [HfE Hrow]. { apply lookup_lt_Some in Hdoc. lia. }
    exists doc. rewrite Hrow, HfE. done.
  - intros n m doc doc' Hn Hm Hdn Hdm Hprov.
    destruct (Hframe n) as [_ Hrn]. { rewrite Hlen. exact Hn. }
    destruct (Hframe m) as [_ Hrm]. { rewrite Hlen. exact Hm. }
    rewrite Hrn in Hdn. rewrite Hrm in Hdm.
    apply (Hdistinct n m doc doc'); try done; lia.
Qed.

(** ** Further properties of the generator *)

(** *** Customers with nothing to bill, and customers whose due date
    cannot be represented *)

Lemma logged_nil w : logged w [] = w.
Proof. destruct w. unfold logged. simpl. by rewrite app_nil_r. Qed.

Lemma logged_logged w L1 L2 : logged (logged w L1) L2 = logged w (L1 ++ L2).
Proof. unfold logged. simpl. by rewrite app_assoc. Qed.

Lemma log_logged c w : fst (log c w) = logged w [c].
Proof. reflexivity. Qed.

Lemma separate_loop_skips cu d subs w :
  Forall (fun s => should_be_billed s d = false) subs ->
  for_in subs (separate_body cu d) tt w
  = (logged w (questions d subs), Returned tt).
Proof.
  intros Hskip. revert w.
  induction Hskip as [|sub subs Hsub _ IH]; intros w; simpl.
  - by rewrite logged_nil.
  - unfold bind. rewrite separate_body_skip, log_logged, IH, logged_logged by done.
    reflexivity.
Qed.

Lemma consolidated_loop_skips cu d subs cache w :
  Forall (fun s => should_be_billed s d = false) subs ->
  for_in subs (consolidated_body cu d) cache w
  = (logged w (questions d subs), Returned cache).
Proof.
  intros Hskip. revert w.
  induction Hskip as [|sub subs Hsub _ IH]; intros w; simpl.
  - by rewrite logged_nil.
  - unfold bind.
    rewrite consolidated_body_skip, log_logged, IH, logged_logged by done.
    reflexivity.
Qed.

Lemma questions_snoc d subs sub :
  questions d (subs ++ [sub]) = questions d subs ++ [ShouldBeBilled sub d].
Proof. unfold questions. by rewrite fmap_app. Qed.

Lemma separate_loop_stops cu d e skipped sub rest w :
  due_date_for d cu = inl e ->
  Forall (fun s => should_be_billed s d = false) skipped ->
  should_be_billed sub d = true ->
  for_in (skipped ++ sub :: rest) (separate_body cu d) tt w
  = (logged w (questions d (skipped ++ [sub])), Raised e).
Proof.
  intros Hdue Hskip Hsub.
  rewrite for_in_app, separate_loop_skips by done. simpl. unfold bind.
  rewrite (separate_body_raise _ _ _ _ e), log_logged, logged_logged by done.
  by rewrite questions_snoc.
Qed.

Lemma consolidated_loop_stops cu d e skipped sub rest w :
  due_date_for d cu = inl e ->
  Forall (fun s => should_be_billed s d = false) skipped ->
  should_be_billed sub d = true ->
  for_in (skipped ++ sub :: rest) (consolidated_body cu d) ∅ w
  = (logged w (questions d (skipped ++ [sub])), Raised e).
Proof.
  intros Hdue Hskip Hsub.
  rewrite for_in_app, consolidated_loop_skips by done. simpl. unfold bind.
  rewrite (consolidated_body_raise _ _ _ _ _ e), log_logged, logged_logged
    by done.
  by rewrite questions_snoc.
Qed.

Lemma none_due d subs :
  due_for_billing d subs = [] <->
  Forall (fun s => should_be_billed s d = false) subs.
Proof.
  induction subs as [|sub subs IH]; simpl.
  - split; [constructor|done].
  - rewrite Forall_cons. destruct (should_be_billed sub d).
    + split; [done|]. by intros [? _].
    + rewrite IH. split; [done|]. by intros [_ ?].
Qed.

Lemma first_due d subs :
  due_for_billing d subs <> [] ->
  exists skipped sub rest,
    subs = skipped ++ sub :: rest /\
    Forall (fun s => should_be_billed s d = false) skipped /\
    should_be_billed sub d = true.
Proof.
  induction subs as [|s subs IH]; simpl; [done|].
  destruct (should_be_billed s d) eqn:Hs.
  - intros _. exists [], s, subs. split; [done|]. split; [constructor|done].
  - intros Hne. destruct (IH Hne) as (skipped & sub & rest & -> & Hskip & Hsub).
    exists (s :: skipped), sub, rest. split; [done|].
    split; [by constructor|done].
Qed.

Lemma customer_body_nothing_due d cu w :
  due_for_billing d (active_or_canceled cu w) = [] ->
  customer_body d cu tt w
  = (logged w (questions d (active_or_canceled cu w)), Returned tt).
Proof.
  intros Hnone. apply none_due in Hnone. unfold customer_body.
  destruct (consolidated_billing cu).
  - by rewrite consolidated_path_eq, consolidated_loop_skips, map_to_list_empty.
  - by rewrite separate_path_eq, separate_loop_skips.
Qed.

Lemma customer_body_stops d cu e w skipped sub rest :
  due_date_for d cu = inl e ->
  active_or_canceled cu w = skipped ++ sub :: rest ->
  Forall (fun s => should_be_billed s d = false) skipped ->
  should_be_billed sub d = true ->
  customer_body d cu tt w
  = (logged w (questions d (skipped ++ [sub])), Raised e).
Proof.
  intros Hdue Hsubs Hskip Hsub. unfold customer_body.
  destruct (consolidated_billing cu).
  - rewrite consolidated_path_eq, Hsubs.
    by rewrite (consolidated_loop_stops _ _ e).
  - rewrite separate_path_eq, Hsubs. by apply separate_loop_stops.
Qed.

Lemma due_date_for_representable d cu :
  (exists due, due_date_for d cu = inr due) <-> representable d cu.
Proof.
  unfold due_date_for, representable, timedelta_of_days, date_add.
  destruct (Z.abs (payment_due_days cu) <=? 999999999)%Z eqn:Habs.
  - apply Z.leb_le in Habs. simpl.
    destruct ((0 <? toordinal d + payment_due_days cu)%Z
              && (toordinal d + payment_due_days cu <=? _MAXORDINAL)%Z)
      eqn:Hrange.
    + apply andb_prop in Hrange as [H1 H2].
      apply Z.ltb_lt in H1. apply Z.leb_le in H2.
      split; [intros _; lia|]. intros _. eauto.
    + split; [by intros [? ?]|]. intros [_ [H1 H2]].
      apply andb_false_iff in Hrange as [H|H].
      * apply Z.ltb_ge in H. lia.
      * apply Z.leb_gt in H. lia.
  - apply Z.leb_gt in Habs. split; [by intros [? ?]|]. lia.
Qed.

(** X1: processing one customer fails exactly when the customer has a
    subscription due for billing and the due date, the billing date plus
    the customer's payment due days, is outside what [timedelta] and
    [date] can hold; a customer with nothing due is passed over whatever
    their payment due days are.  When it fails, the exception is an
    OverflowError raised on the first subscription that is due: up to
    there the subscriptions have only been asked whether they should be
    billed, and no table has been written. *)
Theorem customer_fails_iff_due_date_unrepresentable
    (d : date) (cu : Customer) (w : World) :
  (snd (customer_body d cu tt w) = Returned tt <->
   due_for_billing d (active_or_canceled cu w) = [] \/ representable d cu) /\
  (snd (customer_body d cu tt w) <> Returned tt ->
   exists skipped sub rest,
     active_or_canceled cu w = skipped ++ sub :: rest /\
     Forall (fun s => should_be_billed s d = false) skipped /\
     should_be_billed sub d = true /\
     customer_body d cu tt w
     = (logged w (questions d (skipped ++ [sub])), Raised OverflowError)).
Proof.
  destruct (due_for_billing d (active_or_canceled cu w)) as [|s l] eqn:Hdue0.
  { rewrite customer_body_nothing_due by done. simpl.
    split; [split; auto|]. by intros H. }
  destruct (due_date_for d cu) as [e|due] eqn:Hd.
  - destruct e.
    destruct (first_due d (active_or_canceled cu w))
      as (skipped & sub & rest & Hsubs & Hskip & Hsub).
    { by rewrite Hdue0. }
    rewrite (customer_body_stops d cu OverflowError w skipped sub rest)
      by done.
    simpl. split.
    + split; [done|]. intros [?|Hrep]; [done|].
      apply due_date_for_representable in Hrep as [? ?]. congruence.
    + intros _. by exists skipped, sub, rest.
  - destruct (customer_body_returns d cu w) as [w' ->]; [by exists due|].
    simpl. split; [|by intros H]. split; [|done].
    intros _. right. apply due_date_for_representable. by exists due.
Qed.

Lemma for_in_raised {A S} (l : list A) (body : A -> S -> M S) acc w w' e :
  for_in l body acc w = (w', Raised e) ->
  exists pre x post acc1 w1,
    l = pre ++ x :: post /\
    for_in pre body acc w = (w1, Returned acc1) /\
    body x acc1 w1 = (w', Raised e).
Proof.
  revert acc w. induction l as [|x l IH]; intros acc w; simpl; [done|].
  unfold bind. destruct (body x acc w) as [w1 [acc1|e1]] eqn:Hbody.
  - intros Hrest.
    destruct (IH _ _ Hrest) as (pre & y & post & acc2 & w2 & -> & Hpre & Hy).
    exists (x :: pre), y, post, acc2, w2. split; [done|]. split; [|done].
    simpl. unfold bind. by rewrite Hbody.
  - intros [= <-]. destruct e, e1. by exists [], x, l, acc, w.
Qed.

Lemma customer_body_raised d cu w w' e :
  customer_body d cu tt w = (w', Raised e) ->
  exists skipped sub rest,
    ~ representable d cu /\
    active_or_canceled cu w = skipped ++ sub :: rest /\
    Forall (fun s => should_be_billed s d = false) skipped /\
    should_be_billed sub d = true /\
    e = OverflowError /\
    w' = logged w (questions d (skipped ++ [sub])).
Proof.
  intros Hcu.
  destruct (due_for_billing d (active_or_canceled cu w)) as [|s l] eqn:Hdue0.
  { by rewrite customer_body_nothing_due in Hcu. }
  destruct (due_date_for d cu) as [e0|due] eqn:Hd.
  2: { destruct (customer_body_returns d cu w) as [w2 Hret]; [by exists due|].
       congruence. }
  destruct (first_due d (active_or_canceled cu w))
    as (skipped & sub & rest & Hsubs & Hskip & Hsub).
  { by rewrite Hdue0. }
  rewrite (customer_body_stops d cu e0 w skipped sub rest) in Hcu by done.
  exists skipped, sub, rest. split.
  { intros Hrep. apply due_date_for_representable in Hrep as [? ?].
    congruence. }
  do 3 (split; [done|]). destruct e. split; [done|]. congruence.
Qed.

(** X2: a full run that raises has stopped inside one customer.  The
    customers before that one were processed completely and what was
    written for them stays, no rollback is made; the customer's due date
    is not representable; the subscriptions of that customer were asked
    whether they should be billed up to the first one that is due, and
    nothing else was done for this customer or for those after. *)
Theorem failed_run_stops_at_first_unbillable_customer
    (w w' : World) (e : Exception) :
  generate should_be_billed now None w = (w', Raised e) ->
  exists pre cu post w1 skipped sub rest,
    Customer_objects w = pre ++ cu :: post /\
    for_in pre (customer_body (first_of_month (now (clock_reads w)))) tt
      (fst (timezone_now_date now w)) = (w1, Returned tt) /\
    ~ representable (first_of_month (now (clock_reads w))) cu /\
    active_or_canceled cu w1 = skipped ++ sub :: rest /\
    Forall (fun s => should_be_billed s (first_of_month (now (clock_reads w)))
                     = false) skipped /\
    should_be_billed sub (first_of_month (now (clock_reads w))) = true /\
    e = OverflowError /\
    w' = logged w1
           (questions (first_of_month (now (clock_reads w))) (skipped ++ [sub])).
Proof.
  simpl. rewrite generate_all_eq. intros Hrun.
  apply for_in_raised in Hrun
    as (pre & cu & post & [] & w1 & Hcs & Hpre & Hcu).
  apply customer_body_raised in Hcu
    as (skipped & sub & rest & Hrep & Hsubs & Hskip & Hsub & -> & ->).
  by exists pre, cu, post, w1, skipped, sub, rest.
Qed.

Lemma customers_loop_nothing_due d customers w L :
  (forall cu, cu ∈ customers ->
     due_for_billing d (active_or_canceled cu w) = []) ->
  for_in customers (customer_body d) tt (logged w L)
  = (logged w
       (L ++ (customers ≫= fun cu => questions d (active_or_canceled cu w))),
     Returned tt).
Proof.
  revert L. induction customers as [|cu customers IH]; intros L Hnone.
  { simpl. by rewrite app_nil_r. }
  simpl. unfold bind.
  rewrite customer_body_nothing_due.
  2: { apply Hnone, elem_of_cons. auto. }
  change (active_or_canceled cu (logged w L)) with (active_or_canceled cu w).
  rewrite logged_logged, IH.
  2: { intros c Hc. apply Hnone, elem_of_cons. auto. }
  by rewrite <- app_assoc.
Qed.

(** X3: when no customer has an active or canceled subscription that is
    due for billing, a full run returns and writes nothing: it reads the
    clock and asks every active or canceled subscription of every
    customer, in order, whether it should be billed; the tables are left
    as they were. *)
Theorem run_with_nothing_due_only_asks (w : World) :
  (forall cu, cu ∈ Customer_objects w ->
     due_for_billing (first_of_month (now (clock_reads w)))
       (active_or_canceled cu w) = []) ->
  generate should_be_billed now None w
  = (logged (fst (timezone_now_date now w))
       (Customer_objects w ≫= fun cu =>
          questions (first_of_month (now (clock_reads w)))
            (active_or_canceled cu w)),
     Returned tt).
Proof.
  intros Hnone. simpl. rewrite generate_all_eq.
  rewrite <- (logged_nil (fst (timezone_now_date now w))) at 1.
  by rewrite (customers_loop_nothing_due _ _ (fst (timezone_now_date now w))).
Qed.

(** *** What a run leaves alone *)

(** X4: a run of either kind only adds to the documents and the entries:
    the customers are left as they were, every document that existed
    before the run keeps its row, no entry is added to such a document,
    and every document the run creates carries at least one entry, also
    when the run ends with an exception. *)
Theorem run_leaves_existing_rows_alone
    (subscription : option Subscription) (w : World) :
  let w' := fst (generate should_be_billed now subscription w) in
  Customer_objects w' = Customer_objects w /\
  length (Document_objects w) <= length (Document_objects w') /\
  (forall n, n < length (Document_objects w) ->
     Document_objects w' !! n = Document_objects w !! n) /\
  exists E,
    DocumentEntry_objects w' = DocumentEntry_objects w ++ E /\
    (forall e, e ∈ E ->
       length (Document_objects w) <= entry_document e
       < length (Document_objects w')) /\
    (forall n, length (Document_objects w) <= n
               < length (Document_objects w') ->
       exists e, e ∈ E /\ entry_document e = n).
Proof.
  intros w'. subst w'.
  destruct (generate_advances subscription w)
    as (_ & Hcu & Hlen & Hold & E & L & HE & _ & FE & _ & _ & Hdocs).
  simpl in Hcu, Hlen, Hold, HE, FE, Hdocs.
  do 3 (split; [done|]). exists E. split; [done|]. split.
  - intros e He. rewrite Forall_forall in FE. by destruct (FE e He) as [? _].
  - intros n [Hge Hlt].
    destruct (lookup_lt_is_Some_2 _ _ Hlt) as [doc Hdoc].
    by destruct (Hdocs n doc Hge Hdoc) as (_ & _ & _ & He).
Qed.

(** *** Every subscription that is due is charged once *)

Lemma charge_entries_subscriptions d a (l : list Subscription) :
  entry_subscription <$> imap (fun i s => charge_entry d s (a + i)) l = l.
Proof.
  revert a. induction l as [|s l IH]; intros a; [done|].
  rewrite imap_cons, fmap_cons. simpl. f_equal.
  rewrite <- (IH (S a)) at 2. f_equal. apply imap_ext.
  intros i x _. simpl. f_equal. lia.
Qed.

(** X5: when the processing of a customer returns, the entries it has
    added are the charges of the customer's active or canceled
    subscriptions that are due for billing, one entry for each of them and
    in the order of the query; each entry carries the billing date and the
    flow of the subscription's provider, and sits on a document created
    during this processing, made out to this customer and belonging to a
    provider with the primary key of the subscription's provider. *)
Theorem every_due_subscription_charged_once
    (d : date) (cu : Customer) (w w' : World) :
  customer_body d cu tt w = (w', Returned tt) ->
  exists E,
    DocumentEntry_objects w' = DocumentEntry_objects w ++ E /\
    entry_subscription <$> E = due_for_billing d (active_or_canceled cu w) /\
    Forall
      (fun e =>
         entry_billing_date e = d /\
         entry_flow e = flow (provider (plan (entry_subscription e))) /\
         length (Document_objects w) <= entry_document e /\
         exists doc,
           Document_objects w' !! entry_document e = Some doc /\
           document_customer doc = cu /\
           provider_pk (document_provider doc)
           = provider_key (entry_subscription e)) E.
Proof.
  unfold customer_body. intros Hrun.
  destruct (due_date_for d cu) as [e|due] eqn:Hdue.
  { assert (due_for_billing d (active_or_canceled cu w) = [] /\
            DocumentEntry_objects w' = DocumentEntry_objects w) as [-> ->].
    { destruct (consolidated_billing cu).
      - rewrite consolidated_path_eq in Hrun.
        destruct (for_in (active_or_canceled cu w) (consolidated_body cu d) ∅ w)
          as [wl [cache|e']] eqn:Hloop; [|done].
        destruct (consolidated_loop_overflow_returned _ _ _ _ _ _ _ Hdue Hloop)
          as (-> & Hnone & _ & He).
        rewrite map_to_list_empty in Hrun. simpl in Hrun.
        injection Hrun as <-. done.
      - rewrite separate_path_eq in Hrun.
        by destruct (separate_loop_overflow _ _ _ _ _ _ Hdue Hrun)
          as (? & _ & ?). }
    exists []. rewrite app_nil_r. split; [done|]. split; [done|constructor]. }
  destruct (consolidated_billing cu).
  - destruct (consolidated_path_ok (fun _ => True) (fun _ => True) cu d due w
                Hdue)
      as (wl & cache & w2 & _ & Hinv & Hpath & _ & _ & Hents & Hdocs & _);
      [done|done|].
    assert (w2 = w') as -> by congruence.
    pose proof Hinv as (_ & _ & (D & HD & Hlen & Hcache & _) & Hdom & Hents1 & _).
    rewrite Hents1 in Hents.
    eexists. split; [exact Hents|]. split.
    { rewrite <- list_fmap_compose. apply list_fmap_id. }
    apply Forall_forall. intros e0 He0.
    apply list_elem_of_fmap in He0 as (s & -> & Hs). simpl.
    do 2 (split; [done|]).
    assert (Hk : provider_key s ∈ dom cache).
    { rewrite Hdom. apply elem_of_list_to_set, list_elem_of_fmap. by exists s. }
    apply elem_of_dom in Hk as [[prov doc] Hk].
    unfold cached_pk. rewrite Hk.
    destruct (Hcache _ _ _ Hk) as (Hkey & _ & Hge & _).
    split; [done|].
    exists (finished_row prov cu due).
    rewrite finished_row_customer, finished_row_provider.
    split; [|done].
    rewrite Hdocs. apply elem_of_map_to_list in Hk.
    apply (consolidated_final_row _ _ _ _ _ _ _ _ _ _ Hinv Hk).
  - rewrite separate_path_eq in Hrun.
    destruct (separate_loop_exact cu d due (active_or_canceled cu w) w Hdue)
      as (w2 & Hloop & Hdocs & Hents).
    assert (w2 = w') as -> by congruence.
    eexists. split; [exact Hents|].
    split; [apply charge_entries_subscriptions|].
    apply Forall_forall. intros e0 He0.
    apply list_elem_of_lookup in He0 as [i Hi].
    apply list_lookup_imap_Some in Hi as (s & Hs & ->). simpl.
    do 2 (split; [done|]). split; [lia|].
    exists (finished_row (provider (plan s)) cu due).
    rewrite finished_row_customer, finished_row_provider.
    split; [|done].
    rewrite Hdocs, lookup_app_r by lia.
    rewrite Nat.add_comm, Nat.add_sub.
    change (List.map ?f ?l) with (f <$> l).
    by rewrite list_lookup_fmap, Hs.
Qed.

(** *** The run for one subscription and the loop of the full run *)

(** X6: the run for a single subscription does with that subscription
    what one step of the loop for a customer without consolidated billing
    does with a subscription that is due, the date read from the clock as
    billing date: both end the same way and leave the same tables, and
    they make the same calls but for the question whether the subscription
    should be billed, which the single run does not ask. *)
Theorem single_run_is_a_step_of_the_separate_loop
    (sub : Subscription) (w : World) :
  should_be_billed sub (now (clock_reads w)) = true ->
  exists w1 w2 r L,
    _generate_for_single_subscription_now now sub w = (w1, r) /\
    separate_body (customer sub) (now (clock_reads w)) sub tt
      (fst (timezone_now_date now w)) = (w2, r) /\
    clock_reads w1 = clock_reads w2 /\
    Customer_objects w1 = Customer_objects w2 /\
    Subscription_objects w1 = Subscription_objects w2 /\
    Document_objects w1 = Document_objects w2 /\
    DocumentEntry_objects w1 = DocumentEntry_objects w2 /\
    calls w1 = calls w ++ TimezoneNow :: L /\
    calls w2
    = calls w ++ TimezoneNow :: ShouldBeBilled sub (now (clock_reads w)) :: L.
Proof.
  intros Hsbb.
  destruct (due_date_for (now (clock_reads w)) (customer sub))
    as [e|due] eqn:Hdue.
  - rewrite (single_raise _ _ e), (separate_body_raise _ _ _ _ e) by done.
    eexists _, _, _, []. do 7 (split; [reflexivity|]).
    simpl. by rewrite <- app_assoc.
  - destruct (single_bill sub w due Hdue)
      as (w1 & -> & Hc1 & Hcu1 & Hs1 & Hd1 & He1 & Hl1).
    destruct (separate_body_bill (customer sub) (now (clock_reads w)) sub
                (fst (timezone_now_date now w)) due Hsbb Hdue)
      as (w2 & -> & Hc2 & Hcu2 & Hs2 & Hd2 & He2 & Hl2).
    simpl in Hc2, Hcu2, Hs2, Hd2, He2, Hl2.
    eexists w1, w2, _, _. do 2 (split; [reflexivity|]).
    rewrite Hc1, Hc2, Hcu1, Hcu2, Hs1, Hs2, Hd1, Hd2, He1, He2, Hl1, Hl2.
    do 6 (split; [reflexivity|]). by rewrite <- app_assoc.
Qed.

(** *** The subscriptions table *)

Lemma for_in_preserves {A S} (R : World -> World -> Prop) (l : list A)
    (body : A -> S -> M S) acc w :
  (forall w1, R w1 w1) ->
  (forall w1 w2 w3, R w1 w2 -> R w2 w3 -> R w1 w3) ->
  (forall x acc1 w1, R w1 (fst (body x acc1 w1))) ->
  R w (fst (for_in l body acc w)).
Proof.
  intros Hrefl Htrans Hbody.
  pose proof (for_in_rule (fun _ _ w1 => R w w1) (fun _ w1 => R w w1)
                l body acc w (Hrefl w)) as Hrule.
  destruct (for_in l body acc w) as [w' [acc'|e]]; simpl; apply Hrule.
  all: intros pre x post acc1 w1 _ Hinv; specialize (Hbody x acc1 w1).
  all: destruct (body x acc1 w1) as [w2 [acc2|e2]]; by eapply Htrans.
Qed.

Lemma kept_or_ended_pk r r' :
  kept_or_ended r r' -> subscription_pk r' = subscription_pk r.
Proof. by intros [->|(s & _ & <- & ->)]. Qed.

Lemma rows_kept_refl w : rows_kept w w.
Proof. apply Forall_Forall2_diag, Forall_forall. intros r _. by left. Qed.

Lemma rows_kept_trans w1 w2 w3 :
  rows_kept w1 w2 -> rows_kept w2 w3 -> rows_kept w1 w3.
Proof.
  apply Forall2_trans. intros r1 r2 r3 H12 [->|(s & Hs & Hpk & ->)]; [done|].
  right. exists s. split; [done|]. split; [|done].
  by rewrite Hpk, (kept_or_ended_pk _ _ H12).
Qed.

Lemma rows_kept_same w w' :
  Subscription_objects w' = Subscription_objects w -> rows_kept w w'.
Proof. unfold rows_kept. intros ->. apply rows_kept_refl. Qed.

Lemma rows_kept_saved sub w w' :
  Subscription_objects w' = saved_subscriptions sub (Subscription_objects w) ->
  rows_kept w w'.
Proof.
  unfold rows_kept, saved_subscriptions. intros ->.
  destruct (String.eqb (state sub) "canceled") eqn:Hc; [|apply rows_kept_refl].
  apply String.eqb_eq in Hc.
  change (List.map ?f ?l) with (f <$> l).
  apply Forall2_fmap_r, Forall_Forall2_diag, Forall_forall.
  intros r _. simpl.
  destruct (Nat.eqb (subscription_pk r) (subscription_pk sub)) eqn:Hpk.
  - apply Nat.eqb_eq in Hpk. right. by exists sub.
  - by left.
Qed.

Lemma separate_body_rows_kept cu d sub w :
  rows_kept w (fst (separate_body cu d sub tt w)).
Proof.
  destruct (should_be_billed sub d) eqn:Hsbb.
  2: { rewrite separate_body_skip by done. by apply rows_kept_same. }
  destruct (due_date_for d cu) as [e|due] eqn:Hdue.
  { rewrite (separate_body_raise _ _ _ _ e) by done. by apply rows_kept_same. }
  destruct (separate_body_bill cu d sub w due Hsbb Hdue)
    as (w' & -> & _ & _ & Hrows & _).
  by apply (rows_kept_saved sub).
Qed.

Lemma consolidated_body_rows_kept cu d sub cache w :
  rows_kept w (fst (consolidated_body cu d sub cache w)).
Proof.
  destruct (should_be_billed sub d) eqn:Hsbb.
  2: { rewrite consolidated_body_skip by done. by apply rows_kept_same. }
  destruct (cache !! provider_key sub) as [[prov doc]|] eqn:Hlook.
  { destruct (consolidated_body_hit cu d sub cache w prov doc Hsbb Hlook)
      as (w' & -> & _ & _ & Hrows & _).
    by apply (rows_kept_saved sub). }
  destruct (due_date_for d cu) as [e|due] eqn:Hdue.
  { rewrite (consolidated_body_raise _ _ _ _ _ e) by done.
    by apply rows_kept_same. }
  destruct (consolidated_body_miss cu d sub cache w due Hsbb Hlook Hdue)
    as (w' & -> & _ & _ & Hrows & _).
  by apply (rows_kept_saved sub).
Qed.

Lemma customer_body_rows_kept d cu w :
  rows_kept w (fst (customer_body d cu tt w)).
Proof.
  unfold customer_body. destruct (consolidated_billing cu).
  - rewrite consolidated_path_eq.
    pose proof (for_in_preserves rows_kept (active_or_canceled cu w)
                  (consolidated_body cu d) ∅ w rows_kept_refl rows_kept_trans
                  (consolidated_body_rows_kept cu d)) as Hloop.
    destruct (for_in (active_or_canceled cu w) (consolidated_body cu d) ∅ w)
      as [w1 [cache|e]]; [|done].
    destruct (issue_loop_eq (map_to_list cache) w1)
      as (w' & -> & _ & _ & Hrows & _).
    eapply rows_kept_trans; [exact Hloop|]. by apply rows_kept_same.
  - rewrite separate_path_eq.
    apply (for_in_preserves rows_kept);
      [apply rows_kept_refl|apply rows_kept_trans|].
    intros sub [] w1. apply separate_body_rows_kept.
Qed.

(** X7: no run adds or removes a row of the subscriptions table or
    changes a primary key in it; a row is either left as it was or
    overwritten with the ended instance of a canceled subscription of the
    same primary key.  In particular no subscription is ever put back to
    active or canceled. *)
Theorem run_keeps_or_ends_subscription_rows
    (subscription : option Subscription) (w : World) :
  Forall2 kept_or_ended (Subscription_objects w)
    (Subscription_objects (fst (generate should_be_billed now subscription w)))
  /\ subscription_pk
     <$> Subscription_objects (fst (generate should_be_billed now subscription w))
     = subscription_pk <$> Subscription_objects w.
Proof.
  assert (Hkept : rows_kept w (fst (generate should_be_billed now subscription w))).
  { apply (rows_kept_trans _ (fst (timezone_now_date now w)));
      [by apply rows_kept_same|].
    destruct subscription as [sub|]; simpl.
    - destruct (due_date_for (now (clock_reads w)) (customer sub))
        as [e|due] eqn:Hdue.
      { rewrite (single_raise _ _ e) by done. apply rows_kept_refl. }
      destruct (single_bill sub w due Hdue) as (w' & -> & _ & _ & Hrows & _).
      by apply (rows_kept_saved sub).
    - rewrite generate_all_eq.
      apply (for_in_preserves rows_kept);
        [apply rows_kept_refl|apply rows_kept_trans|].
      intros cu [] w1. apply customer_body_rows_kept. }
  split; [exact Hkept|].
  unfold rows_kept in Hkept.
  induction Hkept as [|r r' l l' Hr _ IH]; [done|].
  rewrite !fmap_cons, IH. f_equal. by apply kept_or_ended_pk.
Qed.

(** *** The subscriptions table under unique primary keys *)

Lemma end_due_pk d billed r :
  subscription_pk (end_due should_be_billed d billed r) = subscription_pk r.
Proof. unfold end_due. by destruct (_ && _). Qed.

Lemma end_due_customer d billed r :
  customer (end_due should_be_billed d billed r) = customer r.
Proof. unfold end_due. by destruct (_ && _). Qed.

Lemma end_due_pks d billed (rows : list Subscription) :
  subscription_pk <$> (end_due should_be_billed d billed <$> rows)
  = subscription_pk <$> rows.
Proof.
  rewrite <- list_fmap_compose. apply list_fmap_ext.
  intros i r _. apply end_due_pk.
Qed.

Lemma end_due_among_nil d (rows : list Subscription) :
  end_due should_be_billed d (among []) <$> rows = rows.
Proof.
  rewrite <- (list_fmap_id rows) at 2. apply list_fmap_ext.
  intros i r _. unfold end_due, among.
  by rewrite bool_decide_eq_false_2, andb_false_r by apply not_elem_of_nil.
Qed.

Lemma end_due_among_snoc d pre sub r :
  (r = sub ->
   String.eqb (state sub) "canceled" && should_be_billed sub d = false) ->
  end_due should_be_billed d (among (pre ++ [sub])) r
  = end_due should_be_billed d (among pre) r.
Proof.
  intros Hsub. unfold end_due, among.
  destruct (decide (r = sub)) as [->|Hne].
  - by rewrite Hsub.
  - assert (bool_decide (r ∈ pre ++ [sub]) = bool_decide (r ∈ pre)) as ->;
      [|done].
    apply bool_decide_ext.
    rewrite elem_of_app, elem_of_cons. split; [|auto].
    intros [?|[?|Hnil]]; [done|done|]. by apply elem_of_nil in Hnil.
Qed.

Lemma end_due_snoc_skip d pre sub (rows : list Subscription) :
  should_be_billed sub d = false ->
  end_due should_be_billed d (among (pre ++ [sub])) <$> rows
  = end_due should_be_billed d (among pre) <$> rows.
Proof.
  intros Hsbb. apply list_fmap_ext. intros i r _.
  apply end_due_among_snoc. intros _. by rewrite Hsbb, andb_false_r.
Qed.

Lemma end_due_snoc_bill d pre sub (rows : list Subscription) :
  NoDup (subscription_pk <$> rows) -> sub ∈ rows ->
  should_be_billed sub d = true ->
  saved_subscriptions sub (end_due should_be_billed d (among pre) <$> rows)
  = end_due should_be_billed d (among (pre ++ [sub])) <$> rows.
Proof.
  intros Hnd Hin Hsbb. unfold saved_subscriptions.
  destruct (String.eqb (state sub) "canceled") eqn:Hc.
  - change (List.map ?f ?l) with (f <$> l).
    rewrite <- list_fmap_compose. apply list_fmap_ext.
    intros i r Hi. simpl. rewrite end_due_pk.
    destruct (Nat.eqb (subscription_pk r) (subscription_pk sub)) eqn:Hpk.
    + apply Nat.eqb_eq in Hpk.
      assert (r = sub) as ->.
      { apply (NoDup_fmap_elem_eq subscription_pk rows); [done| |done|done].
        by eapply list_elem_of_lookup_2. }
      unfold end_due, among. rewrite Hc, Hsbb. simpl.
      rewrite bool_decide_eq_true_2; [done|].
      rewrite elem_of_app, elem_of_cons. auto.
    + symmetry. apply end_due_among_snoc. intros ->.
      by rewrite Nat.eqb_refl in Hpk.
  - symmetry. apply list_fmap_ext. intros i r _.
    apply end_due_among_snoc. intros _. by rewrite Hc.
Qed.

Lemma separate_loop_rows cu d subs w :
  NoDup (subscription_pk <$> Subscription_objects w) ->
  (forall s, s ∈ subs -> s ∈ Subscription_objects w) ->
  match for_in subs (separate_body cu d) tt w with
  | (w', Returned _) =>
      Subscription_objects w'
      = end_due should_be_billed d (among subs) <$> Subscription_objects w
  | (_, Raised _) => True
  end.
Proof.
  intros Hnd Hrows.
  apply (for_in_rule
    (fun pre (_ : unit) w1 =>
       Subscription_objects w1
       = end_due should_be_billed d (among pre) <$> Subscription_objects w)
    (fun _ _ => True)).
  { by rewrite end_due_among_nil. }
  intros pre sub post [] w1 Hsubs Hinv.
  assert (Hin : sub ∈ Subscription_objects w).
  { apply Hrows. rewrite Hsubs, elem_of_app, elem_of_cons. auto. }
  destruct (should_be_billed sub d) eqn:Hsbb.
  2: { rewrite separate_body_skip by done. simpl.
       by rewrite end_due_snoc_skip. }
  destruct (due_date_for d cu) as [e|due] eqn:Hdue.
  { by rewrite (separate_body_raise _ _ _ _ e). }
  destruct (separate_body_bill cu d sub w1 due Hsbb Hdue)
    as (w2 & -> & _ & _ & -> & _).
  rewrite Hinv. by apply end_due_snoc_bill.
Qed.

Lemma consolidated_loop_rows cu d subs w :
  NoDup (subscription_pk <$> Subscription_objects w) ->
  (forall s, s ∈ subs -> s ∈ Subscription_objects w) ->
  match for_in subs (consolidated_body cu d) ∅ w with
  | (w', Returned _) =>
      Subscription_objects w'
      = end_due should_be_billed d (among subs) <$> Subscription_objects w
  | (_, Raised _) => True
  end.
Proof.
  intros Hnd Hrows.
  apply (for_in_rule
    (fun pre (_ : gmap nat (Provider * DocumentInstance)) w1 =>
       Subscription_objects w1
       = end_due should_be_billed d (among pre) <$> Subscription_objects w)
    (fun _ _ => True)).
  { by rewrite end_due_among_nil. }
  intros pre sub post cache w1 Hsubs Hinv.
  assert (Hin : sub ∈ Subscription_objects w).
  { apply Hrows. rewrite Hsubs, elem_of_app, elem_of_cons. auto. }
  destruct (should_be_billed sub d) eqn:Hsbb.
  2: { rewrite consolidated_body_skip by done. simpl.
       by rewrite end_due_snoc_skip. }
  destruct (cache !! provider_key sub) as [[prov doc]|] eqn:Hlook.
  { destruct (consolidated_body_hit cu d sub cache w1 prov doc Hsbb Hlook)
      as (w2 & -> & _ & _ & -> & _).
    rewrite Hinv. by apply end_due_snoc_bill. }
  destruct (due_date_for d cu) as [e|due] eqn:Hdue.
  { by rewrite (consolidated_body_raise _ _ _ _ _ e). }
  destruct (consolidated_body_miss cu d sub cache w1 due Hsbb Hlook Hdue)
    as (w2 & -> & _ & _ & -> & _).
  rewrite Hinv. by apply end_due_snoc_bill.
Qed.

Lemma elem_of_active_or_canceled cu w sub :
  sub ∈ active_or_canceled cu w <->
  sub ∈ Subscription_objects w /\ of_customer cu sub = true /\
  state_listed sub.
Proof.
  unfold active_or_canceled, of_customer, state_listed.
  rewrite list_elem_of_In, filter_In, <- list_elem_of_In, andb_true_iff.
  simpl. rewrite orb_false_r, orb_true_iff, !String.eqb_eq. tauto.
Qed.

Lemma end_due_of_customer d cu w :
  end_due should_be_billed d (among (active_or_canceled cu w))
  <$> Subscription_objects w
  = end_due should_be_billed d (of_customer cu) <$> Subscription_objects w.
Proof.
  apply list_fmap_ext. intros i r Hi. unfold end_due.
  destruct (String.eqb (state r) "canceled") eqn:Hc; [|done].
  destruct (should_be_billed r d); [|done]. simpl.
  assert (among (active_or_canceled cu w) r = of_customer cu r) as ->; [|done].
  unfold among.
  destruct (of_customer cu r) eqn:Hcu.
  - apply bool_decide_eq_true_2, elem_of_active_or_canceled.
    split; [by eapply list_elem_of_lookup_2|]. split; [done|].
    right. by apply String.eqb_eq.
  - apply bool_decide_eq_false_2. rewrite elem_of_active_or_canceled.
    intros (_ & ? & _). congruence.
Qed.

Lemma customer_body_rows d cu w w' :
  NoDup (subscription_pk <$> Subscription_objects w) ->
  customer_body d cu tt w = (w', Returned tt) ->
  Subscription_objects w'
  = end_due should_be_billed d (of_customer cu) <$> Subscription_objects w.
Proof.
  intros Hnd. rewrite <- end_due_of_customer.
  assert (Hrows : forall s, s ∈ active_or_canceled cu w ->
                            s ∈ Subscription_objects w).
  { intros s Hs. by apply elem_of_active_or_canceled in Hs as [? _]. }
  unfold customer_body. destruct (consolidated_billing cu).
  - rewrite consolidated_path_eq.
    pose proof (consolidated_loop_rows cu d _ w Hnd Hrows) as Hloop.
    destruct (for_in (active_or_canceled cu w) (consolidated_body cu d) ∅ w)
      as [w1 [cache|e]]; [|done].
    destruct (issue_loop_eq (map_to_list cache) w1)
      as (w2 & -> & _ & _ & Hsame & _).
    intros [= <-]. by rewrite Hsame.
  - rewrite separate_path_eq.
    pose proof (separate_loop_rows cu d _ w Hnd Hrows) as Hloop.
    destruct (for_in (active_or_canceled cu w) (separate_body cu d) tt w)
      as [w1 [[]|e]]; [|done].
    by intros [= <-].
Qed.

Lemma of_customers_snoc pre cu r :
  of_customers (pre ++ [cu]) r = of_customers pre r || of_customer cu r.
Proof.
  unfold of_customers, of_customer.
  destruct (Nat.eqb (customer_pk (customer r)) (customer_pk cu)) eqn:Hcu.
  - apply Nat.eqb_eq in Hcu. rewrite orb_true_r.
    apply bool_decide_eq_true_2.
    rewrite fmap_app, elem_of_app. right. rewrite Hcu. apply list_elem_of_here.
  - apply Nat.eqb_neq in Hcu. rewrite orb_false_r. apply bool_decide_ext.
    rewrite fmap_app, elem_of_app. split; [|auto].
    intros [?|Hin]; [done|].
    apply elem_of_cons in Hin as [?|Hnil]; [done|].
    by apply elem_of_nil in Hnil.
Qed.

Lemma end_due_of_customers_snoc d pre cu r :
  end_due should_be_billed d (of_customer cu)
    (end_due should_be_billed d (of_customers pre) r)
  = end_due should_be_billed d (of_customers (pre ++ [cu])) r.
Proof.
  unfold end_due at 2 3. rewrite of_customers_snoc.
  destruct (String.eqb (state r) "canceled") eqn:Hc;
    destruct (should_be_billed r d) eqn:Hsbb;
    destruct (of_customers pre r); simpl;
    unfold end_due; simpl; rewrite ?Hc, ?Hsbb; simpl; done.
Qed.

Lemma customers_loop_rows d customers w w' :
  NoDup (subscription_pk <$> Subscription_objects w) ->
  for_in customers (customer_body d) tt w = (w', Returned tt) ->
  Subscription_objects w'
  = end_due should_be_billed d (of_customers customers)
    <$> Subscription_objects w.
Proof.
  intros Hnd Hrun.
  pose proof (for_in_rule
    (fun pre (_ : unit) w1 =>
       Subscription_objects w1
       = end_due should_be_billed d (of_customers pre)
         <$> Subscription_objects w)
    (fun _ _ => True) customers (customer_body d) tt w) as Hrule.
  rewrite Hrun in Hrule. apply Hrule.
  { rewrite <- (list_fmap_id (Subscription_objects w)) at 1.
    apply list_fmap_ext. intros i r _. unfold end_due, of_customers.
    rewrite fmap_nil.
    by rewrite bool_decide_eq_false_2, andb_false_r by apply not_elem_of_nil. }
  intros pre cu post [] w1 _ Hinv.
  destruct (customer_body d cu tt w1) as [w2 [[]|e]] eqn:Hcu; [|done].
  rewrite (customer_body_rows d cu w1 w2), Hinv; [| |done].
  - rewrite <- list_fmap_compose. apply list_fmap_ext.
    intros i r _. apply end_due_of_customers_snoc.
  - by rewrite Hinv, end_due_pks.
Qed.

(** X8: when the primary keys of the subscriptions table are unique, a
    full run that returns has changed that table in one way only: the
    rows that were canceled, due for billing on the billing date and
    owned by a customer of the customers table are ended; every other row
    is as it was.  A full run that raises has done the same for the
    customers of an initial part of the customers table and nothing for
    the others. *)
Theorem full_run_ends_the_due_canceled_subscriptions (w : World) :
  NoDup (subscription_pk <$> Subscription_objects w) ->
  exists done rest,
    Customer_objects w = done ++ rest /\
    Subscription_objects (fst (generate should_be_billed now None w))
    = end_due should_be_billed (first_of_month (now (clock_reads w)))
        (of_customers done)
      <$> Subscription_objects w /\
    (snd (generate should_be_billed now None w) = Returned tt -> rest = []).
Proof.
  intros Hnd. simpl. rewrite generate_all_eq.
  set (d := first_of_month (now (clock_reads w))).
  destruct (for_in (Customer_objects w) (customer_body d) tt
              (fst (timezone_now_date now w))) as [w' [[]|e]] eqn:Hrun.
  - exists (Customer_objects w), []. rewrite app_nil_r. split; [done|].
    split; [|done].
    by apply (customers_loop_rows d _ (fst (timezone_now_date now w))).
  - apply for_in_raised in Hrun
      as (pre & cu & post & [] & w1 & Hcs & Hpre & Hcu).
    apply customer_body_raised in Hcu
      as (skipped & sub & rest & _ & _ & _ & _ & _ & ->).
    exists pre, (cu :: post). split; [done|]. split; [|done]. simpl.
    by apply (customers_loop_rows d _ (fst (timezone_now_date now w))).
Qed.

Lemma filter_fmap_same {A} (p : A -> bool) (f : A -> A) (l : list A) :
  (forall x, x ∈ l -> p (f x) = p x /\ (p x = true -> f x = x)) ->
  List.filter p (f <$> l) = List.filter p l.
Proof.
  induction l as [|x l IH]; intros Hf; [done|].
  rewrite fmap_cons. simpl.
  destruct (Hf x) as [Hp Hx]; [apply list_elem_of_here|].
  rewrite Hp, IH.
  2: { intros y Hy. apply Hf. by apply list_elem_of_further. }
  destruct (p x); [|done]. by rewrite Hx.
Qed.

Lemma customers_loop_other_subscriptions d pre cu w w1 :
  NoDup (subscription_pk <$> Subscription_objects w) ->
  customer_pk cu ∉ customer_pk <$> pre ->
  for_in pre (customer_body d) tt w = (w1, Returned tt) ->
  active_or_canceled cu w1 = active_or_canceled cu w.
Proof.
  intros Hnd Hcu Hrun. unfold active_or_canceled.
  rewrite (customers_loop_rows d pre w w1 Hnd Hrun).
  apply filter_fmap_same. intros r _.
  unfold end_due.
  destruct (String.eqb (state r) "canceled" && should_be_billed r d
            && of_customers pre r) eqn:Hcond; [|done].
  apply andb_prop in Hcond as [_ Hpre].
  apply bool_decide_eq_true_1 in Hpre.
  assert (Nat.eqb (customer_pk (customer r)) (customer_pk cu) = false) as Hne.
  { apply Nat.eqb_neq. intros Heq. by rewrite Heq in Hpre. }
  simpl. rewrite Hne. done.
Qed.

(** X9: under unique primary keys of the subscriptions, a full run
    leaves the subscriptions of a customer as they were until it reaches
    that customer: when the customers before have been processed and none
    of them has the customer's primary key, the query for the customer's
    active or canceled subscriptions gives what it would have given when
    the run started. *)
Theorem customer_is_billed_from_the_rows_of_the_start
    (w w1 : World) (pre post : list Customer) (cu : Customer) :
  NoDup (subscription_pk <$> Subscription_objects w) ->
  Customer_objects w = pre ++ cu :: post ->
  customer_pk cu ∉ customer_pk <$> pre ->
  for_in pre (customer_body (first_of_month (now (clock_reads w)))) tt
    (fst (timezone_now_date now w)) = (w1, Returned tt) ->
  active_or_canceled cu w1 = active_or_canceled cu w.
Proof.
  intros Hnd _ Hcu Hrun.
  by apply (customers_loop_other_subscriptions _ pre cu
              (fst (timezone_now_date now w)) w1 Hnd Hcu Hrun).
Qed.

(** *** The documents of each customer, counted from the start of the run *)

Lemma prefix_app {A} (l l' : list A) :
  length l <= length l' ->
  (forall n, n < length l -> l' !! n = l !! n) ->
  l' = l ++ drop (length l) l'.
Proof.
  intros Hlen Hsame. rewrite <- (take_drop (length l) l') at 1. f_equal.
  apply list_eq. intros i. destruct (decide (i < length l)) as [Hlt|Hge].
  - rewrite lookup_take_lt by done. by apply Hsame.
  - rewrite lookup_take_ge by lia. symmetry. apply lookup_ge_None. lia.
Qed.

Lemma customer_body_new_documents d cu w w' :
  customer_body d cu tt w = (w', Returned tt) ->
  exists D,
    Document_objects w' = Document_objects w ++ D /\
    Forall (fun doc => document_customer doc = cu) D /\
    length D = documents_due should_be_billed d cu w.
Proof.
  intros Hrun.
  pose proof (customer_body_advances d cu w) as Hadv. rewrite Hrun in Hadv.
  destruct Hadv as (_ & _ & Hlen & Hold & _).
  pose proof (prefix_app _ _ Hlen Hold) as Happ.
  exists (drop (length (Document_objects w)) (Document_objects w')).
  split; [exact Happ|].
  assert (Hlook : forall i doc,
            drop (length (Document_objects w)) (Document_objects w') !! i
            = Some doc ->
            Document_objects w' !! (length (Document_objects w) + i)
            = Some doc).
  { intros i doc. by rewrite lookup_drop. }
  unfold documents_due, customer_body in *.
  destruct (consolidated_billing cu).
  - destruct (consolidated_path_exact cu d w w' Hrun)
      as (Hsize & E & _ & Hdocs & _).
    split; [|rewrite length_drop; lia].
    apply Forall_lookup. intros i doc Hi.
    pose proof (lookup_lt_Some _ _ _ Hi) as Hlt. rewrite length_drop in Hlt.
    apply Hlook in Hi.
    destruct (Hdocs (length (Document_objects w) + i)) as (doc' & Hd' & Hcu & _);
      [lia|].
    congruence.
  - destruct (separate_path_exact cu d w w' Hrun) as (Hsize & E & _ & Hdocs).
    split; [|rewrite length_drop; lia].
    apply Forall_lookup. intros i doc Hi.
    pose proof (lookup_lt_Some _ _ _ Hi) as Hlt. rewrite length_drop in Hlt.
    apply Hlook in Hi.
    destruct (lookup_lt_is_Some_2
                (due_for_billing d (active_or_canceled cu w)) i) as [sub Hsub];
      [lia|].
    destruct (Hdocs i sub Hsub) as (doc' & Hd' & _ & Hcu & _).
    congruence.
Qed.

Lemma filter_none {A} (P : A -> Prop) `{!forall x, Decision (P x)}
    (l : list A) :
  Forall (fun x => ~ P x) l -> filter P l = [].
Proof.
  induction 1 as [|x l Hx _ IH]; [done|]. by rewrite filter_cons_False.
Qed.

Lemma filter_all {A} (P : A -> Prop) `{!forall x, Decision (P x)}
    (l : list A) :
  Forall P l -> filter P l = l.
Proof.
  induction 1 as [|x l Hx _ IH]; [done|]. by rewrite filter_cons_True, IH.
Qed.

Lemma customers_loop_documents d customers w w' :
  NoDup (subscription_pk <$> Subscription_objects w) ->
  NoDup (customer_pk <$> customers) ->
  for_in customers (customer_body d) tt w = (w', Returned tt) ->
  exists D,
    Document_objects w' = Document_objects w ++ D /\
    Forall (fun doc => document_customer doc ∈ customers) D /\
    forall cu, cu ∈ customers ->
      length (filter (fun doc => document_customer doc = cu) D)
      = documents_due should_be_billed d cu w.
Proof.
  intros Hnd. revert w'.
  induction customers as [|cu pre IH] using rev_ind; intros w' Hcs Hrun.
  { simpl in Hrun. injection Hrun as <-. exists []. rewrite app_nil_r.
    split; [done|]. split; [constructor|].
    intros cu Hcu. by apply elem_of_nil in Hcu. }
  rewrite fmap_app in Hcs. apply NoDup_app in Hcs as (Hpre & Hother & _).
  assert (Hcu : customer_pk cu ∉ customer_pk <$> pre).
  { intros Hin. apply (Hother _ Hin). simpl. apply list_elem_of_here. }
  rewrite for_in_app in Hrun.
  destruct (for_in pre (customer_body d) tt w) as [w1 [[]|e]] eqn:Hrun1;
    [|done].
  simpl in Hrun. unfold bind in Hrun.
  destruct (customer_body d cu tt w1) as [w2 [[]|e]] eqn:Hrun2; [|done].
  injection Hrun as <-.
  destruct (IH w1 Hpre eq_refl) as (D1 & Hd1 & Hall1 & Hcount1).
  destruct (customer_body_new_documents d cu w1 w2 Hrun2)
    as (D2 & Hd2 & Hall2 & Hcount2).
  assert (Hsame : documents_due should_be_billed d cu w1
                  = documents_due should_be_billed d cu w).
  { unfold documents_due.
    by rewrite (customers_loop_other_subscriptions d pre cu w w1). }
  exists (D1 ++ D2). split; [by rewrite Hd2, Hd1, app_assoc|]. split.
  { apply Forall_app. split.
    - eapply Forall_impl; [exact Hall1|]. intros doc Hdoc.
      rewrite elem_of_app. by left.
    - eapply Forall_impl; [exact Hall2|]. intros doc ->.
      rewrite elem_of_app. right. apply list_elem_of_here. }
  intros c Hc. rewrite filter_app, length_app.
  apply elem_of_app in Hc as [Hc|Hc].
  - rewrite Hcount1 by done. rewrite (filter_none _ D2); [simpl; lia|].
    eapply Forall_impl; [exact Hall2|]. intros doc -> ->.
    apply Hcu. by apply list_elem_of_fmap_2.
  - apply list_elem_of_singleton in Hc as ->.
    rewrite (filter_all _ D2), Hcount2, Hsame by done.
    rewrite (filter_none _ D1); [done|].
    eapply Forall_impl; [exact Hall1|]. intros doc Hdoc Heq. simpl in *.
    rewrite Heq in Hdoc. apply Hcu. by apply list_elem_of_fmap_2.
Qed.

(** X10: in a full run that returns, over subscriptions with unique
    primary keys and customers with unique primary keys, the documents
    the run has created for a customer of the customers table are as many
    as the subscriptions table held reasons for when the run started: for
    a customer with consolidated billing one for each provider of an
    active or canceled subscription that is due for billing, for a
    customer without one for each such subscription; and every document
    the run has created is made out to a customer of that table. *)
Theorem documents_created_for_each_customer
    (w w' : World) (cu : Customer) :
  NoDup (subscription_pk <$> Subscription_objects w) ->
  NoDup (customer_pk <$> Customer_objects w) ->
  cu ∈ Customer_objects w ->
  generate should_be_billed now None w = (w', Returned tt) ->
  length (filter (fun doc => document_customer doc = cu)
            (drop (length (Document_objects w)) (Document_objects w')))
  = documents_due should_be_billed (first_of_month (now (clock_reads w)))
      cu w /\
  Forall (fun doc => document_customer doc ∈ Customer_objects w)
    (drop (length (Document_objects w)) (Document_objects w')).
Proof.
  intros Hnd Hcs Hcu. simpl. rewrite generate_all_eq. intros Hrun.
  destruct (customers_loop_documents _ _ (fst (timezone_now_date now w)) _
              Hnd Hcs Hrun) as (D & Hd & Hall & Hcount).
  simpl in Hd. rewrite Hd, drop_app_length. split; [|done].
  by rewrite Hcount.
Qed.

(** *** The log as a sequence of blocks *)

Section LogBlocks.

(** A property of logs that holds of each block of calls the generator
    makes and of the concatenation of logs it holds of. *)
Variable P : list Call -> Prop.
Hypothesis P_nil : P [].
Hypothesis P_app : forall l1 l2, P l1 -> P l2 -> P (l1 ++ l2).
Hypothesis P_now : P [TimezoneNow].
Hypothesis P_ask : forall s d, P [ShouldBeBilled s d].
Hypothesis P_create : forall n, P [CreateDocument n].
Hypothesis P_charge : forall d s n, P (charge_calls d s n).
Hypothesis P_issue : forall prov n, P (issue_calls prov n).

Lemma logs_refl w : logs P w w.
Proof. exists []. by rewrite app_nil_r. Qed.

Lemma logs_trans w1 w2 w3 : logs P w1 w2 -> logs P w2 w3 -> logs P w1 w3.
Proof.
  intros (L1 & H1 & P1) (L2 & H2 & P2). exists (L1 ++ L2).
  split; [by rewrite H2, H1, app_assoc|by apply P_app].
Qed.

Lemma logs_intro w w' L : calls w' = calls w ++ L -> P L -> logs P w w'.
Proof. intros. by exists L. Qed.

Lemma issue_loop_calls_blocks items : P (issue_loop_calls items).
Proof.
  induction items as [|it items IH]; [done|].
  change (issue_loop_calls (it :: items)) with
    (issue_calls (item_provider it) (item_pk it) ++ issue_loop_calls items).
  by apply P_app.
Qed.

Lemma separate_body_logs cu d sub w :
  logs P w (fst (separate_body cu d sub tt w)).
Proof.
  destruct (should_be_billed sub d) eqn:Hsbb.
  2: { rewrite separate_body_skip by done. by eapply logs_intro. }
  destruct (due_date_for d cu) as [e|due] eqn:Hdue.
  { rewrite (separate_body_raise _ _ _ _ e) by done. by eapply logs_intro. }
  destruct (separate_body_bill cu d sub w due Hsbb Hdue)
    as (w' & -> & _ & _ & _ & _ & _ & Hcalls).
  eapply logs_intro; [exact Hcalls|].
  apply (P_app [_]); [done|]. apply (P_app [_]); [done|]. by apply P_app.
Qed.

Lemma consolidated_body_logs cu d sub cache w :
  logs P w (fst (consolidated_body cu d sub cache w)).
Proof.
  destruct (should_be_billed sub d) eqn:Hsbb.
  2: { rewrite consolidated_body_skip by done. by eapply logs_intro. }
  destruct (cache !! provider_key sub) as [[prov doc]|] eqn:Hlook.
  { destruct (consolidated_body_hit cu d sub cache w prov doc Hsbb Hlook)
      as (w' & -> & _ & _ & _ & _ & _ & Hcalls).
    eapply logs_intro; [exact Hcalls|]. by apply (P_app [_]). }
  destruct (due_date_for d cu) as [e|due] eqn:Hdue.
  { rewrite (consolidated_body_raise _ _ _ _ _ e) by done.
    by eapply logs_intro. }
  destruct (consolidated_body_miss cu d sub cache w due Hsbb Hlook Hdue)
    as (w' & -> & _ & _ & _ & _ & _ & Hcalls).
  eapply logs_intro; [exact Hcalls|].
  apply (P_app [_]); [done|]. by apply (P_app [_]).
Qed.

Lemma customer_body_logs d cu w : logs P w (fst (customer_body d cu tt w)).
Proof.
  unfold customer_body. destruct (consolidated_billing cu).
  - rewrite consolidated_path_eq.
    pose proof (for_in_preserves (logs P) (active_or_canceled cu w)
                  (consolidated_body cu d) ∅ w logs_refl logs_trans
                  (consolidated_body_logs cu d)) as Hloop.
    destruct (for_in (active_or_canceled cu w) (consolidated_body cu d) ∅ w)
      as [w1 [cache|e]]; [|done].
    destruct (issue_loop_eq (map_to_list cache) w1)
      as (w' & -> & _ & _ & _ & _ & _ & Hcalls).
    eapply logs_trans; [exact Hloop|]. simpl.
    eapply logs_intro; [exact Hcalls|apply issue_loop_calls_blocks].
  - rewrite separate_path_eq.
    apply (for_in_preserves (logs P)); [apply logs_refl|apply logs_trans|].
    intros sub [] w1. apply separate_body_logs.
Qed.

Lemma generate_logs subscription w :
  logs P w (fst (generate should_be_billed now subscription w)).
Proof.
  apply (logs_trans _ (fst (timezone_now_date now w))).
  { by eapply logs_intro. }
  destruct subscription as [sub|]; simpl.
  - destruct (due_date_for (now (clock_reads w)) (customer sub))
      as [e|due] eqn:Hdue.
    { rewrite (single_raise _ _ e) by done. apply logs_refl. }
    destruct (single_bill sub w due Hdue)
      as (w' & -> & _ & _ & _ & _ & _ & Hcalls).
    eapply logs_intro.
    + simpl. rewrite Hcalls, <- app_assoc. reflexivity.
    + apply (P_app [_]); [done|]. by apply P_app.
  - rewrite generate_all_eq.
    apply (for_in_preserves (logs P)); [apply logs_refl|apply logs_trans|].
    intros cu [] w1. apply customer_body_logs.
Qed.

End LogBlocks.

Lemma issue_then_save_app p l1 l2 :
  issue_then_save p l1 -> issue_then_save None l2 ->
  issue_then_save p (l1 ++ l2).
Proof.
  revert p. induction l1 as [|c l1 IH]; intros p H1 H2; simpl in *.
  - by subst.
  - destruct p as [n|], c; try done; try (by apply IH).
    destruct H1 as [-> H1]. split; [done|]. by apply IH.
Qed.

Lemma issue_then_save_issue p l i n :
  issue_then_save p l -> l !! i = Some (IssueDocument n) ->
  l !! S i = Some (SaveDocument n).
Proof.
  revert p i. induction l as [|c l IH]; intros p i Hl Hi; [done|].
  destruct i as [|i].
  - simpl in Hi. injection Hi as ->. destruct p; [done|]. simpl in Hl.
    destruct l as [|c l]; [done|]. simpl in Hl.
    destruct c; try done. by destruct Hl as [-> _].
  - simpl in Hi. simpl in Hl.
    destruct p as [m|], c; try done;
      try (by apply (IH None i)); try (by apply (IH (Some pk) i)).
    destruct Hl as [_ Hl]. by apply (IH None i).
Qed.

Lemma issue_then_save_save p l i n :
  issue_then_save p l -> l !! i = Some (SaveDocument n) ->
  match i with
  | 0 => p = Some n
  | S j => l !! j = Some (IssueDocument n)
  end.
Proof.
  revert p i. induction l as [|c l IH]; intros p i Hl Hi; [done|].
  destruct i as [|i].
  - simpl in Hi. injection Hi as ->. simpl in Hl.
    destruct p; [|done]. destruct Hl as [-> _]. done.
  - simpl in Hi.
    assert (Hnext : exists q, issue_then_save q l /\
                      (q = Some n -> c = IssueDocument n)).
    { simpl in Hl. destruct p as [m|], c; try done.
      - destruct Hl as [_ Hl]. by exists None.
      - by exists None.
      - by exists None.
      - by exists None.
      - by exists None.
      - by exists None.
      - by exists None.
      - exists (Some pk). split; [done|]. by intros [= ->]. }
    destruct Hnext as (q & Hq & Hc).
    pose proof (IH q i Hq Hi) as Hi'.
    destruct i as [|j]; [|done]. simpl. f_equal. by apply Hc.
Qed.

(** X11: in the log of any run the saving of documents goes with their
    issuing: every [issue()] of a document is followed at once by the
    [save()] of the same document, and a document is saved only right
    after it has been issued; a document left in draft is not saved
    again. *)
Theorem document_saved_exactly_after_issue
    (subscription : option Subscription) (w : World) :
  exists L,
    calls (fst (generate should_be_billed now subscription w)) = calls w ++ L /\
    (forall i n, L !! i = Some (IssueDocument n) ->
                 L !! S i = Some (SaveDocument n)) /\
    (forall i n, L !! i = Some (SaveDocument n) ->
                 exists j, i = S j /\ L !! j = Some (IssueDocument n)).
Proof.
  destruct (generate_logs (issue_then_save None)) with
    (subscription := subscription) (w := w) as (L & HL & Hpaired).
  - done.
  - intros l1 l2. apply issue_then_save_app.
  - done.
  - done.
  - done.
  - intros d s n. unfold charge_calls. by destruct (String.eqb _ _).
  - intros prov n. unfold issue_calls. by destruct (String.eqb _ _).
  - exists L. split; [done|]. split.
    + intros i n Hi. by apply (issue_then_save_issue None L i n).
    + intros i n Hi.
      pose proof (issue_then_save_save None L i n Hpaired Hi) as Hprev.
      destruct i as [|j]; [done|]. by exists j.
Qed.

(** *** Consolidated billing when no two subscriptions share a provider *)

Lemma ended_in_turn_snoc subs sub rows :
  ended_in_turn (subs ++ [sub]) rows
  = saved_subscriptions sub (ended_in_turn subs rows).
Proof. unfold ended_in_turn. by rewrite foldl_snoc. Qed.

Lemma separate_loop_subscriptions cu d due subs w w' :
  due_date_for d cu = inr due ->
  for_in subs (separate_body cu d) tt w = (w', Returned tt) ->
  Subscription_objects w'
  = ended_in_turn (due_for_billing d subs) (Subscription_objects w).
Proof.
  intros Hdue Hrun.
  pose proof (for_in_rule
    (fun pre (_ : unit) w1 =>
       Subscription_objects w1
       = ended_in_turn (due_for_billing d pre) (Subscription_objects w))
    (fun _ _ => True) subs (separate_body cu d) tt w) as Hrule.
  rewrite Hrun in Hrule. apply Hrule; [done|].
  intros pre sub post [] w1 _ Hinv. rewrite due_for_billing_snoc.
  destruct (should_be_billed sub d) eqn:Hsbb.
  - destruct (separate_body_bill cu d sub w1 due Hsbb Hdue)
      as (w2 & -> & _ & _ & -> & _).
    by rewrite ended_in_turn_snoc, Hinv.
  - rewrite separate_body_skip by done. simpl. by rewrite app_nil_r.
Qed.

Lemma consolidated_loop_distinct cu d due subs w :
  due_date_for d cu = inr due ->
  NoDup (provider_key <$> due_for_billing d subs) ->
  exists w1 cache,
    for_in subs (consolidated_body cu d) ∅ w = (w1, Returned cache) /\
    Subscription_objects w1
    = ended_in_turn (due_for_billing d subs) (Subscription_objects w) /\
    Document_objects w1
    = Document_objects w
      ++ ((fun s => draft_row (provider (plan s)) cu due)
          <$> due_for_billing d subs) /\
    DocumentEntry_objects w1
    = DocumentEntry_objects w
      ++ imap (fun i s => charge_entry d s (length (Document_objects w) + i))
           (due_for_billing d subs) /\
    forall i s,
      due_for_billing d subs !! i = Some s ->
      cache !! provider_key s
      = Some (provider (plan s),
              {| document_pk := length (Document_objects w) + i;
                 document_fields := draft_row (provider (plan s)) cu due |}).
Proof.
  intros Hdue Hnd.
  pose (Inv := fun (pre : list Subscription)
                   (cache : gmap nat (Provider * DocumentInstance))
                   (w1 : World) =>
    Subscription_objects w1
    = ended_in_turn (due_for_billing d pre) (Subscription_objects w) /\
    Document_objects w1
    = Document_objects w
      ++ ((fun s => draft_row (provider (plan s)) cu due)
          <$> due_for_billing d pre) /\
    DocumentEntry_objects w1
    = DocumentEntry_objects w
      ++ imap (fun i s => charge_entry d s (length (Document_objects w) + i))
           (due_for_billing d pre) /\
    (forall i s,
       due_for_billing d pre !! i = Some s ->
       cache !! provider_key s
       = Some (provider (plan s),
               {| document_pk := length (Document_objects w) + i;
                  document_fields := draft_row (provider (plan s)) cu due |})) /\
    (forall k, k ∉ provider_key <$> due_for_billing d pre ->
               cache !! k = None)).
  assert (Hrun :
    match for_in subs (consolidated_body cu d) ∅ w with
    | (w1, Returned cache) => Inv subs cache w1
    | (_, Raised _) => False
    end).
  { apply (for_in_rule Inv (fun _ _ => False)).
    { unfold Inv. simpl. rewrite !app_nil_r. do 3 (split; [done|]).
      split; [intros i s Hi; by rewrite lookup_nil in Hi|].
      intros k _. apply lookup_empty. }
    intros pre sub post cache w1 Hsubs (Hrows & Hdocs & Hents & Hin & Hout).
    unfold Inv. rewrite due_for_billing_snoc.
    destruct (should_be_billed sub d) eqn:Hsbb.
    2: { rewrite consolidated_body_skip by done. simpl. by rewrite !app_nil_r. }
    assert (Hfresh : provider_key sub ∉ provider_key <$> due_for_billing d pre).
    { rewrite Hsubs in Hnd. unfold due_for_billing in Hnd.
      rewrite List.filter_app in Hnd. simpl in Hnd. rewrite Hsbb in Hnd.
      rewrite fmap_app, fmap_cons in Hnd.
      apply NoDup_app in Hnd as (_ & Hnot & _).
      intros Hk. apply (Hnot _ Hk). apply list_elem_of_here. }
    destruct (consolidated_body_miss cu d sub cache w1 due Hsbb
                (Hout _ Hfresh) Hdue)
      as (w2 & -> & _ & _ & -> & -> & -> & _).
    assert (Hlen : length (Document_objects w1)
                   = length (Document_objects w)
                     + length (due_for_billing d pre)).
    { by rewrite Hdocs, length_app, length_fmap. }
    rewrite ended_in_turn_snoc, Hrows. split; [done|].
    split. { by rewrite Hdocs, fmap_app, app_assoc. }
    split. { rewrite Hents, imap_app, <- app_assoc. simpl.
             by rewrite Hlen, Nat.add_0_r. }
    split.
    - intros i s Hi. apply lookup_snoc_Some in Hi as [[Hlt Hi]|[-> ->]].
      + rewrite lookup_insert_ne; [by apply Hin|].
        intros Heq. apply Hfresh. rewrite Heq.
        apply list_elem_of_fmap_2. by eapply list_elem_of_lookup_2.
      + by rewrite lookup_insert_eq, Hlen.
    - intros k Hk. rewrite fmap_app, elem_of_app in Hk.
      rewrite lookup_insert_ne.
      + apply Hout. intros ?. apply Hk. by left.
      + intros <-. apply Hk. right. apply list_elem_of_here. }
  destruct (for_in subs (consolidated_body cu d) ∅ w) as [w1 [cache|e]];
    [|done].
  destruct Hrun as (? & ? & ? & ? & _). by exists w1, cache.
Qed.

(** X12: consolidated billing makes a difference only when two
    subscriptions that are due share a provider.  For a customer whose
    due subscriptions all have different providers the two paths end the
    same way and leave the same subscriptions, documents and entries. *)
Theorem consolidation_matters_only_for_shared_providers
    (d : date) (cu : Customer) (w : World) :
  NoDup (provider_key <$> due_for_billing d (active_or_canceled cu w)) ->
  exists w1 w2 r,
    _generate_for_user_with_consolidated_billing should_be_billed cu d w
    = (w1, r) /\
    _generate_for_user_without_consolidated_billing should_be_billed cu d w
    = (w2, r) /\
    Subscription_objects w1 = Subscription_objects w2 /\
    Document_objects w1 = Document_objects w2 /\
    DocumentEntry_objects w1 = DocumentEntry_objects w2.
Proof.
  intros Hnd. rewrite consolidated_path_eq, separate_path_eq.
  destruct (due_date_for d cu) as [e|due] eqn:Hdue.
  { destruct (due_for_billing d (active_or_canceled cu w)) as [|s l] eqn:Hdue0.
    - apply none_due in Hdue0.
      rewrite consolidated_loop_skips, separate_loop_skips, map_to_list_empty
        by done.
      by eexists _, _, _.
    - destruct (first_due d (active_or_canceled cu w))
        as (skipped & sub & rest & -> & Hskip & Hsub).
      { by rewrite Hdue0. }
      rewrite (consolidated_loop_stops _ _ e), (separate_loop_stops _ _ e)
        by done.
      by eexists _, _, _. }
  destruct (consolidated_loop_distinct cu d due _ w Hdue Hnd)
    as (wl & cache & Hloop & Hrows & Hdocs & Hents & Hcache).
  destruct (consolidated_path_ok (fun _ => True) (fun _ => True) cu d due w
              Hdue) as (wl' & cache' & w1 & Hloop' & Hinv & Hpath & _ & _
                        & Hents1 & Hdocs1 & _); [done|done|].
  rewrite Hloop in Hloop'. injection Hloop' as <- <-.
  destruct (issue_loop_eq (map_to_list cache) wl)
    as (w1' & Hissue & _ & _ & Hrows1 & _).
  assert (w1' = w1) as ->.
  { rewrite consolidated_path_eq, Hloop in Hpath. congruence. }
  destruct (separate_loop_exact cu d due (active_or_canceled cu w) w Hdue)
    as (w2 & Hsep & Hdocs2 & Hents2).
  rewrite Hloop, Hissue, Hsep. exists w1, w2, (Returned tt).
  do 2 (split; [done|]). split.
  { rewrite Hrows1, Hrows.
    symmetry. by apply (separate_loop_subscriptions cu d due). }
  split; [|by rewrite Hents1, Hents, Hents2].
  rewrite Hdocs2. change (List.map ?f ?l) with (f <$> l).
  assert (Hlen : length (Document_objects w1)
                 = length (Document_objects w)
                   + length (due_for_billing d (active_or_canceled cu w))).
  { by rewrite Hdocs1, issue_rows_length, Hdocs, length_app, length_fmap. }
  pose proof (consolidated_path_advances_ok (fun _ => True) (fun _ => True)
                cu d due w Hdue) as Hadv.
  destruct Hadv as (w1'' & Hpath' & _ & _ & Hle & Hold & _); [done|done|].
  assert (w1'' = w1) as -> by congruence.
  rewrite (prefix_app _ _ Hle Hold) at 1. f_equal.
  apply list_eq. intros i. rewrite lookup_drop, list_lookup_fmap.
  destruct (due_for_billing d (active_or_canceled cu w) !! i) as [s|] eqn:Hi.
  - simpl. pose proof (Hcache i s Hi) as Hk.
    apply elem_of_map_to_list in Hk.
    pose proof (consolidated_final_row _ _ _ _ _ _ _ _ _ _ Hinv Hk) as Hrow.
    by rewrite <- Hdocs1 in Hrow.
  - simpl. apply lookup_ge_None. apply lookup_ge_None in Hi. lia.
Qed.

(** *** The billing date of a full run *)

(** X13: the billing date of a full run, built from the year and the
    month of the day the clock shows and the day 1, is a date whenever
    that day is one, so the constructor does not raise; it lies in the
    past of that day by the day of the month less one, hence is never
    later than the day of the run. *)
Theorem billing_date_is_a_date_not_after_today (today : date) :
  valid_date today = true ->
  valid_date (first_of_month today) = true /\
  (toordinal (first_of_month today) = toordinal today - (day today - 1) /\
   toordinal (first_of_month today) <= toordinal today)%Z.
Proof.
  intros Hvalid. split; [by apply DatetimeFacts.first_of_month_valid|].
  unfold valid_date, _check_date_fields in Hvalid.
  repeat (apply andb_prop in Hvalid as [Hvalid ?]).
  assert (1 <= day today)%Z by by apply Z.leb_le.
  unfold toordinal, first_of_month, _ymd2ord. simpl. lia.
Qed.

(** *** The run and the documents that are already there *)

Section Grafted.

Variable P : list Document.
Variable Q : list DocumentEntry.
Variable R : list Call.

Lemma charge_calls_shift d sub n :
  shift_call (length P) <$> charge_calls d sub n
  = charge_calls d sub (length P + n).
Proof. unfold charge_calls. by destruct (String.eqb _ _). Qed.

Lemma issue_calls_shift prov n :
  shift_call (length P) <$> issue_calls prov n
  = issue_calls prov (length P + n).
Proof. unfold issue_calls. by destruct (String.eqb _ _). Qed.

Lemma grafted_log c u w :
  grafted P Q R u w ->
  shift_call (length P) c = c ->
  grafted P Q R (fst (log c u)) (fst (log c w)).
Proof.
  intros (? & ? & ? & ? & ? & Hcalls) Hc. do 5 (split; [done|]). simpl.
  by rewrite Hcalls, fmap_app, <- app_assoc, fmap_cons, Hc.
Qed.

Lemma for_in_grafted {A S} (f : S -> S) (l : list A) (body : A -> S -> M S)
    acc u w :
  (forall x a u1 w1,
     grafted P Q R u1 w1 ->
     grafted P Q R (fst (body x a u1)) (fst (body x (f a) w1)) /\
     snd (body x (f a) w1) = outcome_map f (snd (body x a u1))) ->
  grafted P Q R u w ->
  grafted P Q R (fst (for_in l body acc u)) (fst (for_in l body (f acc) w)) /\
  snd (for_in l body (f acc) w) = outcome_map f (snd (for_in l body acc u)).
Proof.
  intros Hbody. revert acc u w.
  induction l as [|x l IH]; intros acc u w Hg; [done|].
  simpl. unfold bind. destruct (Hbody x acc u w Hg) as [Hg1 Hr1].
  destruct (body x acc u) as [u1 [a1|e]], (body x (f acc) w) as [w1 [b1|e']];
    simpl in *; try done.
  injection Hr1 as ->. by apply IH.
Qed.

Lemma separate_body_grafted cu d sub u w :
  grafted P Q R u w ->
  grafted P Q R (fst (separate_body cu d sub tt u))
    (fst (separate_body cu d sub tt w)) /\
  snd (separate_body cu d sub tt w)
  = outcome_map (fun a => a) (snd (separate_body cu d sub tt u)).
Proof.
  intros Hg. destruct (should_be_billed sub d) eqn:Hsbb.
  2: { rewrite !separate_body_skip by done. split; [|done].
       by apply grafted_log. }
  destruct (due_date_for d cu) as [e|due] eqn:Hdue.
  { rewrite !(separate_body_raise _ _ _ _ e) by done. split; [|done].
    by apply grafted_log. }
  destruct (separate_body_bill cu d sub u due Hsbb Hdue)
    as (u' & -> & Hc & Hcu & Hs & Hd & He & Hl).
  destruct (separate_body_bill cu d sub w due Hsbb Hdue)
    as (w' & -> & Hc' & Hcu' & Hs' & Hd' & He' & Hl').
  destruct Hg as (Gc & Gcu & Gs & Gd & Ge & Gl).
  split; [|done]. simpl. unfold grafted.
  rewrite Hc', Hc, Hcu', Hcu, Hs', Hs, Hd', Hd, He', He, Hl', Hl.
  rewrite Gc, Gcu, Gs, Gd, Ge, Gl, length_app.
  do 3 (split; [done|]). split; [by rewrite app_assoc|].
  split; [by rewrite fmap_app, app_assoc|].
  rewrite fmap_app, !fmap_cons, fmap_app, charge_calls_shift,
    issue_calls_shift.
  by rewrite app_assoc.
Qed.

Lemma consolidated_body_grafted cu d sub cache u w :
  grafted P Q R u w ->
  grafted P Q R (fst (consolidated_body cu d sub cache u))
    (fst (consolidated_body cu d sub (shift_cache (length P) cache) w)) /\
  snd (consolidated_body cu d sub (shift_cache (length P) cache) w)
  = outcome_map (shift_cache (length P))
      (snd (consolidated_body cu d sub cache u)).
Proof.
  intros Hg. destruct (should_be_billed sub d) eqn:Hsbb.
  2: { rewrite !consolidated_body_skip by done. split; [|done].
       by apply grafted_log. }
  destruct (cache !! provider_key sub) as [[prov doc]|] eqn:Hlook.
  { assert (Hlook' : shift_cache (length P) cache !! provider_key sub
                     = Some (prov, shift_document (length P) doc)).
    { unfold shift_cache. by rewrite lookup_fmap, Hlook. }
    destruct (consolidated_body_hit cu d sub cache u prov doc Hsbb Hlook)
      as (u' & -> & Hc & Hcu & Hs & Hd & He & Hl).
    destruct (consolidated_body_hit cu d sub _ w prov _ Hsbb Hlook')
      as (w' & -> & Hc' & Hcu' & Hs' & Hd' & He' & Hl').
    destruct Hg as (Gc & Gcu & Gs & Gd & Ge & Gl).
    split; [|done]. simpl. unfold grafted.
    rewrite Hc', Hc, Hcu', Hcu, Hs', Hs, Hd', Hd, He', He, Hl', Hl.
    rewrite Gc, Gcu, Gs, Gd, Ge, Gl.
    do 4 (split; [done|]).
    split; [by rewrite fmap_app, app_assoc|].
    rewrite fmap_app, !fmap_cons, charge_calls_shift.
    by rewrite app_assoc. }
  assert (Hlook' : shift_cache (length P) cache !! provider_key sub = None).
  { unfold shift_cache. by rewrite lookup_fmap, Hlook. }
  destruct (due_date_for d cu) as [e|due] eqn:Hdue.
  { rewrite !(consolidated_body_raise _ _ _ _ _ e) by done. split; [|done].
    by apply grafted_log. }
  destruct (consolidated_body_miss cu d sub cache u due Hsbb Hlook Hdue)
    as (u' & -> & Hc & Hcu & Hs & Hd & He & Hl).
  destruct (consolidated_body_miss cu d sub _ w due Hsbb Hlook' Hdue)
    as (w' & -> & Hc' & Hcu' & Hs' & Hd' & He' & Hl').
  destruct Hg as (Gc & Gcu & Gs & Gd & Ge & Gl).
  split.
  - simpl. unfold grafted.
    rewrite Hc', Hc, Hcu', Hcu, Hs', Hs, Hd', Hd, He', He, Hl', Hl.
    rewrite Gc, Gcu, Gs, Gd, Ge, Gl, length_app.
    do 3 (split; [done|]). split; [by rewrite app_assoc|].
    split; [by rewrite fmap_app, app_assoc|].
    rewrite fmap_app, !fmap_cons, charge_calls_shift.
    by rewrite app_assoc.
  - simpl. unfold shift_cache. rewrite fmap_insert. simpl.
    unfold shift_document at 2. simpl. by rewrite Gd, length_app.
Qed.

Lemma outcome_map_id {A} (r : Outcome A) : outcome_map (fun a => a) r = r.
Proof. by destruct r. Qed.

Lemma shift_cache_empty k : shift_cache k ∅ = ∅.
Proof. apply fmap_empty. Qed.

Lemma issue_loop_grafted items u w :
  grafted P Q R u w ->
  grafted P Q R (fst (for_in items issue_body tt u))
    (fst (for_in (prod_map id (prod_map id (shift_document (length P)))
                  <$> items) issue_body tt w)).
Proof.
  revert u w. induction items as [|[k [prov doc]] items IH]; intros u w Hg;
    [done|].
  rewrite fmap_cons. simpl. unfold bind, issue_body at 1 3. simpl.
  destruct (String.eqb (default_document_state prov) "issued"); [|by apply IH].
  unfold document_issue, document_save, bind, log, ret. simpl.
  apply IH. destruct Hg as (Gc & Gcu & Gs & Gd & Ge & Gl).
  unfold grafted. simpl. do 3 (split; [done|]).
  split.
  { rewrite Gd. apply insert_app_r. }
  split; [done|].
  by rewrite Gl, !fmap_app, <- !app_assoc.
Qed.

Lemma customer_body_grafted d cu u w :
  grafted P Q R u w ->
  grafted P Q R (fst (customer_body d cu tt u))
    (fst (customer_body d cu tt w)) /\
  snd (customer_body d cu tt w)
  = outcome_map (fun a => a) (snd (customer_body d cu tt u)).
Proof.
  intros Hg.
  assert (Hsubs : active_or_canceled cu w = active_or_canceled cu u).
  { unfold active_or_canceled. by destruct Hg as (_ & _ & -> & _). }
  unfold customer_body. destruct (consolidated_billing cu).
  - rewrite !consolidated_path_eq, Hsubs.
    pose proof (for_in_grafted (shift_cache (length P))
                  (active_or_canceled cu u) (consolidated_body cu d) ∅ u w
                  (fun sub cache u1 w1 =>
                     consolidated_body_grafted cu d sub cache u1 w1) Hg)
      as [Hloop Hres].
    rewrite shift_cache_empty in Hloop, Hres.
    destruct (for_in (active_or_canceled cu u) (consolidated_body cu d) ∅ u)
      as [u1 [cache|e]],
      (for_in (active_or_canceled cu u) (consolidated_body cu d) ∅ w)
      as [w1 [cache'|e']]; simpl in Hloop, Hres; try done.
    2: { by destruct e, e'. }
    injection Hres as ->.
    unfold shift_cache. rewrite map_to_list_fmap.
    pose proof (issue_loop_grafted (map_to_list cache) u1 w1 Hloop) as Hissue.
    destruct (issue_loop_eq (map_to_list cache) u1) as (u' & Hu & _).
    destruct (issue_loop_eq
                (prod_map id (prod_map id (shift_document (length P)))
                 <$> map_to_list cache) w1) as (w' & Hw & _).
    rewrite Hu, Hw in Hissue. by rewrite Hu, Hw.
  - rewrite !separate_path_eq, Hsubs.
    apply (for_in_grafted (fun a => a)); [|done].
    intros sub [] u1 w1. apply separate_body_grafted.
Qed.

(** X14: the generator does not read the documents table, the entries
    table or what has been logged.  A run started with documents and
    entries already in these tables ends as the run started without them
    does and leaves the same subscriptions; it creates the same documents
    behind those already there, adds the same entries, which point to the
    new positions, and makes the same calls, so the documents and entries
    that exist have no influence on what is billed. *)
Theorem run_does_not_look_at_documents_or_entries
    (subscription : option Subscription) (u w : World) :
  grafted P Q R u w ->
  grafted P Q R (fst (generate should_be_billed now subscription u))
    (fst (generate should_be_billed now subscription w)) /\
  snd (generate should_be_billed now subscription w)
  = snd (generate should_be_billed now subscription u).
Proof.
  intros Hg.
  assert (Hnow : grafted P Q R (fst (timezone_now_date now u))
                   (fst (timezone_now_date now w))).
  { destruct Hg as (Gc & Gcu & Gs & Gd & Ge & Gl).
    unfold grafted. simpl. rewrite Gc. do 5 (split; [done|]).
    by rewrite Gl, fmap_app, <- app_assoc. }
  assert (Hclock : clock_reads w = clock_reads u) by by destruct Hg.
  destruct subscription as [sub|]; simpl.
  - destruct (due_date_for (now (clock_reads u)) (customer sub))
      as [e|due] eqn:Hdue.
    { rewrite (single_raise sub u e), (single_raise sub w e)
        by by rewrite ?Hclock. done. }
    destruct (single_bill sub u due Hdue)
      as (u' & -> & Hc & Hcu & Hs & Hd & He & Hl).
    destruct (single_bill sub w due)
      as (w' & -> & Hc' & Hcu' & Hs' & Hd' & He' & Hl').
    { by rewrite Hclock. }
    destruct Hg as (Gc & Gcu & Gs & Gd & Ge & Gl).
    split; [|done]. simpl. unfold grafted.
    rewrite Hc', Hc, Hcu', Hcu, Hs', Hs, Hd', Hd, He', He, Hl', Hl.
    rewrite Gc, Gcu, Gs, Gd, Ge, Gl, length_app.
    do 3 (split; [done|]). split; [by rewrite app_assoc|].
    split; [by rewrite fmap_app, app_assoc|].
    rewrite fmap_app, !fmap_cons, fmap_app, charge_calls_shift,
      issue_calls_shift.
    by rewrite app_assoc.
  - rewrite !generate_all_eq, Hclock.
    assert (Customer_objects w = Customer_objects u) as ->
      by by destruct Hg as (_ & ? & _).
    destruct (for_in_grafted (fun a => a) (Customer_objects u)
                (customer_body (first_of_month (now (clock_reads u)))) tt
                (fst (timezone_now_date now u)) (fst (timezone_now_date now w)))
      as [Hrun Hres]; [|done|].
    { intros cu [] u1 w1. apply customer_body_grafted. }
    split; [done|]. rewrite Hres. apply outcome_map_id.
Qed.

End Grafted.

(** *** The creation of a document *)

(** X15: [_create_document] succeeds exactly when the payment due days
    of the customer fit a [timedelta] and lead from the billing date to a
    day [date] can hold.  It then appends one draft to the documents
    table, of the kind that goes with the provider's flow, for the given
    provider and customer and due on the day that many days after the
    billing date, and returns it with the position it was given; the
    subscription it is passed plays no part.  Otherwise it raises
    OverflowError and nothing has been written or logged. *)
Theorem create_document_contract
    (prov : Provider) (cu : Customer) (sub : Subscription) (d : date)
    (w : World) :
  (representable d cu ->
   exists due,
     toordinal due = (toordinal d + payment_due_days cu)%Z /\
     _create_document prov cu sub d w
     = (set_tables w (Subscription_objects w)
          (Document_objects w
           ++ [{| document_model := model_corresponding_to_default_flow prov;
                  document_provider := prov; document_customer := cu;
                  due_date := due; document_state := "draft" |}])
          (DocumentEntry_objects w)
          (CreateDocument (length (Document_objects w))),
        Returned
          {| document_pk := length (Document_objects w);
             document_fields :=
               {| document_model := model_corresponding_to_default_flow prov;
                  document_provider := prov; document_customer := cu;
                  due_date := due; document_state := "draft" |} |})) /\
  (~ representable d cu ->
   _create_document prov cu sub d w = (w, Raised OverflowError)).
Proof.
  rewrite create_document_eq. split.
  - intros Hrep. apply due_date_for_representable in Hrep as [due Hdue].
    rewrite Hdue. exists due. split; [|done].
    unfold due_date_for, timedelta_of_days in Hdue.
    destruct (Z.abs (payment_due_days cu) <=? 999999999)%Z; [|done].
    by apply DatetimeFacts.date_add_toordinal in Hdue.
  - intros Hnot. destruct (due_date_for d cu) as [[]|due] eqn:Hdue; [done|].
    exfalso. apply Hnot, due_date_for_representable. by exists due.
Qed.

(** *** Who is asked and who is charged *)

Lemma asked_app L1 L2 :
  asked_subscriptions (L1 ++ L2)
  = asked_subscriptions L1 ++ asked_subscriptions L2.
Proof. apply bind_app. Qed.

Lemma charged_app L1 L2 :
  charged_subscriptions (L1 ++ L2)
  = charged_subscriptions L1 ++ charged_subscriptions L2.
Proof. apply bind_app. Qed.

Lemma asked_charge_calls d sub n :
  asked_subscriptions (charge_calls d sub n) = [].
Proof. unfold charge_calls. by destruct (String.eqb _ _). Qed.

Lemma charged_charge_calls d sub n :
  charged_subscriptions (charge_calls d sub n) = [sub].
Proof. unfold charge_calls. by destruct (String.eqb _ _). Qed.

Lemma asked_issue_calls prov n : asked_subscriptions (issue_calls prov n) = [].
Proof. unfold issue_calls. by destruct (String.eqb _ _). Qed.

Lemma charged_issue_calls prov n :
  charged_subscriptions (issue_calls prov n) = [].
Proof. unfold issue_calls. by destruct (String.eqb _ _). Qed.

Lemma asked_issue_loop_calls items :
  asked_subscriptions (issue_loop_calls items) = [].
Proof.
  induction items as [|it items IH]; [done|].
  change (issue_loop_calls (it :: items)) with
    (issue_calls (item_provider it) (item_pk it) ++ issue_loop_calls items).
  by rewrite asked_app, asked_issue_calls, IH.
Qed.

Lemma charged_issue_loop_calls items :
  charged_subscriptions (issue_loop_calls items) = [].
Proof.
  induction items as [|it items IH]; [done|].
  change (issue_loop_calls (it :: items)) with
    (issue_calls (item_provider it) (item_pk it) ++ issue_loop_calls items).
  by rewrite charged_app, charged_issue_calls, IH.
Qed.

Lemma entries_of_calls_subscriptions L :
  entry_subscription <$> (L ≫= call_entry) = charged_subscriptions L.
Proof.
  unfold charged_subscriptions. induction L as [|c L IH]; [done|].
  rewrite !bind_cons, fmap_app, IH. by destruct c.
Qed.

Lemma asks_step d pre sub w w1 w2 L2 :
  (exists L, calls w1 = calls w ++ L /\
             asked_subscriptions L = pre /\
             charged_subscriptions L = due_for_billing d pre) ->
  calls w2 = calls w1 ++ L2 ->
  asked_subscriptions L2 = [sub] ->
  charged_subscriptions L2 = (if should_be_billed sub d then [sub] else []) ->
  exists L, calls w2 = calls w ++ L /\
            asked_subscriptions L = pre ++ [sub] /\
            charged_subscriptions L = due_for_billing d (pre ++ [sub]).
Proof.
  intros (L & HL & Hasked & Hcharged) H2 Ha2 Hc2. exists (L ++ L2).
  split; [by rewrite H2, HL, app_assoc|].
  rewrite asked_app, charged_app, due_for_billing_snoc.
  by rewrite Hasked, Hcharged, Ha2, Hc2.
Qed.

Lemma separate_loop_asks cu d subs w :
  match for_in subs (separate_body cu d) tt w with
  | (w', Returned _) =>
      exists L, calls w' = calls w ++ L /\
                asked_subscriptions L = subs /\
                charged_subscriptions L = due_for_billing d subs
  | (_, Raised _) => True
  end.
Proof.
  apply (for_in_rule
    (fun pre (_ : unit) w1 =>
       exists L, calls w1 = calls w ++ L /\
                 asked_subscriptions L = pre /\
                 charged_subscriptions L = due_for_billing d pre)
    (fun _ _ => True)).
  { exists []. by rewrite app_nil_r. }
  intros pre sub post [] w1 _ Hinv.
  destruct (should_be_billed sub d) eqn:Hsbb.
  2: { rewrite separate_body_skip by done.
       eapply (asks_step d pre sub w w1); [done|reflexivity|done|].
       by rewrite Hsbb. }
  destruct (due_date_for d cu) as [e|due] eqn:Hdue.
  { by rewrite (separate_body_raise _ _ _ _ e). }
  destruct (separate_body_bill cu d sub w1 due Hsbb Hdue)
    as (w2 & -> & _ & _ & _ & _ & _ & Hcalls).
  eapply (asks_step d pre sub w w1); [done|exact Hcalls| |].
  - change (?c :: ?c' :: ?l) with ([c; c'] ++ l).
    by rewrite !asked_app, asked_charge_calls, asked_issue_calls.
  - change (?c :: ?c' :: ?l) with ([c; c'] ++ l).
    by rewrite !charged_app, charged_charge_calls, charged_issue_calls, Hsbb.
Qed.

Lemma consolidated_loop_asks cu d subs w :
  match for_in subs (consolidated_body cu d) ∅ w with
  | (w', Returned _) =>
      exists L, calls w' = calls w ++ L /\
                asked_subscriptions L = subs /\
                charged_subscriptions L = due_for_billing d subs
  | (_, Raised _) => True
  end.
Proof.
  apply (for_in_rule
    (fun pre (_ : gmap nat (Provider * DocumentInstance)) w1 =>
       exists L, calls w1 = calls w ++ L /\
                 asked_subscriptions L = pre /\
                 charged_subscriptions L = due_for_billing d pre)
    (fun _ _ => True)).
  { exists []. by rewrite app_nil_r. }
  intros pre sub post cache w1 _ Hinv.
  destruct (should_be_billed sub d) eqn:Hsbb.
  2: { rewrite consolidated_body_skip by done.
       eapply (asks_step d pre sub w w1); [done|reflexivity|done|].
       by rewrite Hsbb. }
  destruct (cache !! provider_key sub) as [[prov doc]|] eqn:Hlook.
  { destruct (consolidated_body_hit cu d sub cache w1 prov doc Hsbb Hlook)
      as (w2 & -> & _ & _ & _ & _ & _ & Hcalls).
    eapply (asks_step d pre sub w w1); [done|exact Hcalls| |].
    - change (?c :: ?l) with ([c] ++ l).
      by rewrite asked_app, asked_charge_calls.
    - change (?c :: ?l) with ([c] ++ l).
      by rewrite charged_app, charged_charge_calls, Hsbb. }
  destruct (due_date_for d cu) as [e|due] eqn:Hdue.
  { by rewrite (consolidated_body_raise _ _ _ _ _ e). }
  destruct (consolidated_body_miss cu d sub cache w1 due Hsbb Hlook Hdue)
    as (w2 & -> & _ & _ & _ & _ & _ & Hcalls).
  eapply (asks_step d pre sub w w1); [done|exact Hcalls| |].
  - change (?c :: ?c' :: ?l) with ([c; c'] ++ l).
    by rewrite asked_app, asked_charge_calls.
  - change (?c :: ?c' :: ?l) with ([c; c'] ++ l).
    by rewrite charged_app, charged_charge_calls, Hsbb.
Qed.

Lemma customer_body_asks d cu w w' :
  customer_body d cu tt w = (w', Returned tt) ->
  exists L,
    calls w' = calls w ++ L /\
    asked_subscriptions L = active_or_canceled cu w /\
    charged_subscriptions L = due_for_billing d (active_or_canceled cu w).
Proof.
  unfold customer_body. destruct (consolidated_billing cu).
  - rewrite consolidated_path_eq.
    pose proof (consolidated_loop_asks cu d (active_or_canceled cu w) w)
      as Hloop.
    destruct (for_in (active_or_canceled cu w) (consolidated_body cu d) ∅ w)
      as [w1 [cache|e]]; [|done].
    destruct Hloop as (L & HL & Hasked & Hcharged).
    destruct (issue_loop_eq (map_to_list cache) w1)
      as (w2 & -> & _ & _ & _ & _ & _ & Hcalls).
    intros [= <-]. exists (L ++ issue_loop_calls (map_to_list cache)).
    split; [by rewrite Hcalls, HL, app_assoc|].
    rewrite asked_app, charged_app, asked_issue_loop_calls,
      charged_issue_loop_calls, !app_nil_r.
    done.
  - rewrite separate_path_eq.
    pose proof (separate_loop_asks cu d (active_or_canceled cu w) w) as Hloop.
    destruct (for_in (active_or_canceled cu w) (separate_body cu d) tt w)
      as [w1 [[]|e]]; [|done].
    by intros [= <-].
Qed.

Lemma customers_loop_asks d customers w w' :
  NoDup (subscription_pk <$> Subscription_objects w) ->
  NoDup (customer_pk <$> customers) ->
  for_in customers (customer_body d) tt w = (w', Returned tt) ->
  exists L,
    calls w' = calls w ++ L /\
    asked_subscriptions L
    = (customers ≫= fun cu => active_or_canceled cu w) /\
    charged_subscriptions L
    = (customers ≫= fun cu => due_for_billing d (active_or_canceled cu w)).
Proof.
  intros Hnd. revert w'.
  induction customers as [|cu pre IH] using rev_ind; intros w' Hcs Hrun.
  { simpl in Hrun. injection Hrun as <-. exists []. by rewrite app_nil_r. }
  rewrite fmap_app in Hcs. apply NoDup_app in Hcs as (Hpre & Hother & _).
  assert (Hcu : customer_pk cu ∉ customer_pk <$> pre).
  { intros Hin. apply (Hother _ Hin). simpl. apply list_elem_of_here. }
  rewrite for_in_app in Hrun.
  destruct (for_in pre (customer_body d) tt w) as [w1 [[]|e]] eqn:Hrun1;
    [|done].
  simpl in Hrun. unfold bind in Hrun.
  destruct (customer_body d cu tt w1) as [w2 [[]|e]] eqn:Hrun2; [|done].
  injection Hrun as <-.
  destruct (IH w1 Hpre eq_refl) as (L1 & HL1 & Hasked1 & Hcharged1).
  destruct (customer_body_asks d cu w1 w2 Hrun2)
    as (L2 & HL2 & Hasked2 & Hcharged2).
  rewrite (customers_loop_other_subscriptions d pre cu w w1 Hnd Hcu Hrun1)
    in Hasked2, Hcharged2.
  exists (L1 ++ L2). split; [by rewrite HL2, HL1, app_assoc|].
  rewrite asked_app, charged_app, !bind_app, Hasked1, Hcharged1, Hasked2,
    Hcharged2.
  simpl. by rewrite !app_nil_r.
Qed.

(** X16: in a full run that returns, over subscriptions with unique
    primary keys and customers with unique primary keys, every customer
    of the customers table is gone through in order and every active or
    canceled subscription the customer had when the run started is asked
    once, in the order of the query, whether it should be billed; the
    subscriptions charged are those for which the answer is yes, once
    each and in the same order, and the entries the run adds are these
    charges. *)
Theorem full_run_asks_all_and_charges_the_due (w w' : World) :
  NoDup (subscription_pk <$> Subscription_objects w) ->
  NoDup (customer_pk <$> Customer_objects w) ->
  generate should_be_billed now None w = (w', Returned tt) ->
  exists E L,
    DocumentEntry_objects w' = DocumentEntry_objects w ++ E /\
    calls w' = calls w ++ TimezoneNow :: L /\
    asked_subscriptions L
    = (Customer_objects w ≫= fun cu => active_or_canceled cu w) /\
    charged_subscriptions L
    = (Customer_objects w ≫= fun cu =>
         due_for_billing (first_of_month (now (clock_reads w)))
           (active_or_canceled cu w)) /\
    entry_subscription <$> E = charged_subscriptions L.
Proof.
  intros Hnd Hcs Hrun.
  pose proof (generate_in_step None w) as (E & L' & HE & HL' & HEL).
  rewrite Hrun in HE, HL'. simpl in HE, HL'.
  simpl in Hrun. rewrite generate_all_eq in Hrun.
  destruct (customers_loop_asks _ _ (fst (timezone_now_date now w)) _
              Hnd Hcs Hrun) as (L & HL & Hasked & Hcharged).
  simpl in HL. rewrite <- app_assoc in HL.
  assert (L' = TimezoneNow :: L) as ->.
  { apply (app_inv_head (calls w)). by rewrite <- HL', HL. }
  exists E, L. do 4 (split; [done|]).
  by rewrite HEL, entries_of_calls_subscriptions.
Qed.

(** *** The order in which the cached documents are gone through *)

Lemma issue_rows_perm items items' rows :
  items ≡ₚ items' -> NoDup (item_pk <$> items) ->
  issue_rows items rows = issue_rows items' rows.
Proof.
  intros Hperm. revert rows.
  induction Hperm as [|x l l' Hp IH|x y l|l1 l2 l3 H12 IH12 H23 IH23];
    intros rows Hnd.
  - done.
  - rewrite fmap_cons in Hnd. apply NoDup_cons in Hnd as [_ Hnd].
    unfold issue_rows in *. simpl. by apply IH.
  - rewrite !fmap_cons in Hnd. apply NoDup_cons in Hnd as [Hne _].
    assert (item_pk y <> item_pk x) as Hxy.
    { intros Heq. apply Hne. rewrite Heq. apply list_elem_of_here. }
    unfold issue_rows, item_pk in *. simpl.
    destruct (String.eqb (default_document_state (fst (snd y))) "issued");
      destruct (String.eqb (default_document_state (fst (snd x))) "issued");
      try done.
    by rewrite list_insert_insert_ne.
  - rewrite IH12 by done. apply IH23. by rewrite <- H12.
Qed.

Lemma issue_loop_calls_perm items items' :
  items ≡ₚ items' -> issue_loop_calls items ≡ₚ issue_loop_calls items'.
Proof. unfold issue_loop_calls. by intros ->. Qed.

(** X17: the order in which the cached documents are gone through after
    the loop of a customer with consolidated billing does not matter for
    what is left behind.  Whatever order [iteritems] gives the documents
    in, the pass returns, issues the same documents and leaves the tables
    the pass that takes them in the order of the keys leaves; the calls
    are the same, the pair of [issue()] and [save()] of each document
    kept together, in the order in which the documents were taken. *)
Theorem issuing_order_does_not_matter
    (d : date) (cu : Customer) (w : World)
    (cache : gmap nat (Provider * DocumentInstance))
    (items : list (nat * (Provider * DocumentInstance))) :
  snd (for_in (active_or_canceled cu w) (consolidated_body cu d) ∅ w)
  = Returned cache ->
  items ≡ₚ map_to_list cache ->
  exists w1 w' w'',
    for_in (active_or_canceled cu w) (consolidated_body cu d) ∅ w
    = (w1, Returned cache) /\
    for_in items issue_body tt w1 = (w', Returned tt) /\
    _generate_for_user_with_consolidated_billing should_be_billed cu d w
    = (w'', Returned tt) /\
    clock_reads w' = clock_reads w'' /\
    Customer_objects w' = Customer_objects w'' /\
    Subscription_objects w' = Subscription_objects w'' /\
    Document_objects w' = Document_objects w'' /\
    DocumentEntry_objects w' = DocumentEntry_objects w'' /\
    calls w' = calls w1 ++ issue_loop_calls items /\
    calls w'' = calls w1 ++ issue_loop_calls (map_to_list cache) /\
    issue_loop_calls items ≡ₚ issue_loop_calls (map_to_list cache).
Proof.
  intros Hres Hperm.
  destruct (for_in (active_or_canceled cu w) (consolidated_body cu d) ∅ w)
    as [w1 r] eqn:Hloop.
  simpl in Hres. subst r.
  assert (Hnd : NoDup (item_pk <$> map_to_list cache)).
  { destruct (due_date_for d cu) as [e|due] eqn:Hdue.
    - destruct (consolidated_loop_overflow_returned _ _ _ _ _ _ _ Hdue Hloop)
        as (-> & _).
      rewrite map_to_list_empty. constructor.
    - destruct (consolidated_loop_ok (fun _ => True) (fun _ => True) cu d due
                  (active_or_canceled cu w) w Hdue)
        as (w1' & cache' & Hloop' & Hinv); [done|done|].
      rewrite Hloop in Hloop'. injection Hloop' as <- <-.
      by destruct (cache_items _ _ _ _ _ _ _ _ _ Hinv) as (? & _). }
  destruct (issue_loop_eq items w1)
    as (w' & Hrun' & Hc' & Hcu' & Hs' & He' & Hd' & Hl').
  destruct (issue_loop_eq (map_to_list cache) w1)
    as (w'' & Hrun'' & Hc'' & Hcu'' & Hs'' & He'' & Hd'' & Hl'').
  exists w1, w', w''. split; [done|]. split; [done|].
  split. { by rewrite consolidated_path_eq, Hloop. }
  rewrite Hc', Hc'', Hcu', Hcu'', Hs', Hs'', He', He'', Hd', Hd''.
  do 3 (split; [done|]).
  split. { symmetry. apply issue_rows_perm; [by symmetry|done]. }
  split; [done|]. split; [done|]. split; [done|].
  by apply issue_loop_calls_perm.
Qed.

End Properties.

(** ** The claims on the example database *)

Import Example.

Lemma example_due_dates :
  forall c, c ∈ Customer_objects two_customers ->
    exists delta due,
      timedelta_of_days (payment_due_days c) = inr delta /\
      date_add (first_of_month (now (clock_reads two_customers))) delta
      = inr due.
Proof.
  intros c Hc. simpl in Hc.
  apply elem_of_cons in Hc as [->|Hc].
  { exists (mktimedelta 15), (mkdate 2023 6 16). split; reflexivity. }
  apply elem_of_cons in Hc as [->|Hc]; [|by apply elem_of_nil in Hc].
  exists (mktimedelta 30), (mkdate 2023 7 1). split; reflexivity.
Defined.

(** C1 on the example: customer A, with consolidated billing, in a run
    over A and B. *)
Lemma one_document_per_provider_witness :
  Customer_objects two_customers = [] ++ customer_a :: [customer_b] /\
  consolidated_billing customer_a = true /\
  exists w1 w2 w',
    generate should_be_billed now None two_customers = (w', Returned tt) /\
    _generate_for_user_with_consolidated_billing should_be_billed customer_a
      (first_of_month (now (clock_reads two_customers))) w1
    = (w2, Returned tt).
Proof.
  split; [reflexivity|]. split; [reflexivity|].
  destruct (one_document_per_provider should_be_billed now two_customers
              [] customer_a [customer_b] eq_refl eq_refl) as [Hret Hdocs].
  specialize (Hret example_due_dates).
  assert (Hrun : generate should_be_billed now None two_customers
                 = (fst (generate should_be_billed now None two_customers),
                    Returned tt)).
  { rewrite <- Hret. apply surjective_pairing. }
  destruct (Hdocs _ Hrun) as (w1 & w2 & E & _ & Hpath & _).
  exists w1, w2, (fst (generate should_be_billed now None two_customers)).
  split; [exact Hrun|exact Hpath].
Defined.

(** C2 on the example: customer B, without consolidated billing. *)
Lemma one_document_per_eligible_subscription_witness :
  Customer_objects two_customers = [customer_a] ++ customer_b :: [] /\
  consolidated_billing customer_b = false /\
  exists w1 w2 w',
    generate should_be_billed now None two_customers = (w', Returned tt) /\
    _generate_for_user_without_consolidated_billing should_be_billed
      customer_b (first_of_month (now (clock_reads two_customers))) w1
    = (w2, Returned tt).
Proof.
  split; [reflexivity|]. split; [reflexivity|].
  destruct (one_document_per_eligible_subscription should_be_billed now
              two_customers [customer_a] customer_b [] eq_refl eq_refl)
    as [Hret Hdocs].
  specialize (Hret example_due_dates).
  assert (Hrun : generate should_be_billed now None two_customers
                 = (fst (generate should_be_billed now None two_customers),
                    Returned tt)).
  { rewrite <- Hret. apply surjective_pairing. }
  destruct (Hdocs _ Hrun) as (w1 & w2 & E & _ & Hpath & _).
  exists w1, w2, (fst (generate should_be_billed now None two_customers)).
  split; [exact Hrun|exact Hpath].
Defined.

Lemma first_document_created :
  Document_objects (fst (generate should_be_billed now None two_customers)) !! 0
  = Some first_document.
Proof. vm_compute. reflexivity. Defined.

(** C5 on the example: the invoice of provider X, who issues at once. *)
Lemma issued_once_iff_provider_says_so_witness :
  length (Document_objects two_customers) <= 0 /\
  exists L,
    calls (fst (generate should_be_billed now None two_customers))
    = calls two_customers ++ L /\
    length (filter (fun c => c = IssueDocument 0) L) <= 1 /\
    (IssueDocument 0 ∈ L <->
     default_document_state (document_provider first_document) = "issued").
Proof.
  split; [simpl; lia|].
  destruct (issued_once_iff_provider_says_so should_be_billed now None
              two_customers 0 first_document (Nat.le_refl 0)
              first_document_created)
    as (L & HL & Hle & Hiff & _).
  exists L. split; [exact HL|]. split; [exact Hle|exact Hiff].
Defined.

(** C6 on the example: the sixth subscription, active but not due. *)
Lemma skipped_subscription_leaves_no_trace_witness :
  let s := subscription 6 "active" provider_x customer_b in
  ~ ((state s = "active" \/ state s = "canceled") /\
     should_be_billed s (first_of_month (now (clock_reads two_customers)))
     = true) /\
  exists L,
    calls (fst (generate should_be_billed now None two_customers))
    = calls two_customers ++ L /\
    (forall d kw n, AddTotalValueToDocument s d kw n ∉ L) /\
    (EndSubscription s ∉ L).
Proof.
  intros s.
  assert (Hskip :
    ~ ((state s = "active" \/ state s = "canceled") /\
       should_be_billed s (first_of_month (now (clock_reads two_customers)))
       = true)).
  { intros [_ H]. vm_compute in H. discriminate H. }
  split; [exact Hskip|].
  destruct (skipped_subscription_leaves_no_trace should_be_billed now
              two_customers s Hskip)
    as (E & L & _ & HL & _ & Hadd & Hend & _).
  exists L. split; [exact HL|]. split; [exact Hadd|exact Hend].
Defined.

(** C8 on the example: 15 days after the first of June 2023. *)
Lemma due_date_is_billing_date_plus_payment_due_days_witness :
  length (Document_objects two_customers) <= 0 /\
  exists delta,
    timedelta_of_days (payment_due_days (document_customer first_document))
    = inr delta /\
    days delta = 15%Z /\
    date_add (mkdate 2023 6 1) delta = inr (mkdate 2023 6 16).
Proof.
  split; [simpl; lia|].
  destruct (due_date_is_billing_date_plus_payment_due_days should_be_billed
              now None two_customers 0 first_document (Nat.le_refl 0)
              first_document_created)
    as [(delta & Hdelta & Hdays & Hadd) _].
  exists delta. split; [exact Hdelta|]. split; [exact Hdays|exact Hadd].
Defined.

(** C9 on the example: the canceled subscription of customer A, whose
    provider issues at once. *)
Lemma single_run_bills_canceled_subscription_witness :
  let sub := subscription 2 "canceled" provider_x customer_a in
  state sub = "canceled" /\
  timedelta_of_days (payment_due_days (customer sub)) = inr (mktimedelta 15) /\
  date_add (now (clock_reads two_customers)) (mktimedelta 15)
  = inr (mkdate 2023 7 2) /\
  exists w',
    generate should_be_billed now (Some sub) two_customers = (w', Returned tt) /\
    calls w' =
      [TimezoneNow; CreateDocument 0;
       AddTotalValueToDocument sub (mkdate 2023 6 17) invoice 0;
       EndSubscription sub; SaveSubscription (ended sub);
       IssueDocument 0; SaveDocument 0].
Proof.
  intros sub.
  assert (H1 : state sub = "canceled") by reflexivity.
  assert (H2 : timedelta_of_days (payment_due_days (customer sub))
               = inr (mktimedelta 15)) by reflexivity.
  assert (H3 : date_add (now (clock_reads two_customers)) (mktimedelta 15)
               = inr (mkdate 2023 7 2)) by (vm_compute; reflexivity).
  do 3 (split; [assumption|]).
  destruct (single_run_bills_canceled_subscription should_be_billed now sub
              two_customers (mktimedelta 15) (mkdate 2023 7 2) H1 H2 H3)
    as (w' & Hrun & _ & _ & _ & _ & Hcalls).
  exists w'. split; [exact Hrun|exact Hcalls].
Defined.

(** C10 on the example: a subscription that has ended is billed all the
    same when passed to the run for a single subscription. *)
Lemma single_run_ignores_state_and_eligibility_witness :
  let sub := subscription 4 "ended" provider_y customer_a in
  timedelta_of_days (payment_due_days (customer sub)) = inr (mktimedelta 15) /\
  date_add (now (clock_reads two_customers)) (mktimedelta 15)
  = inr (mkdate 2023 7 2) /\
  exists w' L,
    generate should_be_billed now (Some sub) two_customers = (w', Returned tt) /\
    calls w' = calls two_customers ++ L /\
    (forall s d, ShouldBeBilled s d ∉ L) /\
    length (Document_objects w') = 1.
Proof.
  intros sub.
  assert (H2 : timedelta_of_days (payment_due_days (customer sub))
               = inr (mktimedelta 15)) by reflexivity.
  assert (H3 : date_add (now (clock_reads two_customers)) (mktimedelta 15)
               = inr (mkdate 2023 7 2)) by (vm_compute; reflexivity).
  do 2 (split; [assumption|]).
  destruct (single_run_ignores_state_and_eligibility should_be_billed now sub
              two_customers) as (_ & (L0 & Hcalls0 & Hno & _) & _ & Hbills).
  destruct (Hbills (mktimedelta 15) (mkdate 2023 7 2) H2 H3)
    as (w' & L & Hrun & Hcalls & Hlen & _).
  exists w', L. split; [exact Hrun|]. split; [exact Hcalls|].
  split; [|exact Hlen].
  rewrite Hrun in Hcalls0. simpl in Hcalls0. rewrite Hcalls in Hcalls0.
  subst L0. exact Hno.
Defined.

(** *** Where the claims fail as stated *)

(** C1 as stated fails for customer C: one provider among the eligible
    subscriptions, but the due date overflows and no document is made. *)
Lemma consolidated_customer_left_without_document :
  let w := overflowing_consolidated in
  let run := generate should_be_billed now None w in
  let billing_date := first_of_month (now (clock_reads w)) in
  let eligible_subscriptions :=
    List.filter (fun s => should_be_billed s billing_date)
      (active_or_canceled customer_c w) in
  Customer_objects w = [customer_c] /\
  consolidated_billing customer_c = true /\
  size (list_to_set
          ((fun s => provider_pk (provider (plan s)))
             <$> eligible_subscriptions) : gset nat) = 1 /\
  snd run = Raised OverflowError /\
  Document_objects (fst run) = Document_objects w.
Proof. vm_compute. repeat split; reflexivity. Qed.

(** C2 as stated fails for customer D: two eligible subscriptions, no
    document. *)
Lemma separate_customer_left_without_document :
  let w := overflowing_separate in
  let run := generate should_be_billed now None w in
  let billing_date := first_of_month (now (clock_reads w)) in
  let eligible_subscriptions :=
    List.filter (fun s => should_be_billed s billing_date)
      (active_or_canceled customer_d w) in
  Customer_objects w = [customer_d] /\
  consolidated_billing customer_d = false /\
  length eligible_subscriptions = 2 /\
  snd run = Raised OverflowError /\
  Document_objects (fst run) = Document_objects w.
Proof. vm_compute. repeat split; reflexivity. Qed.

(** C9 as stated fails for the canceled subscription of customer D: no
    document, no charge, and the subscription is not ended. *)
Lemma canceled_subscription_left_unbilled :
  let sub := subscription 9 "canceled" provider_x customer_d in
  let run := generate should_be_billed now (Some sub) overflowing_separate in
  state sub = "canceled" /\
  snd run = Raised OverflowError /\
  Document_objects (fst run) = [] /\
  DocumentEntry_objects (fst run) = [] /\
  Subscription_objects (fst run) = Subscription_objects overflowing_separate /\
  calls (fst run) = [TimezoneNow].
Proof. vm_compute. repeat split; reflexivity. Qed.

(** C10 as stated fails for the active subscription of customer D: the
    run creates no document and appends no charge. *)
Lemma single_run_creates_no_document :
  let sub := subscription 8 "active" provider_x customer_d in
  let run := generate should_be_billed now (Some sub) overflowing_separate in
  snd run = Raised OverflowError /\
  Document_objects (fst run) = [] /\
  DocumentEntry_objects (fst run) = [] /\
  calls (fst run) = [TimezoneNow].
Proof. vm_compute. repeat split; reflexivity. Qed.

(** ** The further properties on the example database *)

(** X2 on the example: the run over A, C and B stops at C. *)
Lemma failed_run_stops_at_first_unbillable_customer_witness :
  generate should_be_billed now None three_customers
  = (fst (generate should_be_billed now None three_customers),
     Raised OverflowError) /\
  exists pre cu post w1 skipped sub rest,
    Customer_objects three_customers = pre ++ cu :: post /\
    for_in pre
      (customer_body should_be_billed
         (first_of_month (now (clock_reads three_customers)))) tt
      (fst (timezone_now_date now three_customers)) = (w1, Returned tt) /\
    ~ representable (first_of_month (now (clock_reads three_customers))) cu /\
    active_or_canceled cu w1 = skipped ++ sub :: rest /\
    Forall (fun s => should_be_billed s
                       (first_of_month (now (clock_reads three_customers)))
                     = false) skipped /\
    should_be_billed sub (first_of_month (now (clock_reads three_customers)))
    = true /\
    OverflowError = OverflowError /\
    fst (generate should_be_billed now None three_customers)
    = logged w1
        (questions (first_of_month (now (clock_reads three_customers)))
           (skipped ++ [sub])).
Proof.
  assert (Hrun : generate should_be_billed now None three_customers
                 = (fst (generate should_be_billed now None three_customers),
                    Raised OverflowError)).
  { vm_compute. reflexivity. }
  split; [exact Hrun|].
  exact (failed_run_stops_at_first_unbillable_customer should_be_billed now
           _ _ _ Hrun).
Defined.

(** X3 on the example: a run over the database in which nothing is due. *)
Lemma run_with_nothing_due_only_asks_witness :
  (forall cu, cu ∈ Customer_objects nothing_due ->
     due_for_billing should_be_billed
       (first_of_month (now (clock_reads nothing_due)))
       (active_or_canceled cu nothing_due) = []) /\
  calls (fst (generate should_be_billed now None nothing_due))
  = [TimezoneNow;
     ShouldBeBilled (subscription 6 "active" provider_x customer_b)
       (mkdate 2023 6 1)].
Proof.
  assert (Hnone : forall cu, cu ∈ Customer_objects nothing_due ->
            due_for_billing should_be_billed
              (first_of_month (now (clock_reads nothing_due)))
              (active_or_canceled cu nothing_due) = []).
  { intros cu Hcu. simpl in Hcu.
    apply elem_of_cons in Hcu as [->|Hcu]; [reflexivity|].
    apply elem_of_cons in Hcu as [->|Hcu]; [reflexivity|].
    by apply elem_of_nil in Hcu. }
  split; [exact Hnone|].
  rewrite (run_with_nothing_due_only_asks should_be_billed now nothing_due
             Hnone).
  reflexivity.
Defined.

(** X5 on the example: customer A, processed at the start of the run. *)
Lemma every_due_subscription_charged_once_witness :
  customer_body should_be_billed (mkdate 2023 6 1) customer_a tt two_customers
  = (fst (customer_body should_be_billed (mkdate 2023 6 1) customer_a tt
            two_customers), Returned tt) /\
  exists E,
    DocumentEntry_objects
      (fst (customer_body should_be_billed (mkdate 2023 6 1) customer_a tt
              two_customers))
    = DocumentEntry_objects two_customers ++ E /\
    entry_subscription <$> E
    = [subscription 1 "active" provider_x customer_a;
       subscription 2 "canceled" provider_x customer_a;
       subscription 3 "active" provider_y customer_a].
Proof.
  assert (Hrun : customer_body should_be_billed (mkdate 2023 6 1) customer_a
                   tt two_customers
                 = (fst (customer_body should_be_billed (mkdate 2023 6 1)
                           customer_a tt two_customers), Returned tt)).
  { vm_compute. reflexivity. }
  split; [exact Hrun|].
  destruct (every_due_subscription_charged_once should_be_billed _ _ _ _ Hrun)
    as (E & HE & Hsubs & _).
  exists E. split; [exact HE|exact Hsubs].
Defined.

(** X6 on the example: the canceled subscription of customer A. *)
Lemma single_run_is_a_step_of_the_separate_loop_witness :
  should_be_billed (subscription 2 "canceled" provider_x customer_a)
    (now (clock_reads two_customers)) = true /\
  exists w1 w2 r,
    _generate_for_single_subscription_now now
      (subscription 2 "canceled" provider_x customer_a) two_customers
    = (w1, r) /\
    separate_body should_be_billed customer_a (now (clock_reads two_customers))
      (subscription 2 "canceled" provider_x customer_a) tt
      (fst (timezone_now_date now two_customers)) = (w2, r) /\
    Subscription_objects w1 = Subscription_objects w2 /\
    Document_objects w1 = Document_objects w2 /\
    DocumentEntry_objects w1 = DocumentEntry_objects w2.
Proof.
  split; [reflexivity|].
  destruct (single_run_is_a_step_of_the_separate_loop should_be_billed now
              (subscription 2 "canceled" provider_x customer_a) two_customers
              eq_refl)
    as (w1 & w2 & r & L & H1 & H2 & _ & _ & Hs & Hd & He & _).
  exists w1, w2, r. split; [exact H1|]. split; [exact H2|].
  split; [exact Hs|]. split; [exact Hd|exact He].
Defined.

Lemma example_subscription_pks :
  NoDup (subscription_pk <$> Subscription_objects two_customers).
Proof. compute_done. Defined.

Lemma example_customer_pks :
  NoDup (customer_pk <$> Customer_objects two_customers).
Proof. compute_done. Defined.

(** X8 on the example: the run over A and B ends the subscriptions 2 and
    5 and leaves the others, those of C and D among them. *)
Lemma full_run_ends_the_due_canceled_subscriptions_witness :
  NoDup (subscription_pk <$> Subscription_objects two_customers) /\
  exists done rest,
    Customer_objects two_customers = done ++ rest /\
    Subscription_objects (fst (generate should_be_billed now None two_customers))
    = end_due should_be_billed
        (first_of_month (now (clock_reads two_customers))) (of_customers done)
      <$> Subscription_objects two_customers.
Proof.
  split; [exact example_subscription_pks|].
  destruct (full_run_ends_the_due_canceled_subscriptions should_be_billed now
              two_customers example_subscription_pks)
    as (done & rest & Hcs & Hrows & _).
  exists done, rest. split; [exact Hcs|exact Hrows].
Defined.

(** X9 on the example: customer B, reached after customer A. *)
Lemma customer_is_billed_from_the_rows_of_the_start_witness :
  NoDup (subscription_pk <$> Subscription_objects two_customers) /\
  Customer_objects two_customers = [customer_a] ++ customer_b :: [] /\
  (customer_pk customer_b ∉ customer_pk <$> [customer_a]) /\
  exists w1,
    for_in [customer_a]
      (customer_body should_be_billed
         (first_of_month (now (clock_reads two_customers)))) tt
      (fst (timezone_now_date now two_customers)) = (w1, Returned tt) /\
    active_or_canceled customer_b w1
    = active_or_canceled customer_b two_customers.
Proof.
  assert (Hpk : customer_pk customer_b ∉ customer_pk <$> [customer_a]).
  { simpl. intros Hin. apply list_elem_of_singleton in Hin. discriminate. }
  assert (Hrun :
    for_in [customer_a]
      (customer_body should_be_billed
         (first_of_month (now (clock_reads two_customers)))) tt
      (fst (timezone_now_date now two_customers))
    = (fst (for_in [customer_a]
              (customer_body should_be_billed
                 (first_of_month (now (clock_reads two_customers)))) tt
              (fst (timezone_now_date now two_customers))), Returned tt)).
  { vm_compute. reflexivity. }
  split; [exact example_subscription_pks|]. split; [reflexivity|].
  split; [exact Hpk|].
  eexists. split; [exact Hrun|].
  exact (customer_is_billed_from_the_rows_of_the_start should_be_billed now
           two_customers _ [customer_a] [] customer_b
           example_subscription_pks eq_refl Hpk Hrun).
Defined.

(** X10 on the example: two documents for customer A, who has
    consolidated billing and subscriptions of two providers that are due,
    and one for customer B. *)
Lemma documents_created_for_each_customer_witness :
  NoDup (subscription_pk <$> Subscription_objects two_customers) /\
  NoDup (customer_pk <$> Customer_objects two_customers) /\
  customer_a ∈ Customer_objects two_customers /\
  generate should_be_billed now None two_customers
  = (fst (generate should_be_billed now None two_customers), Returned tt) /\
  length (filter (fun doc => document_customer doc = customer_a)
            (drop (length (Document_objects two_customers))
               (Document_objects
                  (fst (generate should_be_billed now None two_customers)))))
  = 2.
Proof.
  assert (Hrun : generate should_be_billed now None two_customers
                 = (fst (generate should_be_billed now None two_customers),
                    Returned tt)).
  { vm_compute. reflexivity. }
  assert (Hin : customer_a ∈ Customer_objects two_customers).
  { apply list_elem_of_here. }
  split; [exact example_subscription_pks|].
  split; [exact example_customer_pks|].
  split; [exact Hin|]. split; [exact Hrun|].
  destruct (documents_created_for_each_customer should_be_billed now
              two_customers _ customer_a example_subscription_pks
              example_customer_pks Hin Hrun) as [Hcount _].
  rewrite Hcount. vm_compute. reflexivity.
Defined.

(** X12 on the example: customer A with one subscription of each
    provider. *)
Lemma consolidation_matters_only_for_shared_providers_witness :
  NoDup (provider_key
         <$> due_for_billing should_be_billed (mkdate 2023 6 1)
               (active_or_canceled customer_a two_providers)) /\
  exists w1 w2,
    _generate_for_user_with_consolidated_billing should_be_billed customer_a
      (mkdate 2023 6 1) two_providers = (w1, Returned tt) /\
    _generate_for_user_without_consolidated_billing should_be_billed
      customer_a (mkdate 2023 6 1) two_providers = (w2, Returned tt) /\
    Document_objects w1 = Document_objects w2 /\
    length (Document_objects w1) = 2.
Proof.
  assert (Hnd : NoDup (provider_key
                       <$> due_for_billing should_be_billed (mkdate 2023 6 1)
                             (active_or_canceled customer_a two_providers))).
  { compute_done. }
  split; [exact Hnd|].
  destruct (consolidation_matters_only_for_shared_providers should_be_billed
              (mkdate 2023 6 1) customer_a two_providers Hnd)
    as (w1 & w2 & r & H1 & H2 & _ & Hd & _).
  assert (Hr : snd (_generate_for_user_with_consolidated_billing
                      should_be_billed customer_a (mkdate 2023 6 1)
                      two_providers) = Returned tt).
  { vm_compute. reflexivity. }
  rewrite H1 in Hr. simpl in Hr. subst r.
  exists w1, w2. split; [exact H1|]. split; [exact H2|]. split; [exact Hd|].
  change w1 with (fst (w1, @Returned unit tt)). rewrite <- H1.
  vm_compute. reflexivity.
Defined.

(** X13 on the example: the day the clock of the example shows. *)
Lemma billing_date_is_a_date_not_after_today_witness :
  valid_date (now 0) = true /\
  valid_date (first_of_month (now 0)) = true /\
  (toordinal (first_of_month (now 0)) = toordinal (now 0) - 16)%Z.
Proof.
  split; [reflexivity|].
  destruct (billing_date_is_a_date_not_after_today (now 0) eq_refl)
    as (Hvalid & Hord & _).
  split; [exact Hvalid|exact Hord].
Defined.

(** X14 on the example: the run over the two customers when a document
    of an earlier run is there. *)
Lemma run_does_not_look_at_documents_or_entries_witness :
  grafted [first_document]
    [charge_entry (mkdate 2023 5 1)
       (subscription 1 "active" provider_x customer_a) 0] []
    two_customers billed_before /\
  Document_objects (fst (generate should_be_billed now None billed_before))
  = [first_document]
    ++ Document_objects (fst (generate should_be_billed now None two_customers))
  /\ snd (generate should_be_billed now None billed_before)
     = snd (generate should_be_billed now None two_customers).
Proof.
  assert (Hg : grafted [first_document]
                 [charge_entry (mkdate 2023 5 1)
                    (subscription 1 "active" provider_x customer_a) 0] []
                 two_customers billed_before).
  { unfold grafted. simpl. repeat split; reflexivity. }
  split; [exact Hg|].
  destruct (run_does_not_look_at_documents_or_entries should_be_billed now
              _ _ _ None _ _ Hg) as [(_ & _ & _ & Hdocs & _) Hres].
  split; [exact Hdocs|exact Hres].
Defined.

(** X16 on the example: the run over A and B charges the subscriptions
    1, 2 and 3 of A and the subscription 5 of B. *)
Lemma full_run_asks_all_and_charges_the_due_witness :
  NoDup (subscription_pk <$> Subscription_objects two_customers) /\
  NoDup (customer_pk <$> Customer_objects two_customers) /\
  generate should_be_billed now None two_customers
  = (fst (generate should_be_billed now None two_customers), Returned tt) /\
  exists E,
    DocumentEntry_objects (fst (generate should_be_billed now None two_customers))
    = DocumentEntry_objects two_customers ++ E /\
    entry_subscription <$> E
    = [subscription 1 "active" provider_x customer_a;
       subscription 2 "canceled" provider_x customer_a;
       subscription 3 "active" provider_y customer_a;
       subscription 5 "canceled" provider_y customer_b].
Proof.
  assert (Hrun : generate should_be_billed now None two_customers
                 = (fst (generate should_be_billed now None two_customers),
                    Returned tt)).
  { vm_compute. reflexivity. }
  split; [exact example_subscription_pks|].
  split; [exact example_customer_pks|]. split; [exact Hrun|].
  destruct (full_run_asks_all_and_charges_the_due should_be_billed now
              two_customers _ example_subscription_pks example_customer_pks
              Hrun) as (E & L & HE & _ & _ & Hcharged & Hsubs).
  exists E. split; [exact HE|]. rewrite Hsubs, Hcharged. reflexivity.
Defined.

(** X17 on the example: the two documents of customer A, taken in the
    order in which they were created. *)
Lemma issuing_order_does_not_matter_witness :
  snd (for_in (active_or_canceled customer_a two_customers)
         (consolidated_body should_be_billed customer_a (mkdate 2023 6 1)) ∅
         two_customers) = Returned cached_of_a /\
  cached_of_a_as_created ≡ₚ map_to_list cached_of_a /\
  exists w1 w' w'',
    for_in cached_of_a_as_created issue_body tt w1 = (w', Returned tt) /\
    _generate_for_user_with_consolidated_billing should_be_billed customer_a
      (mkdate 2023 6 1) two_customers = (w'', Returned tt) /\
    Document_objects w' = Document_objects w'' /\
    calls w' = calls w1 ++ [IssueDocument 0; SaveDocument 0].
Proof.
  assert (Hloop : snd (for_in (active_or_canceled customer_a two_customers)
                         (consolidated_body should_be_billed customer_a
                            (mkdate 2023 6 1)) ∅ two_customers)
                  = Returned cached_of_a).
  { vm_compute. reflexivity. }
  assert (Hperm : cached_of_a_as_created ≡ₚ map_to_list cached_of_a).
  { replace (map_to_list cached_of_a)
      with [(2, (provider_y, proforma_of_a)); (1, (provider_x, invoice_of_a))]
      by (vm_compute; reflexivity).
    apply perm_swap. }
  split; [exact Hloop|]. split; [exact Hperm|].
  destruct (issuing_order_does_not_matter should_be_billed (mkdate 2023 6 1)
              customer_a two_customers cached_of_a cached_of_a_as_created
              Hloop Hperm)
    as (w1 & w' & w'' & _ & Hrun' & Hrun'' & _ & _ & _ & Hdocs & _ & Hcalls & _).
  exists w1, w', w''. split; [exact Hrun'|]. split; [exact Hrun''|].
  split; [exact Hdocs|exact Hcalls].
Defined.
